(** * kuduraft: consensus metadata and the per-peer message buffer

    A shallow embedding of
    - [src/kudu/consensus/consensus_meta.cc] (class [ConsensusMetadata]) and
    - the peer message buffer translation unit (struct [BufferData]),
    followed by the properties of these two components.

    Conventions.
    - [int64_t] values are [Z]; the two places where the code does
      arithmetic on them ([last_buffered + 1] and the fill-size
      subtraction) go through [Int64.add] / [Int64.sub], which wrap.
      The test-only flush counter is counted in [Z].
    - Optional protobuf fields are [option]s; the generated accessor of an
      unset field returns the default ([0], the empty string, the default
      message), and the accessors below do the same.
    - [DCHECK]s compile to nothing in release builds.  Mutators are modelled
      as the total functions of a release build and each [DCHECK] is kept
      next to its mutator as a named precondition ([..._pre]).
    - Calls into the file system, the configuration checker and the log
      cache are calls to collaborators that are passed in.
    - The vote history is a [google::protobuf::Map], a hash map whose
      order of iteration is unspecified: the map is the list of its
      entries in iteration order, and where an insertion puts the new
      entry in that order is a parameter ([CMeta.MapInsert]). *)

From Stdlib Require Import ZArith List String Bool Lia Permutation.
Import ListNotations.
Open Scope Z_scope.

(* ================================================================== *)
(** ** 64-bit signed integers *)

Module Int64.

Definition min_signed : Z := - 2 ^ 63.
Definition max_signed : Z := 2 ^ 63 - 1.
Definition modulus : Z := 2 ^ 64.

Definition in_range (x : Z) : Prop := min_signed <= x <= max_signed.

(** Two's-complement reduction into [[-2^63, 2^63)]. *)
Definition wrap (x : Z) : Z := (x + 2 ^ 63) mod modulus - 2 ^ 63.

Definition add (x y : Z) : Z := wrap (x + y).
Definition sub (x y : Z) : Z := wrap (x - y).

End Int64.

(* ================================================================== *)
(** ** [kudu::Status] *)

Module KStatus.

Inductive Code : Type :=
| kOk | kNotFound | kCorruption | kNotSupported | kInvalidArgument
| kIOError | kAlreadyPresent | kRuntimeError | kNetworkError
| kIllegalState | kNotAuthorized | kAborted | kRemoteError
| kServiceUnavailable | kTimedOut | kUninitialized
| kConfigurationError | kIncomplete | kEndOfFile | kContinue.

Definition Code_eqb (a b : Code) : bool :=
  match a, b with
  | kOk, kOk | kNotFound, kNotFound | kCorruption, kCorruption
  | kNotSupported, kNotSupported | kInvalidArgument, kInvalidArgument
  | kIOError, kIOError | kAlreadyPresent, kAlreadyPresent
  | kRuntimeError, kRuntimeError | kNetworkError, kNetworkError
  | kIllegalState, kIllegalState | kNotAuthorized, kNotAuthorized
  | kAborted, kAborted | kRemoteError, kRemoteError
  | kServiceUnavailable, kServiceUnavailable | kTimedOut, kTimedOut
  | kUninitialized, kUninitialized
  | kConfigurationError, kConfigurationError
  | kIncomplete, kIncomplete | kEndOfFile, kEndOfFile
  | kContinue, kContinue => true
  | _, _ => false
  end.

Record Status : Type := mkStatus { code : Code; message : string }.

Definition OK : Status := mkStatus kOk EmptyString.
Definition InvalidArgument (m : string) : Status := mkStatus kInvalidArgument m.
Definition IllegalState (m : string) : Status := mkStatus kIllegalState m.
Definition NotFound (m : string) : Status := mkStatus kNotFound m.
Definition Continue (m : string) : Status := mkStatus kContinue m.
Definition Incomplete (m : string) : Status := mkStatus kIncomplete m.
Definition IOError (m : string) : Status := mkStatus kIOError m.

Definition ok (s : Status) : bool := Code_eqb (code s) kOk.
Definition IsIncomplete (s : Status) : bool := Code_eqb (code s) kIncomplete.
Definition IsContinue (s : Status) : bool := Code_eqb (code s) kContinue.
Definition IsIllegalState (s : Status) : bool :=
  Code_eqb (code s) kIllegalState.
Definition IsInvalidArgument (s : Status) : bool :=
  Code_eqb (code s) kInvalidArgument.

(** [Status::CloneAndPrepend]: an OK status is returned as it is;
    otherwise the code is kept and the message is prefixed, with a
    separator when there was a message. *)
Definition CloneAndPrepend (m : string) (s : Status) : Status :=
  if ok s then s
  else
    mkStatus (code s)
      (match message s with
       | EmptyString => m
       | _ => m ++ ": " ++ message s
       end)%string.

(** A computation that can stop with a non-OK [Status]: the shape of a
    function body written with [RETURN_NOT_OK]. *)
Definition Result (A : Type) : Type := (Status + A)%type.

Definition ret {A} (a : A) : Result A := inr a.

Definition bind {A B} (r : Result A) (k : A -> Result B) : Result B :=
  match r with
  | inl e => inl e
  | inr a => k a
  end.

(** [RETURN_NOT_OK(s)] *)
Definition check (s : Status) : Result unit :=
  if ok s then inr tt else inl s.

(** [RETURN_NOT_OK_PREPEND(s, m)] *)
Definition check_prepend (s : Status) (m : string) : Result unit :=
  if ok s then inr tt else inl (CloneAndPrepend m s).

End KStatus.

Declare Scope kstatus_scope.
Delimit Scope kstatus_scope with kstatus.
Notation "x <- r ;; k" := (KStatus.bind r (fun x => k))
  (at level 61, r at next level, right associativity) : kstatus_scope.
Notation "r ;;; k" := (KStatus.bind r (fun _ => k))
  (at level 61, right associativity) : kstatus_scope.

(* ================================================================== *)
(** ** Consensus metadata ([consensus_meta.cc]) *)

Module CMeta.

Import KStatus.

(** *** Protobuf messages read or written by [consensus_meta.cc] *)

Record HostPortPB : Type := mkHostPortPB { host : string; port : Z }.

Record RaftPeerPB : Type := mkRaftPeerPB {
  permanent_uuid : string;
  last_known_addr : option HostPortPB
}.

Inductive Role : Type :=
| UNKNOWN_ROLE | FOLLOWER | LEADER | LEARNER | NON_PARTICIPANT.

Record RaftConfigPB : Type := mkRaftConfigPB {
  opid_index : option Z;
  peers : list RaftPeerPB;
  voter_distribution : list (string * Z)
}.

(** A message after [Clear()]. *)
Definition RaftConfigPB_default : RaftConfigPB := mkRaftConfigPB None [] [].

Record PreviousVotePB : Type := mkPreviousVotePB {
  candidate_uuid : string;
  election_term : Z
}.

Record LastKnownLeaderPB : Type := mkLastKnownLeaderPB {
  lkl_uuid : string;
  lkl_election_term : Z
}.

(** [google::protobuf::Map<int64_t, PreviousVotePB>], a type of the
    protobuf library: a hash map, which holds no key twice and whose order
    of iteration is unspecified.  The map is kept as the list of its
    entries in the order in which an iterator started at [begin()] visits
    them, and nothing is assumed about that order. *)
Definition VoteHistory : Type := list (Z * PreviousVotePB).

(** Where a new entry comes in the order of iteration is decided inside
    the library (by the hash of the key, the seed and the size of the
    table; an insertion may rehash and so move every entry).  A [MapInsert]
    is that decision: from the key and value of an entry the map does not
    hold and the entries it holds, the entries afterwards in iteration
    order.  [CMetaInv.map_insert_ok] is what the library promises of it. *)
Definition MapInsert : Type :=
  Z -> PreviousVotePB -> VoteHistory -> VoteHistory.

Record ConsensusMetadataPB : Type := mkConsensusMetadataPB {
  pb_current_term : option Z;
  pb_voted_for : option string;
  pb_committed_config : option RaftConfigPB;
  pb_previous_vote_history : VoteHistory;
  pb_last_known_leader : LastKnownLeaderPB;
  pb_last_pruned_term : Z
}.

Record ConsensusStatePB : Type := mkConsensusStatePB {
  cs_current_term : option Z;
  cs_leader_uuid : option string;
  cs_committed_config : option RaftConfigPB;
  cs_pending_config : option RaftConfigPB
}.

(** *** The object *)

Record ConsensusMetadata : Type := mkConsensusMetadata {
  tablet_id_ : string;
  peer_uuid_ : string;
  has_pending_config_ : bool;
  pending_config_ : RaftConfigPB;
  leader_uuid_ : string;
  active_role_ : Role;
  flush_count_for_tests_ : Z;
  on_disk_size_ : Z;
  pb_ : ConsensusMetadataPB
}.

(** Field updates. *)

Definition upd_pb (f : ConsensusMetadataPB -> ConsensusMetadataPB)
    (c : ConsensusMetadata) : ConsensusMetadata :=
  mkConsensusMetadata (tablet_id_ c) (peer_uuid_ c) (has_pending_config_ c)
    (pending_config_ c) (leader_uuid_ c) (active_role_ c)
    (flush_count_for_tests_ c) (on_disk_size_ c) (f (pb_ c)).

Definition upd_pending (h : bool) (cfg : RaftConfigPB)
    (c : ConsensusMetadata) : ConsensusMetadata :=
  mkConsensusMetadata (tablet_id_ c) (peer_uuid_ c) h cfg (leader_uuid_ c)
    (active_role_ c) (flush_count_for_tests_ c) (on_disk_size_ c) (pb_ c).

Definition upd_leader_uuid (u : string) (c : ConsensusMetadata)
    : ConsensusMetadata :=
  mkConsensusMetadata (tablet_id_ c) (peer_uuid_ c) (has_pending_config_ c)
    (pending_config_ c) u (active_role_ c) (flush_count_for_tests_ c)
    (on_disk_size_ c) (pb_ c).

Definition upd_active_role (r : Role) (c : ConsensusMetadata)
    : ConsensusMetadata :=
  mkConsensusMetadata (tablet_id_ c) (peer_uuid_ c) (has_pending_config_ c)
    (pending_config_ c) (leader_uuid_ c) r (flush_count_for_tests_ c)
    (on_disk_size_ c) (pb_ c).

Definition upd_flush_count (n : Z) (c : ConsensusMetadata)
    : ConsensusMetadata :=
  mkConsensusMetadata (tablet_id_ c) (peer_uuid_ c) (has_pending_config_ c)
    (pending_config_ c) (leader_uuid_ c) (active_role_ c) n
    (on_disk_size_ c) (pb_ c).

Definition upd_on_disk_size (n : Z) (c : ConsensusMetadata)
    : ConsensusMetadata :=
  mkConsensusMetadata (tablet_id_ c) (peer_uuid_ c) (has_pending_config_ c)
    (pending_config_ c) (leader_uuid_ c) (active_role_ c)
    (flush_count_for_tests_ c) n (pb_ c).

Definition pb_set_current_term (t : Z) (p : ConsensusMetadataPB) :=
  mkConsensusMetadataPB (Some t) (pb_voted_for p) (pb_committed_config p)
    (pb_previous_vote_history p) (pb_last_known_leader p)
    (pb_last_pruned_term p).

Definition pb_set_voted_for (v : option string) (p : ConsensusMetadataPB) :=
  mkConsensusMetadataPB (pb_current_term p) v (pb_committed_config p)
    (pb_previous_vote_history p) (pb_last_known_leader p)
    (pb_last_pruned_term p).

Definition pb_set_committed_config (cfg : RaftConfigPB)
    (p : ConsensusMetadataPB) :=
  mkConsensusMetadataPB (pb_current_term p) (pb_voted_for p) (Some cfg)
    (pb_previous_vote_history p) (pb_last_known_leader p)
    (pb_last_pruned_term p).

Definition pb_set_previous_vote_history (h : VoteHistory)
    (p : ConsensusMetadataPB) :=
  mkConsensusMetadataPB (pb_current_term p) (pb_voted_for p)
    (pb_committed_config p) h (pb_last_known_leader p)
    (pb_last_pruned_term p).

Definition pb_set_last_known_leader (l : LastKnownLeaderPB)
    (p : ConsensusMetadataPB) :=
  mkConsensusMetadataPB (pb_current_term p) (pb_voted_for p)
    (pb_committed_config p) (pb_previous_vote_history p) l
    (pb_last_pruned_term p).

Definition pb_set_last_pruned_term (t : Z) (p : ConsensusMetadataPB) :=
  mkConsensusMetadataPB (pb_current_term p) (pb_voted_for p)
    (pb_committed_config p) (pb_previous_vote_history p)
    (pb_last_known_leader p) t.

(** Modelled from the spec: [kMinimumTerm] is declared in [opid_util.h],
    which is not among the sources; the spec bounds [current_term] below
    by a minimum term constant, 0 or 1.  It only occurs in a [DCHECK]. *)
Definition kMinimumTerm : Z := 0.

(** *** Term and vote accessors and mutators *)

Definition has_current_term (c : ConsensusMetadata) : bool :=
  match pb_current_term (pb_ c) with Some _ => true | None => false end.

Definition current_term (c : ConsensusMetadata) : Z :=
  match pb_current_term (pb_ c) with Some t => t | None => 0 end.

Definition set_current_term_pre (term : Z) : Prop := kMinimumTerm <= term.

Definition set_current_term (term : Z) (c : ConsensusMetadata)
    : ConsensusMetadata :=
  upd_pb (pb_set_current_term term) c.

Definition has_voted_for (c : ConsensusMetadata) : bool :=
  match pb_voted_for (pb_ c) with Some _ => true | None => false end.

Definition voted_for (c : ConsensusMetadata) : string :=
  match pb_voted_for (pb_ c) with Some u => u | None => EmptyString end.

Definition clear_voted_for (c : ConsensusMetadata) : ConsensusMetadata :=
  upd_pb (pb_set_voted_for None) c.

Definition last_known_leader (c : ConsensusMetadata) : LastKnownLeaderPB :=
  pb_last_known_leader (pb_ c).

Definition previous_vote_history (c : ConsensusMetadata) : VoteHistory :=
  pb_previous_vote_history (pb_ c).

Definition last_pruned_term (c : ConsensusMetadata) : Z :=
  pb_last_pruned_term (pb_ c).

Definition leader_uuid (c : ConsensusMetadata) : string := leader_uuid_ c.

(** *** The vote-history map *)

Definition keys (h : VoteHistory) : list Z := map fst h.

Definition size (h : VoteHistory) : nat := List.length h.

Fixpoint find (k : Z) (h : VoteHistory) : option PreviousVotePB :=
  match h with
  | [] => None
  | (k', v) :: r => if k' =? k then Some v else find k r
  end.

(** [erase(key)].  Erasing leaves the other entries in the order they
    had. *)
Definition erase_key (k : Z) (h : VoteHistory) : VoteHistory :=
  filter (fun e => negb (fst e =? k)) h.

(** [erase(begin_it, end_it)] with [end_it] the iterator [n] steps after
    [begin()]. *)
Definition erase_prefix (n : nat) (h : VoteHistory) : VoteHistory := skipn n h.

(** The [while] loop of step 1.  [end_it] starts at [begin()]; the result
    is how far it advanced and the final value of the local
    [last_pruned_term]. *)
Fixpoint walk_to_leader_term (last_known_leader_term : Z)
    (last_pruned_term : Z) (from : VoteHistory) : nat * Z :=
  match from with
  | [] => (O, last_pruned_term)
  | (k, _) :: r =>
      if k <=? last_known_leader_term then
        let '(n, lp) := walk_to_leader_term last_known_leader_term k r in
        (S n, lp)
      else (O, last_pruned_term)
  end.

(** Step 1 of the pruning, on the protobuf. *)
Definition prune_to_leader_term (p : ConsensusMetadataPB)
    : ConsensusMetadataPB :=
  let last_known_leader_term := lkl_election_term (pb_last_known_leader p) in
  let '(n, last_pruned) :=
    walk_to_leader_term last_known_leader_term (pb_last_pruned_term p)
      (pb_previous_vote_history p) in
  match n with
  | O => p
  | S _ =>
      pb_set_last_pruned_term last_pruned
        (pb_set_previous_vote_history
           (erase_prefix n (pb_previous_vote_history p)) p)
  end.

Section WithConstants.

(** [VOTE_HISTORY_MAX_SIZE] comes from [consensus_meta.h]. *)
Variable VOTE_HISTORY_MAX_SIZE : nat.

(** The insertion of the protobuf map. *)
Variable map_insert : MapInsert.

(** [InsertIfNotPresent] (gutil [map-util.h]): an existing entry wins. *)
Definition InsertIfNotPresent (k : Z) (v : PreviousVotePB) (h : VoteHistory)
    : VoteHistory :=
  match find k h with
  | Some _ => h
  | None => map_insert k v h
  end.

(** Step 2 of the pruning, on the protobuf: the entry erased is the one
    at [begin()]. *)
Definition prune_to_capacity (p : ConsensusMetadataPB)
    : ConsensusMetadataPB :=
  if (VOTE_HISTORY_MAX_SIZE <? size (pb_previous_vote_history p))%nat then
    match pb_previous_vote_history p with
    | (k, _) :: _ =>
        pb_set_previous_vote_history
          (erase_key k (pb_previous_vote_history p))
          (pb_set_last_pruned_term k p)
    | [] => p
    end
  else p.

Definition pb_populate_previous_vote_history (prev_vote : PreviousVotePB)
    (p : ConsensusMetadataPB) : ConsensusMetadataPB :=
  let p1 :=
    pb_set_previous_vote_history
      (InsertIfNotPresent (election_term prev_vote) prev_vote
         (pb_previous_vote_history p)) p in
  prune_to_capacity (prune_to_leader_term p1).

Definition populate_previous_vote_history (prev_vote : PreviousVotePB)
    (c : ConsensusMetadata) : ConsensusMetadata :=
  upd_pb (pb_populate_previous_vote_history prev_vote) c.

Definition set_voted_for_pre (uuid : string) (c : ConsensusMetadata)
    : Prop :=
  uuid <> EmptyString /\ has_current_term c = true.

Definition set_voted_for (uuid : string) (c : ConsensusMetadata)
    : ConsensusMetadata :=
  let c1 := upd_pb (pb_set_voted_for (Some uuid)) c in
  let prev_vote := mkPreviousVotePB uuid (current_term c1) in
  populate_previous_vote_history prev_vote c1.

End WithConstants.

(** *** Configurations, leader and role *)

Inductive RaftConfigState : Type :=
| ACTIVE_CONFIG | COMMITTED_CONFIG | PENDING_CONFIG.

(** [pb_.committed_config()] *)
Definition pb_committed (c : ConsensusMetadata) : RaftConfigPB :=
  match pb_committed_config (pb_ c) with
  | Some cfg => cfg
  | None => RaftConfigPB_default
  end.

(** [None] is the failed [CHECK] of the [PENDING_CONFIG] case. *)
Definition GetConfig (type : RaftConfigState) (c : ConsensusMetadata)
    : option RaftConfigPB :=
  match type with
  | ACTIVE_CONFIG =>
      if has_pending_config_ c then Some (pending_config_ c)
      else Some (pb_committed c)
  | COMMITTED_CONFIG => Some (pb_committed c)
  | PENDING_CONFIG =>
      if has_pending_config_ c then Some (pending_config_ c) else None
  end.

Definition CommittedConfig (c : ConsensusMetadata) : RaftConfigPB :=
  pb_committed c.

Definition ActiveConfig (c : ConsensusMetadata) : RaftConfigPB :=
  if has_pending_config_ c then pending_config_ c else pb_committed c.

Definition has_pending_config (c : ConsensusMetadata) : bool :=
  has_pending_config_ c.

Definition PendingConfig (c : ConsensusMetadata) : option RaftConfigPB :=
  GetConfig PENDING_CONFIG c.

Definition active_role (c : ConsensusMetadata) : Role := active_role_ c.

Definition ToConsensusStatePB (c : ConsensusMetadata) : ConsensusStatePB :=
  mkConsensusStatePB
    (Some (current_term c))
    (if String.eqb (leader_uuid_ c) EmptyString then None
     else Some (leader_uuid_ c))
    (Some (CommittedConfig c))
    (if has_pending_config_ c then Some (pending_config_ c) else None).

(** [cstate.current_term()] and [cstate.committed_config()] *)
Definition cstate_current_term (cs : ConsensusStatePB) : Z :=
  match cs_current_term cs with Some t => t | None => 0 end.

Definition cstate_committed_config (cs : ConsensusStatePB) : RaftConfigPB :=
  match cs_committed_config cs with
  | Some cfg => cfg
  | None => RaftConfigPB_default
  end.

Inductive FlushMode : Type := OVERWRITE | NO_OVERWRITE.


(** What [FsManager], [Env] and [pb_util] answer at the time of a call. *)
Record FsManager : Type := mkFsManager {
  GetConsensusMetadataDir : string;
  GetConsensusMetadataPath : string -> string;
  DirName : string -> string;
  CreateDirIfMissing : string -> Status * bool;
  SyncDir : string -> Status;
  WritePBContainerToPath :
    string -> ConsensusMetadataPB -> FlushMode -> Status;
  GetFileSize : string -> Status * Z;
  FileExists : string -> bool
}.

Section WithCollaborators.

(** [GetConsensusRole] and [VerifyRaftConfig] live in [quorum_util.cc]. *)
Variable GetConsensusRole : string -> string -> RaftConfigPB -> Role.
Variable VerifyRaftConfig : RaftConfigPB -> Status.

(** The default argument of [Flush], declared in [consensus_meta.h]. *)
Variable Flush_default_mode : FlushMode.

(** [active_role_] has no initialiser in the constructor. *)
Variable initial_active_role : Role.

Definition UpdateActiveRole (c : ConsensusMetadata) : ConsensusMetadata :=
  upd_active_role
    (GetConsensusRole (peer_uuid_ c) (leader_uuid_ c) (ActiveConfig c)) c.

Definition set_committed_config (config : RaftConfigPB)
    (c : ConsensusMetadata) : ConsensusMetadata :=
  let c1 := upd_pb (pb_set_committed_config config) c in
  if negb (has_pending_config_ c1) then UpdateActiveRole c1 else c1.

Definition set_committed_config_raw (config : RaftConfigPB)
    (c : ConsensusMetadata) : ConsensusMetadata :=
  upd_pb (pb_set_committed_config config) c.

Definition clear_pending_config (c : ConsensusMetadata)
    : ConsensusMetadata :=
  UpdateActiveRole (upd_pending false RaftConfigPB_default c).

Definition set_pending_config (config : RaftConfigPB)
    (c : ConsensusMetadata) : ConsensusMetadata :=
  UpdateActiveRole (upd_pending true config c).

Definition set_active_config (config : RaftConfigPB)
    (c : ConsensusMetadata) : ConsensusMetadata :=
  if has_pending_config_ c then set_pending_config config c
  else set_committed_config config c.

Definition set_leader_uuid (uuid : string) (c : ConsensusMetadata)
    : ConsensusMetadata :=
  UpdateActiveRole (upd_leader_uuid uuid c).

(** *** Flush *)

Definition UpdateOnDiskSize (fs : FsManager) (c : ConsensusMetadata)
    : Status * ConsensusMetadata :=
  let path := GetConsensusMetadataPath fs (tablet_id_ c) in
  let '(s, on_disk_size) := GetFileSize fs path in
  if ok s then (OK, upd_on_disk_size on_disk_size c) else (s, c).

(** The part of [Flush] between the counter increment and
    [UpdateOnDiskSize]; it writes no field of the object. *)
Definition Flush_write (fs : FsManager) (flush_mode : FlushMode)
    (c : ConsensusMetadata) : Result unit :=
  (check_prepend (VerifyRaftConfig (pb_committed c))
     "Invalid config in ConsensusMetadata, cannot flush to disk" ;;;
   let dir := GetConsensusMetadataDir fs in
   let '(s, created_dir) := CreateDirIfMissing fs dir in
   check_prepend s "Unable to create consensus metadata root dir" ;;;
   (if created_dir then
      let parent_dir := DirName fs dir in
      check_prepend (SyncDir fs parent_dir)
        ("Unable to fsync consensus parent dir " ++ parent_dir)
    else ret tt) ;;;
   let meta_file_path := GetConsensusMetadataPath fs (tablet_id_ c) in
   check_prepend
     (WritePBContainerToPath fs meta_file_path (pb_ c) flush_mode)
     ("Unable to write consensus meta file for tablet " ++ tablet_id_ c
      ++ " to path " ++ meta_file_path))%kstatus%string.

(** [MAYBE_FAULT(FLAGS_fault_crash_before_cmeta_flush)] does nothing at
    the flag's default of 0.0 and is left out. *)
Definition Flush (fs : FsManager) (flush_mode : FlushMode)
    (c : ConsensusMetadata) : Status * ConsensusMetadata :=
  let c1 := upd_flush_count (flush_count_for_tests_ c + 1) c in
  match Flush_write fs flush_mode c1 with
  | inl e => (e, c1)
  | inr _ => UpdateOnDiskSize fs c1
  end.

(** *** Last known leader and merge *)

(** [cas_term && current_term != *cas_term] *)
Definition cas_term_mismatch (cas_term : option Z) (current_term : Z)
    : bool :=
  match cas_term with
  | Some t => negb (current_term =? t)
  | None => false
  end.

Definition sync_last_known_leader (fs : FsManager) (cas_term : option Z)
    (c : ConsensusMetadata) : Status * ConsensusMetadata :=
  if String.eqb (leader_uuid_ c) EmptyString then (OK, c)
  else
    let current_term := current_term c in
    if cas_term_mismatch cas_term current_term then (OK, c)
    else
      let c1 :=
        upd_pb (pb_set_last_known_leader
                  (mkLastKnownLeaderPB (leader_uuid_ c) current_term)) c in
      Flush fs Flush_default_mode c1.

Definition MergeCommittedConsensusStatePB (cstate : ConsensusStatePB)
    (c : ConsensusMetadata) : ConsensusMetadata :=
  let c1 :=
    if cstate_current_term cstate >? current_term c then
      clear_voted_for (set_current_term (cstate_current_term cstate) c)
    else c in
  clear_pending_config
    (set_committed_config (cstate_committed_config cstate)
       (set_leader_uuid EmptyString c1)).

(** *** Construction *)

Definition ConsensusMetadata_new (tablet_id peer_uuid : string)
    : ConsensusMetadata :=
  mkConsensusMetadata tablet_id peer_uuid false RaftConfigPB_default
    EmptyString initial_active_role 0 0
    (mkConsensusMetadataPB None None None []
       (mkLastKnownLeaderPB EmptyString 0) (-1)).


(** *** Call sequences *)

Variable VOTE_HISTORY_MAX_SIZE : nat.
Variable map_insert : MapInsert.

Inductive Op : Type :=
| OpSetCurrentTerm (term : Z)
| OpSetVotedFor (uuid : string)
| OpClearVotedFor
| OpSetCommittedConfig (config : RaftConfigPB)
| OpSetCommittedConfigRaw (config : RaftConfigPB)
| OpSetPendingConfig (config : RaftConfigPB)
| OpClearPendingConfig
| OpSetActiveConfig (config : RaftConfigPB)
| OpSetLeaderUuid (uuid : string)
| OpSyncLastKnownLeader (fs : FsManager) (cas_term : option Z)
| OpMergeCommittedConsensusStatePB (cstate : ConsensusStatePB)
| OpFlush (fs : FsManager) (flush_mode : FlushMode).

Definition step (c : ConsensusMetadata) (op : Op) : ConsensusMetadata :=
  match op with
  | OpSetCurrentTerm term => set_current_term term c
  | OpSetVotedFor uuid =>
      set_voted_for VOTE_HISTORY_MAX_SIZE map_insert uuid c
  | OpClearVotedFor => clear_voted_for c
  | OpSetCommittedConfig config => set_committed_config config c
  | OpSetCommittedConfigRaw config => set_committed_config_raw config c
  | OpSetPendingConfig config => set_pending_config config c
  | OpClearPendingConfig => clear_pending_config c
  | OpSetActiveConfig config => set_active_config config c
  | OpSetLeaderUuid uuid => set_leader_uuid uuid c
  | OpSyncLastKnownLeader fs cas_term =>
      snd (sync_last_known_leader fs cas_term c)
  | OpMergeCommittedConsensusStatePB cstate =>
      MergeCommittedConsensusStatePB cstate c
  | OpFlush fs flush_mode => snd (Flush fs flush_mode c)
  end.

Definition run (ops : list Op) (c : ConsensusMetadata)
    : ConsensusMetadata :=
  fold_left step ops c.

(** The two calls of the vote-history bound. *)
Definition is_term_or_vote_grant (op : Op) : bool :=
  match op with
  | OpSetCurrentTerm _ | OpSetVotedFor _ => true
  | _ => false
  end.

End WithCollaborators.

End CMeta.

(* ================================================================== *)
(** ** The per-peer message buffer ([BufferData]) *)

Module PeerBuffer.

Import KStatus.

(** [consensus::OpId]; a default-constructed one reads as [(0, 0)]. *)
Record OpId : Type := mkOpId { term : Z; index : Z }.

Definition OpId_default : OpId := mkOpId 0 0.

(** What the buffer reads of a [ReplicateMsg]: its id. *)
Record ReplicateMsg : Type := mkReplicateMsg { id : OpId }.

(** A [ReplicateRefPtr] is a reference that may be null. *)
Definition ReplicateRefPtr : Type := option ReplicateMsg.

Record ReadContext : Type := mkReadContext {
  for_peer_uuid : string;
  for_peer_host : string;
  for_peer_port : Z;
  route_via_proxy : bool
}.

(** [LogCache::ReadOpsStatus] *)
Record ReadOpsStatus : Type := mkReadOpsStatus {
  status : Status;
  stopped_early : bool;
  preceding_op : OpId
}.

(** The references held in [msg_buffer_refs] are never null: they come
    from [appendMessage], after its null check, or from the log cache. *)
Record BufferData : Type := mkBufferData {
  msg_buffer_refs : list ReplicateMsg;
  last_buffered : Z;
  preceding_opid : OpId;
  buffered_for_proxying : bool;
  bytes_buffered : Z
}.

Definition resetBuffer (for_proxy : bool) (last_index : Z) (b : BufferData)
    : BufferData :=
  mkBufferData [] last_index OpId_default for_proxy 0.

Definition appendMessage (new_message : ReplicateRefPtr) (b : BufferData)
    : Status * BufferData :=
  match new_message with
  | None => (InvalidArgument "Null new message", b)
  | Some m =>
      let message_index := index (id m) in
      if negb (message_index =? Int64.add (last_buffered b) 1) then
        (IllegalState "New message does not match buffer", b)
      else
        let preceding :=
          match msg_buffer_refs b with
          | [] => id m
          | _ :: _ => preceding_opid b
          end in
        (OK,
         mkBufferData (msg_buffer_refs b ++ [m]) message_index preceding
           (buffered_for_proxying b) (bytes_buffered b))
  end.

Definition empty (l : list ReplicateMsg) : bool :=
  match l with [] => true | _ :: _ => false end.

Section WithLogCache.

(** Flags. *)
Variable FLAGS_max_buffer_fill_size_bytes : Z.
Variable FLAGS_consensus_max_batch_size_bytes : Z.

(** The default arguments of [resetBuffer], declared in the header. *)
Variable resetBuffer_default_for_proxy : bool.
Variable resetBuffer_default_last_index : Z.

(** [LogCache::ReadOps(after_op_index, max_size_bytes, context,
    &messages)]: the answer and the vector as the call leaves it. *)
Variable LogCache : Type.
Variable ReadOps :
  LogCache -> Z -> Z -> ReadContext -> list ReplicateMsg ->
  ReadOpsStatus * list ReplicateMsg.

Definition fill_size (b : BufferData) : Z :=
  Z.min FLAGS_max_buffer_fill_size_bytes
    (Z.max (Int64.sub FLAGS_consensus_max_batch_size_bytes
              (bytes_buffered b)) 0).

Definition readFromCache (read_context : ReadContext)
    (log_cache : LogCache) (b : BufferData) : Status * BufferData :=
  let buffer_empty := empty (msg_buffer_refs b) in
  let '(s, refs) :=
    ReadOps log_cache (last_buffered b) (fill_size b) read_context
      (msg_buffer_refs b) in
  if ok (status s) then
    let '(last, for_proxying) :=
      match rev refs with
      | back :: _ => (index (id back), route_via_proxy read_context)
      | [] => (last_buffered b, buffered_for_proxying b)
      end in
    let preceding :=
      if buffer_empty then preceding_op s else preceding_opid b in
    let b' :=
      mkBufferData refs last preceding for_proxying (bytes_buffered b) in
    if stopped_early s then
      (Continue "Stopped before reading all ops from LogCache", b')
    else (status s, b')
  else if negb (IsIncomplete (status s)) then
    (status s,
     resetBuffer resetBuffer_default_for_proxy
       resetBuffer_default_last_index
       (mkBufferData refs (last_buffered b) (preceding_opid b)
          (buffered_for_proxying b) (bytes_buffered b)))
  else
    (status s,
     mkBufferData refs (last_buffered b) (preceding_opid b)
       (buffered_for_proxying b) (bytes_buffered b)).

End WithLogCache.

(** *** The contiguity property, as a decidable check *)

Definition indices (b : BufferData) : list Z :=
  map (fun m => index (id m)) (msg_buffer_refs b).

(** [[lo; lo+1; ...]] of length [n]. *)
Fixpoint range_from (lo : Z) (n : nat) : list Z :=
  match n with
  | O => []
  | S n' => lo :: range_from (lo + 1) n'
  end.

(** The integers [lo .. hi], empty when [hi < lo]. *)
Definition range (lo hi : Z) : list Z := range_from lo (Z.to_nat (hi - lo + 1)).

(** "If the buffer is non-empty its indices form
    [[preceding_opid.index + 1, last_buffered]]". *)
Definition contiguous_after_preceding (b : BufferData) : Prop :=
  msg_buffer_refs b <> [] ->
  indices b = range (index (preceding_opid b) + 1) (last_buffered b).

(** The indices are consecutive and end at [last_buffered], and
    [preceding_opid] carries the index just before the first of them. *)
Definition anchored (b : BufferData) : Prop :=
  indices b =
  range_from
    (last_buffered b - Z.of_nat (List.length (msg_buffer_refs b)) + 1)
    (List.length (msg_buffer_refs b)) /\
  (msg_buffer_refs b <> [] ->
   index (preceding_opid b) =
   last_buffered b - Z.of_nat (List.length (msg_buffer_refs b))).

(** Modelled from the spec: [LogCache::ReadOps] lives in [log_cache.cc],
    which is not among the sources.  The spec has cache reads begin at
    [last_buffered] so that contiguity is preserved across refills, and
    names the third component of the answer [preceding_op]: on OK the
    call appends the ops that follow [after_op_index], in index order
    without gaps, and reports the id of the op at [after_op_index]; on
    any other status it leaves the vector alone. *)
Definition ReadOps_contract (LogCache : Type)
    (ReadOps :
       LogCache -> Z -> Z -> ReadContext -> list ReplicateMsg ->
       ReadOpsStatus * list ReplicateMsg) : Prop :=
  forall cache after_op_index max_size_bytes context messages,
    let answer :=
      ReadOps cache after_op_index max_size_bytes context messages in
    if ok (status (fst answer)) then
      exists new_messages,
        snd answer = messages ++ new_messages /\
        map (fun m => index (id m)) new_messages =
          range_from (after_op_index + 1) (List.length new_messages) /\
        index (preceding_op (fst answer)) = after_op_index
    else snd answer = messages.

End PeerBuffer.

(* ================================================================== *)
(** ** Predicates on consensus metadata used in the statements below *)

Module CMetaInv.

Import CMeta.

(** The map holds no key twice. *)
Definition distinct_keys (h : VoteHistory) : Prop := NoDup (keys h).

(** What the library promises of an insertion: the map then holds the
    entries it held and the new one, in some order. *)
Definition map_insert_ok (map_insert : MapInsert) : Prop :=
  forall (k : Z) (v : PreviousVotePB) (h : VoteHistory),
    find k h = None -> Permutation (map_insert k v h) ((k, v) :: h).

(** Every key is above [t]. *)
Definition keys_above (t : Z) (h : VoteHistory) : Prop :=
  Forall (fun k => t < k) (keys h).

(** Invariant 3 of the data model. *)
Definition vote_history_bounded (max_size : nat) (c : ConsensusMetadata)
    : Prop :=
  (size (previous_vote_history c) <= max_size)%nat /\
  keys_above (lkl_election_term (last_known_leader c))
    (previous_vote_history c).



(** The history has no entry for the current term naming somebody other
    than [uuid]. *)
Definition no_other_vote_recorded (uuid : string) (c : ConsensusMetadata)
    : Prop :=
  match find (current_term c) (previous_vote_history c) with
  | None => True
  | Some pv => candidate_uuid pv = uuid
  end.

Section Sequences.

Variable GetConsensusRole : string -> string -> RaftConfigPB -> Role.
Variable VerifyRaftConfig : RaftConfigPB -> KStatus.Status.
Variable Flush_default_mode : FlushMode.
Variable VOTE_HISTORY_MAX_SIZE : nat.
Variable map_insert : MapInsert.

Let step :=
  step GetConsensusRole VerifyRaftConfig Flush_default_mode
    VOTE_HISTORY_MAX_SIZE map_insert.

(** No [set_current_term] of the sequence passes a term below the one
    current at the time of the call. *)
Fixpoint term_respecting (c : ConsensusMetadata) (ops : list Op) : Prop :=
  match ops with
  | [] => True
  | op :: rest =>
      match op with
      | OpSetCurrentTerm t => current_term c <= t
      | _ => True
      end /\ term_respecting (step c op) rest
  end.

(** The calling discipline of the term/vote interface: the term is only
    changed while no vote is held, and to a term above the leader term on
    record; a vote is only granted in a term that is set and for which the
    history records no other candidate; and the call that grants it does
    not leave [last_pruned_term] at the term voted in, that is, its
    pruning does not evict the entry of the vote it grants. *)
Definition vote_call_ok (c : ConsensusMetadata) (op : Op) : Prop :=
  match op with
  | OpSetCurrentTerm t =>
      has_voted_for c = false /\
      lkl_election_term (last_known_leader c) < t
  | OpSetVotedFor uuid =>
      has_current_term c = true /\ no_other_vote_recorded uuid c /\
      last_pruned_term (step c op) <> current_term c
  | OpClearVotedFor => True
  | _ => False
  end.

Fixpoint vote_discipline (c : ConsensusMetadata) (ops : list Op) : Prop :=
  match ops with
  | [] => True
  | op :: rest => vote_call_ok c op /\ vote_discipline (step c op) rest
  end.

End Sequences.

End CMetaInv.

(* ================================================================== *)
(** ** Concrete collaborators and objects for the examples *)

Module CMetaExamples.

Import CMeta.

Definition role_of : string -> string -> RaftConfigPB -> Role :=
  fun _ _ _ => FOLLOWER.

Definition verify_ok : RaftConfigPB -> KStatus.Status := fun _ => KStatus.OK.

(** A file system on which everything succeeds. *)
Definition fs_ok : FsManager :=
  mkFsManager "consensus-meta" (fun t => "consensus-meta/" ++ t)%string
    (fun _ => "root"%string) (fun _ => (KStatus.OK, false))
    (fun _ => KStatus.OK) (fun _ _ _ => KStatus.OK)
    (fun _ => (KStatus.OK, 64)) (fun _ => false).

Definition fresh : ConsensusMetadata :=
  ConsensusMetadata_new FOLLOWER "tablet" "peer".

(** Orders of iteration for the examples.  [insert_before stop] puts the
    new entry in front of the first entry [e] with [stop k (fst e)], and
    last if there is none. *)
Fixpoint insert_before (stop : Z -> Z -> bool) (k : Z) (v : PreviousVotePB)
    (h : VoteHistory) : VoteHistory :=
  match h with
  | [] => [(k, v)]
  | (k', v') :: r =>
      if stop k k' then (k, v) :: h
      else (k', v') :: insert_before stop k v r
  end.

(** A hash table of eight buckets: an entry is in the bucket that the low
    three bits of (key xor seed) give, the iteration goes through the
    buckets in turn, and inside a bucket the newest entry comes first. *)
Definition bucket (seed k : Z) : Z := Z.land (Z.lxor k seed) 7.

Definition hashed_insert (seed : Z) : MapInsert :=
  insert_before (fun k k' => bucket seed k <=? bucket seed k').

(** An order the library does not promise: ascending in the key, as the
    iteration of a [std::map] would be. *)
Definition ascending_insert : MapInsert :=
  insert_before (fun k k' => k <=? k').

Definition run_on (map_insert : MapInsert) (max_size : nat)
    (ops : list Op) : ConsensusMetadata :=
  run role_of verify_ok OVERWRITE max_size map_insert ops fresh.

Definition run_with (max_size : nat) (ops : list Op) : ConsensusMetadata :=
  run_on (hashed_insert 0) max_size ops.

End CMetaExamples.

Module PeerBufferExamples.

Import KStatus PeerBuffer.

(** A log cache that gives a canned answer and appends canned messages. *)
Definition CannedCache : Type := (ReadOpsStatus * list ReplicateMsg)%type.

Definition canned_ReadOps (cache : CannedCache) (after_op_index : Z)
    (max_size_bytes : Z) (context : ReadContext)
    (messages : list ReplicateMsg) : ReadOpsStatus * list ReplicateMsg :=
  (fst cache, messages ++ snd cache).

Definition msg_at (t i : Z) : ReplicateMsg := mkReplicateMsg (mkOpId t i).

Definition ctx : ReadContext := mkReadContext "peer" "host" 7051 false.

(** An empty buffer anchored at index 10. *)
Definition anchored_at_10 : BufferData :=
  mkBufferData [] 10 OpId_default false 0.

(** The gflags defaults. *)
Definition default_max_buffer_fill_size_bytes : Z := 2 * 1024 * 1024.
Definition default_consensus_max_batch_size_bytes : Z := 1024 * 1024.

(** The buffer holding message 11 after op 10. *)
Definition holding_11 : BufferData :=
  mkBufferData [msg_at 1 11] 11 (mkOpId 1 10) false 0.

Definition cache_io_error : CannedCache :=
  (mkReadOpsStatus (IOError "disk") false OpId_default, []).

Definition cache_incomplete : CannedCache :=
  (mkReadOpsStatus (Incomplete "op pending append") false OpId_default, []).

Definition cache_stopped_early : CannedCache :=
  (mkReadOpsStatus OK true (mkOpId 1 11), [msg_at 1 12]).

(** A log cache, given by a term, that always has exactly the next op. *)
Definition next_op_ReadOps (cache_term : Z) (after_op_index : Z)
    (max_size_bytes : Z) (context : ReadContext)
    (messages : list ReplicateMsg) : ReadOpsStatus * list ReplicateMsg :=
  (mkReadOpsStatus OK false (mkOpId cache_term after_op_index),
   messages ++ [msg_at cache_term (after_op_index + 1)]).

Definition read_canned (cache : CannedCache) (b : BufferData)
    : Status * BufferData :=
  readFromCache default_max_buffer_fill_size_bytes
    default_consensus_max_batch_size_bytes false (-1) CannedCache
    canned_ReadOps ctx cache b.

End PeerBufferExamples.

(* ================================================================== *)
(** ** Consensus metadata: lookups, loading and the removed-peers list *)

Module CMetaMore.

Import KStatus CMeta.

(** *** Lookups in the active configuration *)

(** The loop of [leader_hostport]: the first peer that carries [uuid] and
    has a last known address. *)
Fixpoint first_addr_of (uuid : string) (ps : list RaftPeerPB)
    : option HostPortPB :=
  match ps with
  | [] => None
  | peer :: rest =>
      if String.eqb (permanent_uuid peer) uuid then
        match last_known_addr peer with
        | Some host_port => Some host_port
        | None => first_addr_of uuid rest
        end
      else first_addr_of uuid rest
  end.

(** [return {}] is the pair of the empty string and 0. *)
Definition leader_hostport (c : ConsensusMetadata) : string * Z :=
  match first_addr_of (leader_uuid_ c) (peers (ActiveConfig c)) with
  | Some host_port => (host host_port, port host_port)
  | None => (EmptyString, 0)
  end.

(** The loop of [GetConfigMemberCopy]. *)
Fixpoint first_peer_with (uuid : string) (ps : list RaftPeerPB)
    : option RaftPeerPB :=
  match ps with
  | [] => None
  | peer :: rest =>
      if String.eqb (permanent_uuid peer) uuid then Some peer
      else first_peer_with uuid rest
  end.

(** [GetConfigMemberCopy]: the status, and [*member] when it is written. *)
Definition GetConfigMemberCopy (uuid : string) (c : ConsensusMetadata)
    : Status * option RaftPeerPB :=
  match first_peer_with uuid (peers (ActiveConfig c)) with
  | Some peer => (OK, Some peer)
  | None =>
      (NotFound ("Peer with uuid " ++ uuid
                 ++ " not found in consensus config")%string, None)
  end.

(** [None] is the failed [CHECK] of [GetConfig]. *)
Definition GetConfigOpIdIndex (type : RaftConfigState)
    (c : ConsensusMetadata) : option (option Z) :=
  option_map opid_index (GetConfig type c).

(** *** Load *)

Section WithCollaborators.

Variable GetConsensusRole : string -> string -> RaftConfigPB -> Role.
Variable initial_active_role : Role.

(** What [pb_util::ReadPBContainerFromPath] answers for a path: the status
    and the message it parsed. *)
Variable ReadPBContainerFromPath : string -> Status * ConsensusMetadataPB.


(** [active_role_] is what [GetConsensusRole] gives for the object. *)
Definition role_current (c : ConsensusMetadata) : Prop :=
  active_role c =
  GetConsensusRole (peer_uuid_ c) (leader_uuid_ c) (ActiveConfig c).

End WithCollaborators.

(** *** The removed-peers list

    [removed_peers_] is a [std::deque<std::string>] member of the object;
    it is carried here beside the record, front of the deque first. *)

Section RemovedPeers.

(** [IsRaftConfigMember] lives in [quorum_util.cc]; [max_removed_peers]
    is declared in [consensus_meta.h]. *)
Variable IsRaftConfigMember : string -> RaftConfigPB -> bool.
Variable max_removed_peers : nat.

(** [None] is the failed [CHECK] of [GetConfig]. *)
Definition IsMemberInConfig (uuid : string) (type : RaftConfigState)
    (c : ConsensusMetadata) : option bool :=
  option_map (IsRaftConfigMember uuid) (GetConfig type c).

(** [pop_front]; on an empty deque the call is undefined. *)
Definition pop_front (q : list string) : option (list string) :=
  match q with
  | [] => None
  | _ :: rest => Some rest
  end.

(** [InsertIntoRemovedPeersList]; [None] when it runs into the undefined
    [pop_front]. *)
Fixpoint InsertIntoRemovedPeersList (c : ConsensusMetadata)
    (removed_peers : list string) (removed_peers_ : list string)
    : option (list string) :=
  match removed_peers with
  | [] => Some removed_peers_
  | peer_uuid :: rest =>
      if negb (IsRaftConfigMember peer_uuid (ActiveConfig c)) then
        if (List.length removed_peers_ =? max_removed_peers)%nat then
          match pop_front removed_peers_ with
          | Some q => InsertIntoRemovedPeersList c rest (q ++ [peer_uuid])
          | None => None
          end
        else InsertIntoRemovedPeersList c rest (removed_peers_ ++ [peer_uuid])
      else InsertIntoRemovedPeersList c rest removed_peers_
  end.

Definition IsPeerRemoved (peer_uuid : string) (c : ConsensusMetadata)
    (removed_peers_ : list string) : bool :=
  if IsRaftConfigMember peer_uuid (ActiveConfig c) then false
  else existsb (String.eqb peer_uuid) removed_peers_.

Definition ClearRemovedPeersList (removed_peers_ : list string)
    : list string := [].

Definition RemovedPeersList (removed_peers_ : list string) : list string :=
  removed_peers_.

End RemovedPeers.

(** The last [n] elements of a list. *)
Definition lastn {A : Type} (n : nat) (l : list A) : list A :=
  skipn (List.length l - n) l.

(** *** Predicates for the statements below *)

(** The leader term on record is not beyond the current term. *)
Definition leader_term_bounded (c : ConsensusMetadata) : Prop :=
  lkl_election_term (last_known_leader c) <= current_term c.

Definition is_set_committed_config_raw (op : Op) : bool :=
  match op with
  | OpSetCommittedConfigRaw _ => true
  | _ => false
  end.

Definition is_set_voted_for (op : Op) : bool :=
  match op with
  | OpSetVotedFor _ => true
  | _ => false
  end.

Definition is_sync_last_known_leader (op : Op) : bool :=
  match op with
  | OpSyncLastKnownLeader _ _ => true
  | _ => false
  end.

(** The fields of the object outside the protobuf and the two counters
    are the same in [c] and [c']. *)
Definition same_volatile (c c' : ConsensusMetadata) : Prop :=
  tablet_id_ c' = tablet_id_ c /\
  peer_uuid_ c' = peer_uuid_ c /\
  has_pending_config_ c' = has_pending_config_ c /\
  pending_config_ c' = pending_config_ c /\
  leader_uuid_ c' = leader_uuid_ c /\
  active_role_ c' = active_role_ c.

(** Every step of [Flush] that is reached succeeds. *)
Definition flush_steps_ok (VerifyRaftConfig : RaftConfigPB -> Status)
    (fs : FsManager) (flush_mode : FlushMode) (c : ConsensusMetadata)
    : bool :=
  let dir := GetConsensusMetadataDir fs in
  let path := GetConsensusMetadataPath fs (tablet_id_ c) in
  ok (VerifyRaftConfig (pb_committed c)) &&
  ok (fst (CreateDirIfMissing fs dir)) &&
  (if snd (CreateDirIfMissing fs dir) then ok (SyncDir fs (DirName fs dir))
   else true) &&
  ok (WritePBContainerToPath fs path (pb_ c) flush_mode) &&
  ok (fst (GetFileSize fs path)).

End CMetaMore.

(* ================================================================== *)
(** ** The buffer: handing data off *)

Module PeerBufferMore.

Import KStatus PeerBuffer.

Section WithDefaults.

(** The default member initialiser of [bytes_buffered], declared in the
    header: [moveDataAndReset] does not copy that field into what it
    returns. *)
Variable BufferData_default_bytes_buffered : Z.

(** [moveDataAndReset]: the data returned, and the buffer as it is left. *)
Definition moveDataAndReset (b : BufferData) : BufferData * BufferData :=
  let return_data :=
    mkBufferData (msg_buffer_refs b) (last_buffered b) (preceding_opid b)
      (buffered_for_proxying b) BufferData_default_bytes_buffered in
  (return_data, resetBuffer (buffered_for_proxying b) (last_buffered b) b).

End WithDefaults.

(** [HandedOffBufferData]: a status and the data moved out of the buffer. *)
Definition HandedOffBufferData : Type := (Status * BufferData)%type.

(** [getData]: the two out-parameters. *)
Definition getData (h : HandedOffBufferData) : list ReplicateMsg * OpId :=
  (msg_buffer_refs (snd h), preceding_opid (snd h)).

(** *** Call sequences on a buffer *)

Section WithLogCache.

Variable FLAGS_max_buffer_fill_size_bytes : Z.
Variable FLAGS_consensus_max_batch_size_bytes : Z.
Variable resetBuffer_default_for_proxy : bool.
Variable resetBuffer_default_last_index : Z.
Variable BufferData_default_bytes_buffered : Z.
Variable LogCache : Type.
Variable ReadOps :
  LogCache -> Z -> Z -> ReadContext -> list ReplicateMsg ->
  ReadOpsStatus * list ReplicateMsg.

Inductive Op : Type :=
| OpAppendMessage (new_message : ReplicateRefPtr)
| OpReadFromCache (read_context : ReadContext) (log_cache : LogCache)
| OpResetBuffer (for_proxy : bool) (last_index : Z)
| OpMoveDataAndReset.

Definition step (b : BufferData) (op : Op) : BufferData :=
  match op with
  | OpAppendMessage m => snd (appendMessage m b)
  | OpReadFromCache read_context log_cache =>
      snd (readFromCache FLAGS_max_buffer_fill_size_bytes
             FLAGS_consensus_max_batch_size_bytes
             resetBuffer_default_for_proxy resetBuffer_default_last_index
             LogCache ReadOps read_context log_cache b)
  | OpResetBuffer for_proxy last_index => resetBuffer for_proxy last_index b
  | OpMoveDataAndReset =>
      snd (moveDataAndReset BufferData_default_bytes_buffered b)
  end.

Definition run (ops : list Op) (b : BufferData) : BufferData :=
  fold_left step ops b.

Definition is_append (op : Op) : bool :=
  match op with
  | OpAppendMessage _ => true
  | _ => false
  end.

End WithLogCache.

(** *** [PeerMessageBuffer], one call at a time

    [handoff_initial_index_] is only touched through [exchange], so each
    call below is one atomic step.  A promise is the value it was given,
    if any; [set_value] on a promise that has one throws. *)

Record PeerMessageBuffer : Type := mkPeerMessageBuffer {
  data_ : BufferData;
  handoff_promise_ : option HandedOffBufferData;
  handoff_initial_index_ : Z;
  proxy_ops_needed_ : bool
}.

Definition getIndexForHandoff (m : PeerMessageBuffer)
    : option Z * PeerMessageBuffer :=
  let initial_index := handoff_initial_index_ m in
  let m' :=
    mkPeerMessageBuffer (data_ m) (handoff_promise_ m) (-1)
      (proxy_ops_needed_ m) in
  if initial_index =? -1 then (None, m') else (Some initial_index, m').

Definition getProxyOpsNeeded (m : PeerMessageBuffer) : bool :=
  proxy_ops_needed_ m.

(** The [DCHECK_EQ] of [requestHandoff]. *)
Definition requestHandoff_pre (m : PeerMessageBuffer) : Prop :=
  handoff_initial_index_ m = -1.

(** [requestHandoff]; the future returned is the new promise's. *)
Definition requestHandoff (index : Z) (proxy_ops_needed : bool)
    (m : PeerMessageBuffer) : PeerMessageBuffer :=
  mkPeerMessageBuffer (data_ m) None index proxy_ops_needed.

Section WithDefaults.

Variable BufferData_default_bytes_buffered : Z.

(** [fulfillPromiseWithBuffer]; [None] when [set_value] throws. *)
Definition fulfillPromiseWithBuffer (s : Status) (m : PeerMessageBuffer)
    : option PeerMessageBuffer :=
  let '(return_data, data') :=
    moveDataAndReset BufferData_default_bytes_buffered (data_ m) in
  match handoff_promise_ m with
  | Some _ => None
  | None =>
      Some (mkPeerMessageBuffer data' (Some (s, return_data))
              (handoff_initial_index_ m) (proxy_ops_needed_ m))
  end.

End WithDefaults.

End PeerBufferMore.

(* ================================================================== *)
(** ** More concrete objects for the examples *)

Module MoreExamples.

Import KStatus CMeta CMetaMore PeerBuffer PeerBufferMore.

(** A role function that tells the leader from the others. *)
Definition role_by_leader (self leader : string) (cfg : RaftConfigPB)
    : Role :=
  if String.eqb self leader then LEADER else FOLLOWER.

(** A configuration checker that rejects everything. *)
Definition verify_bad : RaftConfigPB -> Status :=
  fun _ => InvalidArgument "no voters".

(** Membership by uuid. *)
Definition member_by_uuid (uuid : string) (cfg : RaftConfigPB) : bool :=
  existsb (fun p => String.eqb (permanent_uuid p) uuid) (peers cfg).

(** Three peers: the first two carry the uuid b, the first of them without
    an address. *)
Definition three_peers : RaftConfigPB :=
  mkRaftConfigPB (Some 1)
    [mkRaftPeerPB "a" (Some (mkHostPortPB "host-a" 7050));
     mkRaftPeerPB "b" None;
     mkRaftPeerPB "b" (Some (mkHostPortPB "host-b" 7051))]
    [].

(** A fresh object with [three_peers] committed and b as leader. *)
Definition led_by_b : ConsensusMetadata :=
  set_leader_uuid role_by_leader "b"
    (set_committed_config role_by_leader three_peers CMetaExamples.fresh).

(** An object in term 9 whose history holds four votes, as a load can
    give it. *)
Definition four_votes : ConsensusMetadata :=
  upd_pb
    (pb_set_previous_vote_history
       [(1, mkPreviousVotePB "a" 1); (2, mkPreviousVotePB "a" 2);
        (3, mkPreviousVotePB "b" 3); (4, mkPreviousVotePB "b" 4)])
    (set_current_term 9 CMetaExamples.fresh).


(** Buffer calls with the example flags, over the one-op-at-a-time
    cache. *)
Definition run_buffer (ops : list (Op Z)) (b : BufferData) : BufferData :=
  run PeerBufferExamples.default_max_buffer_fill_size_bytes
    PeerBufferExamples.default_consensus_max_batch_size_bytes false (-1) 0 Z
    PeerBufferExamples.next_op_ReadOps ops b.

End MoreExamples.

(* ================================================================== *)
(** ** Facts about 64-bit arithmetic and statuses *)

Module Int64Facts.

Lemma wrap_in_range (x : Z) : Int64.in_range x -> Int64.wrap x = x.
Proof.
  unfold Int64.in_range, Int64.wrap, Int64.min_signed, Int64.max_signed,
    Int64.modulus.
  intros H. rewrite Z.mod_small; lia.
Qed.

Lemma add_no_overflow (x y : Z) :
  Int64.in_range (x + y) -> Int64.add x y = x + y.
Proof. apply wrap_in_range. Qed.

Lemma sub_no_overflow (x y : Z) :
  Int64.in_range (x - y) -> Int64.sub x y = x - y.
Proof. apply wrap_in_range. Qed.

Lemma succ_no_overflow (x : Z) :
  Int64.min_signed <= x < Int64.max_signed -> Int64.add x 1 = x + 1.
Proof.
  intros H. apply add_no_overflow. unfold Int64.in_range in *.
  unfold Int64.min_signed, Int64.max_signed in *. lia.
Qed.

End Int64Facts.

Module KStatusFacts.

Import KStatus.

Lemma Code_eqb_eq (a b : Code) : Code_eqb a b = true <-> a = b.
Proof. destruct a, b; simpl; split; congruence. Qed.

Lemma Code_eqb_neq (a b : Code) : Code_eqb a b = false <-> a <> b.
Proof. destruct a, b; simpl; split; congruence. Qed.

Lemma ok_OK : ok OK = true.
Proof. reflexivity. Qed.

End KStatusFacts.

(* ================================================================== *)
(** ** Facts about the vote-history map *)

Module VoteHistoryFacts.

Import CMeta CMetaInv.

(** *** [find] *)

Lemma in_keys (k : Z) (v : PreviousVotePB) (h : VoteHistory) :
  In (k, v) h -> In k (keys h).
Proof. intros H. apply (in_map fst) in H. exact H. Qed.

Lemma find_some_in (k : Z) (v : PreviousVotePB) (h : VoteHistory) :
  find k h = Some v -> In (k, v) h.
Proof.
  induction h as [| [k0 v0] r IH]; simpl; [discriminate |].
  destruct (k0 =? k) eqn:E.
  - apply Z.eqb_eq in E. intros H. inversion H; subst. now left.
  - intros H. right. auto.
Qed.

Lemma find_none_iff (k : Z) (h : VoteHistory) :
  find k h = None <-> ~ In k (keys h).
Proof.
  induction h as [| [k0 v0] r IH]; simpl.
  - intuition.
  - destruct (k0 =? k) eqn:E.
    + apply Z.eqb_eq in E. split; [discriminate |].
      intros H. exfalso. apply H. now left.
    + apply Z.eqb_neq in E. rewrite IH. intuition.
Qed.

Lemma find_in_keys (k : Z) (h : VoteHistory) :
  In k (keys h) -> exists v, find k h = Some v.
Proof.
  intros Hin. destruct (find k h) as [v |] eqn:E; [eauto |].
  apply find_none_iff in E. contradiction.
Qed.

(** The one entry of a key is the one [find] returns, wherever the
    iteration has it. *)
Lemma find_permutation_new (k : Z) (v : PreviousVotePB)
    (h l : VoteHistory) :
  find k h = None -> Permutation l ((k, v) :: h) -> find k l = Some v.
Proof.
  intros Hnone Hperm.
  assert (Hin : In k (keys l)).
  { apply (in_keys k v). apply (Permutation_in _ (Permutation_sym Hperm)).
    now left. }
  destruct (find_in_keys k l Hin) as [v' Hv'].
  rewrite Hv'. f_equal.
  apply find_some_in in Hv'. apply (Permutation_in _ Hperm) in Hv'.
  destruct Hv' as [Heq | Hh].
  - inversion Heq. reflexivity.
  - apply in_keys in Hh. apply find_none_iff in Hnone. contradiction.
Qed.

Lemma find_permutation_other (k k' : Z) (v : PreviousVotePB)
    (h l : VoteHistory) :
  k' <> k -> find k h = None -> distinct_keys h ->
  Permutation l ((k, v) :: h) -> find k' l = find k' h.
Proof.
  intros Hne Hnone Hd Hperm.
  assert (Hdl : NoDup (keys l)).
  { apply (Permutation_NoDup (l := keys ((k, v) :: h))).
    - apply Permutation_sym. apply Permutation_map. exact Hperm.
    - simpl. constructor; [apply find_none_iff; exact Hnone | exact Hd]. }
  destruct (find k' h) as [w |] eqn:Eh.
  - apply find_some_in in Eh.
    assert (Hl : In (k', w) l).
    { apply (Permutation_in _ (Permutation_sym Hperm)). now right. }
    destruct (find_in_keys k' l (in_keys _ _ _ Hl)) as [w' Hw'].
    rewrite Hw'. f_equal. apply find_some_in in Hw'.
    clear - Hdl Hl Hw'. induction l as [| [k0 v0] r IH]; [contradiction |].
    simpl in Hdl. inversion Hdl; subst.
    destruct Hl as [Hl | Hl]; destruct Hw' as [Hw | Hw].
    + congruence.
    + inversion Hl; subst. apply in_keys in Hw. contradiction.
    + inversion Hw; subst. apply in_keys in Hl. contradiction.
    + auto.
  - apply find_none_iff. intros Hin. apply find_none_iff in Eh. apply Eh.
    destruct (find_in_keys k' l Hin) as [w Hw]. apply find_some_in in Hw.
    apply (Permutation_in _ Hperm) in Hw. destruct Hw as [Heq | Hh].
    + inversion Heq. congruence.
    + apply in_keys in Hh. exact Hh.
Qed.

(** *** [InsertIfNotPresent] *)

Section WithInsert.

Variable map_insert : MapInsert.
Hypothesis insert_ok : map_insert_ok map_insert.

Let Insert := InsertIfNotPresent map_insert.

Lemma InsertIfNotPresent_cases (k : Z) (v : PreviousVotePB)
    (h : VoteHistory) :
  (In k (keys h) /\ Insert k v h = h) \/
  (find k h = None /\ Permutation (Insert k v h) ((k, v) :: h)).
Proof.
  unfold Insert, InsertIfNotPresent. destruct (find k h) as [w |] eqn:E.
  - left. split; [| reflexivity].
    apply (in_keys k w). apply find_some_in. exact E.
  - right. split; [reflexivity |]. apply insert_ok. exact E.
Qed.

Lemma InsertIfNotPresent_keys (k : Z) (v : PreviousVotePB) (h : VoteHistory)
    (k' : Z) :
  In k' (keys (Insert k v h)) <-> k' = k \/ In k' (keys h).
Proof.
  destruct (InsertIfNotPresent_cases k v h) as [[Hin ->] | [_ Hperm]].
  - split; [auto |]. intros [-> | H]; assumption.
  - assert (Hk : Permutation (keys (Insert k v h)) (k :: keys h))
      by (apply (Permutation_map fst) in Hperm; exact Hperm).
    split; intros H.
    + apply (Permutation_in _ Hk) in H. destruct H as [<- | H]; auto.
    + apply (Permutation_in _ (Permutation_sym Hk)).
      destruct H as [-> | H]; [now left | now right].
Qed.

Lemma InsertIfNotPresent_size (k : Z) (v : PreviousVotePB)
    (h : VoteHistory) :
  (size h <= size (Insert k v h) <= S (size h))%nat.
Proof.
  destruct (InsertIfNotPresent_cases k v h) as [[_ ->] | [_ Hperm]].
  - lia.
  - apply Permutation_length in Hperm. unfold size. simpl in Hperm. lia.
Qed.

Lemma InsertIfNotPresent_distinct (k : Z) (v : PreviousVotePB)
    (h : VoteHistory) :
  distinct_keys h -> distinct_keys (Insert k v h).
Proof.
  intros Hd.
  destruct (InsertIfNotPresent_cases k v h) as [[_ ->] | [Hnone Hperm]].
  - exact Hd.
  - unfold distinct_keys.
    apply (Permutation_NoDup (l := keys ((k, v) :: h))).
    + apply Permutation_sym. apply Permutation_map. exact Hperm.
    + simpl. constructor; [apply find_none_iff; exact Hnone | exact Hd].
Qed.

Lemma find_InsertIfNotPresent_same (k : Z) (v : PreviousVotePB)
    (h : VoteHistory) :
  find k (Insert k v h) =
  match find k h with Some v' => Some v' | None => Some v end.
Proof.
  unfold Insert, InsertIfNotPresent. destruct (find k h) as [w |] eqn:E.
  - exact E.
  - apply (find_permutation_new k v h); [exact E |].
    apply insert_ok. exact E.
Qed.

Lemma find_InsertIfNotPresent_other (k k' : Z) (v : PreviousVotePB)
    (h : VoteHistory) :
  distinct_keys h -> k' <> k -> find k' (Insert k v h) = find k' h.
Proof.
  intros Hd Hne.
  destruct (InsertIfNotPresent_cases k v h) as [[_ ->] | [Hnone Hperm]].
  - reflexivity.
  - apply (find_permutation_other k k' v); assumption.
Qed.


End WithInsert.

(** *** [erase] *)



Lemma erase_key_size (k : Z) (h : VoteHistory) :
  (size (erase_key k h) <= size h)%nat.
Proof.
  unfold size, erase_key. induction h as [| [k0 v0] r IH]; simpl; [lia |].
  destruct (k0 =? k); simpl; lia.
Qed.

Lemma erase_key_head_size (k : Z) (v : PreviousVotePB) (h : VoteHistory) :
  (size (erase_key k ((k, v) :: h)) <= size h)%nat.
Proof.
  unfold erase_key. simpl. rewrite Z.eqb_refl. simpl. apply erase_key_size.
Qed.

Lemma erase_key_keys (k k' : Z) (h : VoteHistory) :
  In k' (keys (erase_key k h)) <-> k' <> k /\ In k' (keys h).
Proof.
  unfold erase_key. induction h as [| [k0 v0] r IH]; simpl.
  - intuition.
  - destruct (k0 =? k) eqn:E; simpl.
    + apply Z.eqb_eq in E. subst. rewrite IH. intuition congruence.
    + apply Z.eqb_neq in E. rewrite IH. intuition congruence.
Qed.

Lemma erase_key_distinct (k : Z) (h : VoteHistory) :
  distinct_keys h -> distinct_keys (erase_key k h).
Proof.
  unfold distinct_keys. induction h as [| [k0 v0] r IH]; simpl; intros Hd.
  - constructor.
  - inversion Hd; subst. unfold erase_key. simpl.
    destruct (k0 =? k); simpl; [apply IH; assumption |].
    constructor; [| apply IH; assumption].
    intros Hin. apply erase_key_keys in Hin. destruct Hin as [_ Hin].
    contradiction.
Qed.

Lemma erase_prefix_distinct (n : nat) (h : VoteHistory) :
  distinct_keys h -> distinct_keys (erase_prefix n h).
Proof.
  unfold distinct_keys, erase_prefix. revert h.
  induction n as [| n IH]; intros h Hd; [exact Hd |].
  destruct h as [| [k v] r]; simpl; [exact Hd |].
  apply IH. simpl in Hd. inversion Hd; assumption.
Qed.

Lemma erase_prefix_size (n : nat) (h : VoteHistory) :
  (size (erase_prefix n h) <= size h)%nat.
Proof. unfold size, erase_prefix. rewrite length_skipn. lia. Qed.

Lemma erase_prefix_keys (n : nat) (h : VoteHistory) (k : Z) :
  In k (keys (erase_prefix n h)) -> In k (keys h).
Proof.
  unfold erase_prefix, keys. intros Hx.
  apply in_map_iff in Hx. destruct Hx as [e [<- He]].
  apply in_map. rewrite <- (firstn_skipn n h). apply in_or_app. now right.
Qed.

Lemma find_erase_key_same (k : Z) (h : VoteHistory) :
  find k (erase_key k h) = None.
Proof.
  unfold erase_key. induction h as [| [k0 v0] r IH]; simpl; [reflexivity |].
  destruct (k0 =? k) eqn:Heq; simpl; [assumption |].
  rewrite Heq. assumption.
Qed.


(** *** The walk of step 1 *)

(** The entries walked over are at or below the leader term, whatever the
    order of iteration; entries at or below it that come after the first
    entry above it are not reached. *)
Lemma walk_erases_upto (lkl lp : Z) (h : VoteHistory) :
  Forall (fun k => k <= lkl)
    (keys (firstn (fst (walk_to_leader_term lkl lp h)) h)).
Proof.
  revert lp. induction h as [| [k v] r IH]; intros lp; simpl.
  - constructor.
  - destruct (k <=? lkl) eqn:Hle; [| constructor].
    apply Z.leb_le in Hle. specialize (IH k).
    destruct (walk_to_leader_term lkl k r) as [n lp']. simpl in *.
    constructor; assumption.
Qed.

Lemma walk_find (lkl lp k : Z) (h : VoteHistory) :
  lkl < k ->
  find k (erase_prefix (fst (walk_to_leader_term lkl lp h)) h) = find k h.
Proof.
  unfold erase_prefix. intros Hlt. revert lp.
  induction h as [| [k0 v0] r IH]; intros lp; simpl.
  - reflexivity.
  - destruct (k0 <=? lkl) eqn:Hle.
    + apply Z.leb_le in Hle. specialize (IH k0).
      destruct (walk_to_leader_term lkl k0 r) as [n lp']. simpl in *.
      replace (k0 =? k) with false by (symmetry; apply Z.eqb_neq; lia).
      exact IH.
    + reflexivity.
Qed.

Lemma walk_keeps_above (lkl lp k : Z) (h : VoteHistory) :
  lkl < k -> In k (keys h) ->
  In k (keys (erase_prefix (fst (walk_to_leader_term lkl lp h)) h)).
Proof.
  intros Hlt Hin. destruct (find_in_keys k h Hin) as [v Hv].
  rewrite <- (walk_find lkl lp k h Hlt) in Hv.
  apply (in_keys k v). apply find_some_in. exact Hv.
Qed.


Lemma last_cons_default (x : Z) (l : list Z) (d d' : Z) :
  last (x :: l) d = last (x :: l) d'.
Proof.
  revert x. induction l as [| y l IH]; intros x; [reflexivity |].
  change (last (y :: l) d = last (y :: l) d'). apply IH.
Qed.

(** The walk stops at the first key above the leader term, and the local
    [last_pruned_term] ends as the last key walked over. *)
Lemma walk_last_pruned (lkl lp : Z) (h : VoteHistory) :
  snd (walk_to_leader_term lkl lp h) =
  last (firstn (fst (walk_to_leader_term lkl lp h)) (keys h)) lp.
Proof.
  revert lp. induction h as [| [k v] r IH]; intros lp; simpl.
  - reflexivity.
  - destruct (k <=? lkl) eqn:Hle; [| reflexivity].
    specialize (IH k).
    destruct (walk_to_leader_term lkl k r) as [n lp'] eqn:E. simpl in *.
    rewrite IH. destruct (firstn n (keys r)) as [| z l]; [reflexivity |].
    change (last (z :: l) k = last (z :: l) lp). apply last_cons_default.
Qed.

(** The local [last_pruned_term] after the walk is the value it had, or
    the key of an entry that was walked over and is no longer in the
    map. *)
Lemma walk_last_pruned_cases (lkl lp : Z) (h : VoteHistory) :
  distinct_keys h ->
  let n := fst (walk_to_leader_term lkl lp h) in
  let lp' := snd (walk_to_leader_term lkl lp h) in
  (n = O /\ lp' = lp) \/
  (In lp' (keys h) /\ lp' <= lkl /\ ~ In lp' (keys (erase_prefix n h))).
Proof.
  unfold erase_prefix. revert lp.
  induction h as [| [k v] r IH]; intros lp Hd; simpl.
  - left. auto.
  - destruct (k <=? lkl) eqn:Hle; [| left; auto].
    apply Z.leb_le in Hle. right.
    unfold distinct_keys in Hd. simpl in Hd. inversion Hd; subst.
    specialize (IH k H2).
    destruct (walk_to_leader_term lkl k r) as [n lp']. simpl in *.
    destruct IH as [[-> ->] | [Hin [Hle' Hout]]].
    + repeat split; [now left | exact Hle | exact H1].
    + repeat split; [now right | exact Hle' | exact Hout].
Qed.

End VoteHistoryFacts.

(* ================================================================== *)
(** ** Pruning of the vote history *)

Module PruneFacts.

Import CMeta CMetaInv VoteHistoryFacts.

(** Step 1 leaves the history without its leading entries up to the
    leader term, and touches nothing but the history and
    [last_pruned_term]. *)
Lemma prune_to_leader_term_history (p : ConsensusMetadataPB) :
  pb_previous_vote_history (prune_to_leader_term p) =
  erase_prefix
    (fst (walk_to_leader_term (lkl_election_term (pb_last_known_leader p))
            (pb_last_pruned_term p) (pb_previous_vote_history p)))
    (pb_previous_vote_history p).
Proof.
  unfold prune_to_leader_term.
  destruct (walk_to_leader_term _ _ _) as [n lp]. simpl.
  destruct n; reflexivity.
Qed.

Lemma prune_to_leader_term_frame (p : ConsensusMetadataPB) :
  pb_current_term (prune_to_leader_term p) = pb_current_term p /\
  pb_voted_for (prune_to_leader_term p) = pb_voted_for p /\
  pb_committed_config (prune_to_leader_term p) = pb_committed_config p /\
  pb_last_known_leader (prune_to_leader_term p) = pb_last_known_leader p.
Proof.
  unfold prune_to_leader_term.
  destruct (walk_to_leader_term _ _ _) as [n lp].
  destruct n; simpl; auto.
Qed.

Lemma prune_to_leader_term_last_pruned (p : ConsensusMetadataPB) :
  pb_last_pruned_term (prune_to_leader_term p) =
  snd (walk_to_leader_term (lkl_election_term (pb_last_known_leader p))
         (pb_last_pruned_term p) (pb_previous_vote_history p)).
Proof.
  unfold prune_to_leader_term.
  destruct (walk_to_leader_term _ _ _) as [n lp] eqn:E.
  destruct n; simpl; [| reflexivity].
  pose proof (walk_last_pruned (lkl_election_term (pb_last_known_leader p))
                (pb_last_pruned_term p) (pb_previous_vote_history p)) as H.
  rewrite E in H. simpl in H. symmetry. exact H.
Qed.

Section WithMaxSize.

Variable VOTE_HISTORY_MAX_SIZE : nat.

Lemma prune_to_capacity_frame (p : ConsensusMetadataPB) :
  pb_current_term (prune_to_capacity VOTE_HISTORY_MAX_SIZE p)
    = pb_current_term p /\
  pb_voted_for (prune_to_capacity VOTE_HISTORY_MAX_SIZE p)
    = pb_voted_for p /\
  pb_committed_config (prune_to_capacity VOTE_HISTORY_MAX_SIZE p)
    = pb_committed_config p /\
  pb_last_known_leader (prune_to_capacity VOTE_HISTORY_MAX_SIZE p)
    = pb_last_known_leader p.
Proof.
  unfold prune_to_capacity.
  destruct (_ <? _)%nat; [| auto].
  destruct (pb_previous_vote_history p) as [| [k v] r]; simpl; auto.
Qed.

Lemma prune_to_capacity_fits (p : ConsensusMetadataPB) :
  (size (pb_previous_vote_history p) <= VOTE_HISTORY_MAX_SIZE)%nat ->
  prune_to_capacity VOTE_HISTORY_MAX_SIZE p = p.
Proof.
  intros H. unfold prune_to_capacity.
  replace (_ <? _)%nat with false; [reflexivity |].
  symmetry. apply Nat.ltb_ge. exact H.
Qed.

(** Over the capacity, step 2 erases the entry that the iteration visits
    first and records its key. *)
Lemma prune_to_capacity_exceeds (p : ConsensusMetadataPB) :
  (VOTE_HISTORY_MAX_SIZE < size (pb_previous_vote_history p))%nat ->
  exists k v rest,
    pb_previous_vote_history p = (k, v) :: rest /\
    pb_previous_vote_history (prune_to_capacity VOTE_HISTORY_MAX_SIZE p)
      = erase_key k ((k, v) :: rest) /\
    pb_last_pruned_term (prune_to_capacity VOTE_HISTORY_MAX_SIZE p) = k.
Proof.
  intros Hsz. unfold prune_to_capacity.
  replace (_ <? _)%nat with true by (symmetry; apply Nat.ltb_lt; exact Hsz).
  destruct (pb_previous_vote_history p) as [| [k v] r] eqn:E.
  - unfold size in Hsz. simpl in Hsz. lia.
  - exists k, v, r. simpl. auto.
Qed.

Lemma prune_to_capacity_cases (p : ConsensusMetadataPB) :
  ((size (pb_previous_vote_history p) <= VOTE_HISTORY_MAX_SIZE)%nat /\
   prune_to_capacity VOTE_HISTORY_MAX_SIZE p = p) \/
  ((VOTE_HISTORY_MAX_SIZE < size (pb_previous_vote_history p))%nat /\
   exists k v rest,
     pb_previous_vote_history p = (k, v) :: rest /\
     pb_previous_vote_history (prune_to_capacity VOTE_HISTORY_MAX_SIZE p)
       = erase_key k ((k, v) :: rest) /\
     pb_last_pruned_term (prune_to_capacity VOTE_HISTORY_MAX_SIZE p) = k).
Proof.
  destruct (Nat.ltb VOTE_HISTORY_MAX_SIZE
              (size (pb_previous_vote_history p))) eqn:Hlt.
  - apply Nat.ltb_lt in Hlt. right. split; [exact Hlt |].
    apply prune_to_capacity_exceeds. exact Hlt.
  - apply Nat.ltb_ge in Hlt. left. split; [exact Hlt |].
    apply prune_to_capacity_fits. exact Hlt.
Qed.

Lemma prune_to_capacity_size (p : ConsensusMetadataPB) (n : nat) :
  (size (pb_previous_vote_history p) <= S n)%nat ->
  (size (pb_previous_vote_history
           (prune_to_capacity VOTE_HISTORY_MAX_SIZE p))
   <= Nat.max n VOTE_HISTORY_MAX_SIZE)%nat.
Proof.
  intros Hn.
  destruct (prune_to_capacity_cases p)
    as [[Hfit ->] | [Hlt [k [v [rest [E [-> _]]]]]]].
  - lia.
  - pose proof (erase_key_head_size k v rest) as H.
    rewrite E in Hn. unfold size in *. simpl in Hn. lia.
Qed.

Lemma prune_to_capacity_distinct (p : ConsensusMetadataPB) :
  distinct_keys (pb_previous_vote_history p) ->
  distinct_keys (pb_previous_vote_history
                   (prune_to_capacity VOTE_HISTORY_MAX_SIZE p)).
Proof.
  intros Hd.
  destruct (prune_to_capacity_cases p)
    as [[Hfit ->] | [Hlt [k [v [rest [E [-> _]]]]]]].
  - exact Hd.
  - rewrite <- E. apply erase_key_distinct. exact Hd.
Qed.

End WithMaxSize.

(** *** [populate_previous_vote_history] under any order of iteration *)

Section Populate.

Variable VOTE_HISTORY_MAX_SIZE : nat.
Variable map_insert : MapInsert.
Hypothesis insert_ok : map_insert_ok map_insert.

Let populate :=
  pb_populate_previous_vote_history VOTE_HISTORY_MAX_SIZE map_insert.

(** The history once the new entry is in. *)
Let inserted (pv : PreviousVotePB) (p : ConsensusMetadataPB) : VoteHistory :=
  InsertIfNotPresent map_insert (election_term pv) pv
    (pb_previous_vote_history p).

(** The walk of step 1 over it. *)
Let walked (pv : PreviousVotePB) (p : ConsensusMetadataPB) : nat * Z :=
  walk_to_leader_term (lkl_election_term (pb_last_known_leader p))
    (pb_last_pruned_term p) (inserted pv p).

(** The stages of one call: either the history fits after step 1 and
    step 2 does nothing, or step 2 erases the entry then first in the
    iteration. *)
Lemma pb_populate_stages (pv : PreviousVotePB) (p : ConsensusMetadataPB) :
  let h2 := erase_prefix (fst (walked pv p)) (inserted pv p) in
  let p' := populate pv p in
  ((size h2 <= VOTE_HISTORY_MAX_SIZE)%nat /\
   pb_previous_vote_history p' = h2 /\
   pb_last_pruned_term p' = snd (walked pv p)) \/
  ((VOTE_HISTORY_MAX_SIZE < size h2)%nat /\
   exists k v rest,
     h2 = (k, v) :: rest /\
     pb_previous_vote_history p' = erase_key k h2 /\
     pb_last_pruned_term p' = k).
Proof.
  intros h2 p'. subst h2 p'.
  unfold populate, pb_populate_previous_vote_history, walked, inserted.
  set (p1 := pb_set_previous_vote_history _ p).
  pose proof (prune_to_leader_term_history p1) as Hh2.
  pose proof (prune_to_leader_term_last_pruned p1) as Hl2.
  change (pb_previous_vote_history p1)
    with (InsertIfNotPresent map_insert (election_term pv) pv
            (pb_previous_vote_history p)) in Hh2, Hl2.
  change (pb_last_known_leader p1) with (pb_last_known_leader p) in Hh2, Hl2.
  change (pb_last_pruned_term p1) with (pb_last_pruned_term p) in Hh2, Hl2.
  rewrite <- Hh2, <- Hl2.
  destruct (prune_to_capacity_cases VOTE_HISTORY_MAX_SIZE
              (prune_to_leader_term p1))
    as [[Hfit ->] | [Hlt [k [v [rest [E [Hh Hl]]]]]]].
  - left. auto.
  - right. split; [exact Hlt |]. exists k, v, rest.
    rewrite E. auto.
Qed.

Lemma pb_populate_size (pv : PreviousVotePB) (p : ConsensusMetadataPB) :
  (size (pb_previous_vote_history (populate pv p)) <=
   Nat.max (size (pb_previous_vote_history p)) VOTE_HISTORY_MAX_SIZE)%nat.
Proof.
  pose proof (InsertIfNotPresent_size map_insert insert_ok
                (election_term pv) pv (pb_previous_vote_history p)) as H1.
  pose proof (erase_prefix_size (fst (walked pv p)) (inserted pv p)) as H2.
  unfold inserted in H2 at 2.
  destruct (pb_populate_stages pv p)
    as [[Hfit [-> _]] | [Hlt [k [v [rest [E [-> _]]]]]]].
  - lia.
  - rewrite E in *. pose proof (erase_key_head_size k v rest) as H3.
    unfold size in *. simpl in *. lia.
Qed.

Lemma pb_populate_distinct (pv : PreviousVotePB)
    (p : ConsensusMetadataPB) :
  distinct_keys (pb_previous_vote_history p) ->
  distinct_keys (pb_previous_vote_history (populate pv p)).
Proof.
  intros Hd.
  assert (H2 : distinct_keys
                 (erase_prefix (fst (walked pv p)) (inserted pv p))).
  { apply erase_prefix_distinct.
    apply InsertIfNotPresent_distinct; assumption. }
  destruct (pb_populate_stages pv p)
    as [[Hfit [-> _]] | [Hlt [k [v [rest [E [-> _]]]]]]].
  - exact H2.
  - apply erase_key_distinct. exact H2.
Qed.

Lemma pb_populate_keys (pv : PreviousVotePB) (p : ConsensusMetadataPB)
    (k : Z) :
  In k (keys (pb_previous_vote_history (populate pv p))) ->
  k = election_term pv \/ In k (keys (pb_previous_vote_history p)).
Proof.
  intros Hin.
  apply (proj1 (InsertIfNotPresent_keys map_insert insert_ok
                  (election_term pv) pv (pb_previous_vote_history p) k)).
  apply (erase_prefix_keys (fst (walked pv p))).
  destruct (pb_populate_stages pv p)
    as [[Hfit [E _]] | [Hlt [k0 [v [rest [_ [E _]]]]]]];
    rewrite E in Hin.
  - exact Hin.
  - apply erase_key_keys in Hin. apply Hin.
Qed.

(** An entry above the leader term can only leave through step 2, and
    then its key is the [last_pruned_term] afterwards. *)
Lemma pb_populate_evicts (pv : PreviousVotePB) (p : ConsensusMetadataPB)
    (k : Z) :
  lkl_election_term (pb_last_known_leader p) < k ->
  k = election_term pv \/ In k (keys (pb_previous_vote_history p)) ->
  In k (keys (pb_previous_vote_history (populate pv p))) \/
  pb_last_pruned_term (populate pv p) = k.
Proof.
  intros Hlt Hk.
  apply (proj2 (InsertIfNotPresent_keys map_insert insert_ok
                  (election_term pv) pv (pb_previous_vote_history p) k))
    in Hk.
  apply (walk_keeps_above _ (pb_last_pruned_term p) _ _ Hlt) in Hk.
  fold (inserted pv p) in Hk. fold (walked pv p) in Hk.
  destruct (pb_populate_stages pv p)
    as [[Hfit [-> _]] | [Hcap [k0 [v [rest [_ [-> ->]]]]]]].
  - left. exact Hk.
  - destruct (Z.eq_dec k0 k) as [-> | Hne]; [right; reflexivity |].
    left. apply erase_key_keys. split; [congruence | exact Hk].
Qed.

(** [last_pruned_term] changes only to the key of an entry that the call
    erases. *)
Lemma pb_populate_last_pruned (pv : PreviousVotePB)
    (p : ConsensusMetadataPB) :
  distinct_keys (pb_previous_vote_history p) ->
  pb_last_pruned_term (populate pv p) = pb_last_pruned_term p \/
  ((pb_last_pruned_term (populate pv p) = election_term pv \/
    In (pb_last_pruned_term (populate pv p))
      (keys (pb_previous_vote_history p))) /\
   ~ In (pb_last_pruned_term (populate pv p))
       (keys (pb_previous_vote_history (populate pv p)))).
Proof.
  intros Hd.
  assert (Hd1 : distinct_keys (inserted pv p))
    by (apply InsertIfNotPresent_distinct; assumption).
  destruct (pb_populate_stages pv p)
    as [[Hfit [Hh Hl]] | [Hcap [k0 [v [rest [E [Hh Hl]]]]]]];
    rewrite Hh, Hl.
  - destruct (walk_last_pruned_cases
                (lkl_election_term (pb_last_known_leader p))
                (pb_last_pruned_term p) (inserted pv p) Hd1)
      as [[_ H] | [Hin [_ Hout]]].
    + left. exact H.
    + right. split; [| exact Hout].
      exact (proj1 (InsertIfNotPresent_keys map_insert insert_ok
                      (election_term pv) pv (pb_previous_vote_history p) _)
               Hin).
  - right. split.
    + assert (Hk0 : In k0 (keys (erase_prefix (fst (walked pv p))
                                   (inserted pv p))))
        by (rewrite E; now left).
      exact (proj1 (InsertIfNotPresent_keys map_insert insert_ok
                      (election_term pv) pv (pb_previous_vote_history p) k0)
               (erase_prefix_keys _ _ _ Hk0)).
    + intros Hin. apply erase_key_keys in Hin. destruct Hin as [Hne _].
      congruence.
Qed.


End Populate.

End PruneFacts.

(* ================================================================== *)
(** ** Consensus metadata: what each mutator does to the protobuf *)

Module CMetaFacts.

Import KStatus CMeta CMetaInv VoteHistoryFacts PruneFacts.

Section WithCollaborators.

Variable GetConsensusRole : string -> string -> RaftConfigPB -> Role.
Variable VerifyRaftConfig : RaftConfigPB -> Status.
Variable Flush_default_mode : FlushMode.
Variable VOTE_HISTORY_MAX_SIZE : nat.
Variable map_insert : MapInsert.

Lemma UpdateActiveRole_pb (c : ConsensusMetadata) :
  pb_ (UpdateActiveRole GetConsensusRole c) = pb_ c.
Proof. reflexivity. Qed.

Lemma set_committed_config_pb (cfg : RaftConfigPB)
    (c : ConsensusMetadata) :
  pb_ (set_committed_config GetConsensusRole cfg c) =
  pb_set_committed_config cfg (pb_ c).
Proof.
  unfold set_committed_config. simpl.
  destruct (has_pending_config_ c); reflexivity.
Qed.

Lemma set_active_config_pb (cfg : RaftConfigPB) (c : ConsensusMetadata) :
  pb_ (set_active_config GetConsensusRole cfg c) =
  if has_pending_config_ c then pb_ c
  else pb_set_committed_config cfg (pb_ c).
Proof.
  unfold set_active_config.
  destruct (has_pending_config_ c) eqn:E; [reflexivity |].
  apply set_committed_config_pb.
Qed.

Lemma UpdateOnDiskSize_pb (fs : FsManager) (c : ConsensusMetadata) :
  pb_ (snd (UpdateOnDiskSize fs c)) = pb_ c.
Proof.
  unfold UpdateOnDiskSize.
  destruct (GetFileSize fs _) as [s sz]. destruct (ok s); reflexivity.
Qed.

Lemma Flush_pb (fs : FsManager) (mode : FlushMode)
    (c : ConsensusMetadata) :
  pb_ (snd (Flush VerifyRaftConfig fs mode c)) = pb_ c.
Proof.
  unfold Flush. destruct (Flush_write _ _ _ _) as [e | []].
  - reflexivity.
  - rewrite UpdateOnDiskSize_pb. reflexivity.
Qed.

Lemma UpdateOnDiskSize_flush_count (fs : FsManager)
    (c : ConsensusMetadata) :
  flush_count_for_tests_ (snd (UpdateOnDiskSize fs c)) =
  flush_count_for_tests_ c.
Proof.
  unfold UpdateOnDiskSize.
  destruct (GetFileSize fs _) as [s sz]. destruct (ok s); reflexivity.
Qed.

Lemma Flush_flush_count (fs : FsManager) (mode : FlushMode)
    (c : ConsensusMetadata) :
  flush_count_for_tests_ (snd (Flush VerifyRaftConfig fs mode c)) =
  flush_count_for_tests_ c + 1.
Proof.
  unfold Flush. destruct (Flush_write _ _ _ _) as [e | []].
  - reflexivity.
  - rewrite UpdateOnDiskSize_flush_count. reflexivity.
Qed.

Lemma sync_last_known_leader_pb (fs : FsManager) (cas : option Z)
    (c : ConsensusMetadata) :
  pb_ (snd (sync_last_known_leader VerifyRaftConfig Flush_default_mode
              fs cas c)) = pb_ c \/
  pb_ (snd (sync_last_known_leader VerifyRaftConfig Flush_default_mode
              fs cas c)) =
  pb_set_last_known_leader
    (mkLastKnownLeaderPB (leader_uuid_ c) (current_term c)) (pb_ c).
Proof.
  unfold sync_last_known_leader.
  destruct (String.eqb _ _); [left; reflexivity |].
  destruct (cas_term_mismatch _ _); [left; reflexivity |].
  right. rewrite Flush_pb. reflexivity.
Qed.

Lemma set_voted_for_pb (uuid : string) (c : ConsensusMetadata) :
  pb_ (set_voted_for VOTE_HISTORY_MAX_SIZE map_insert uuid c) =
  pb_populate_previous_vote_history VOTE_HISTORY_MAX_SIZE map_insert
    (mkPreviousVotePB uuid (current_term c))
    (pb_set_voted_for (Some uuid) (pb_ c)).
Proof. reflexivity. Qed.

Lemma pb_populate_frame (pv : PreviousVotePB) (p : ConsensusMetadataPB) :
  let p' := pb_populate_previous_vote_history VOTE_HISTORY_MAX_SIZE map_insert pv p in
  pb_current_term p' = pb_current_term p /\
  pb_voted_for p' = pb_voted_for p /\
  pb_committed_config p' = pb_committed_config p /\
  pb_last_known_leader p' = pb_last_known_leader p.
Proof.
  unfold pb_populate_previous_vote_history. simpl.
  set (p1 := pb_set_previous_vote_history _ p).
  destruct (prune_to_capacity_frame VOTE_HISTORY_MAX_SIZE
              (prune_to_leader_term p1)) as [A [B [C D]]].
  destruct (prune_to_leader_term_frame p1) as [A' [B' [C' D']]].
  rewrite A, B, C, D, A', B', C', D'. simpl. auto.
Qed.

Lemma MergeCommittedConsensusStatePB_pb (cs : ConsensusStatePB)
    (c : ConsensusMetadata) :
  pb_ (MergeCommittedConsensusStatePB GetConsensusRole cs c) =
  pb_set_committed_config (cstate_committed_config cs)
    (if cstate_current_term cs >? current_term c then
       pb_set_voted_for None
         (pb_set_current_term (cstate_current_term cs) (pb_ c))
     else pb_ c).
Proof.
  unfold MergeCommittedConsensusStatePB, clear_pending_config.
  rewrite UpdateActiveRole_pb. simpl.
  rewrite set_committed_config_pb. unfold set_leader_uuid.
  rewrite UpdateActiveRole_pb. simpl.
  destruct (_ >? _); reflexivity.
Qed.

End WithCollaborators.

End CMetaFacts.

(* ================================================================== *)
(** ** The orders of iteration of the examples *)

(** Whatever [stop] is, [insert_before stop] is an insertion the library
    could make: the new entry is added and no entry is lost. *)
Lemma insert_before_ok (stop : Z -> Z -> bool) :
  CMetaInv.map_insert_ok (CMetaExamples.insert_before stop).
Proof.
  intros k v h _. induction h as [| [k' v'] r IH]; simpl.
  - apply Permutation_refl.
  - destruct (stop k k'); [apply Permutation_refl |].
    apply (Permutation_trans (l' := (k', v') :: (k, v) :: r)).
    + apply perm_skip. exact IH.
    + apply perm_swap.
Qed.

(* ================================================================== *)
(** ** Vote-history bound *)

(** C1.  The bound on the keys fails on the code.  Step 1 walks the map
    from [begin()] and stops at the first entry above the leader term;
    the iteration of the map is not ordered by key, so an entry at or
    below the leader term that comes later in it stays.  After
    [set_current_term(5); set_voted_for("a"); set_current_term(0);
    set_voted_for("b")] on a fresh object, in a table whose iteration has
    key 5 before key 0, the walk stops at once: the entry of term 0 is
    still there and the leader term is 0.  Were the iteration ascending
    in the key, the same calls would leave key 5 alone. *)
Theorem vote_history_keeps_key_at_leader_term :
  let ops :=
    [CMeta.OpSetCurrentTerm 5; CMeta.OpSetVotedFor "a";
     CMeta.OpSetCurrentTerm 0; CMeta.OpSetVotedFor "b"] in
  let c := CMetaExamples.run_on (CMetaExamples.hashed_insert 4) 3 ops in
  let c_ascending :=
    CMetaExamples.run_on CMetaExamples.ascending_insert 3 ops in
  forallb CMeta.is_term_or_vote_grant ops = true /\
  CMeta.keys (CMeta.previous_vote_history c) = [5; 0] /\
  CMeta.lkl_election_term (CMeta.last_known_leader c) = 0 /\
  In (CMeta.lkl_election_term (CMeta.last_known_leader c))
    (CMeta.keys (CMeta.previous_vote_history c)) /\
  CMeta.last_pruned_term c = -1 /\
  CMeta.keys (CMeta.previous_vote_history c_ascending) = [5] /\
  CMeta.last_pruned_term c_ascending = 0.
Proof.
  intros ops c c_ascending.
  repeat split; try reflexivity.
  right. left. reflexivity.
Qed.

(** Invariant 3 of the data model is false in that state. *)
Lemma vote_history_bound_fails :
  let c :=
    CMetaExamples.run_on (CMetaExamples.hashed_insert 4) 3
      [CMeta.OpSetCurrentTerm 5; CMeta.OpSetVotedFor "a";
       CMeta.OpSetCurrentTerm 0; CMeta.OpSetVotedFor "b"] in
  CMeta.set_current_term_pre 5 /\ CMeta.set_current_term_pre 0 /\
  ~ CMetaInv.vote_history_bounded 3 c.
Proof.
  intros c. split; [| split].
  - unfold CMeta.set_current_term_pre, CMeta.kMinimumTerm. lia.
  - unfold CMeta.set_current_term_pre, CMeta.kMinimumTerm. lia.
  - intros [_ Ha]. unfold CMetaInv.keys_above in Ha.
    change (CMeta.keys (CMeta.previous_vote_history c)) with [5; 0] in Ha.
    change (CMeta.lkl_election_term (CMeta.last_known_leader c)) with 0
      in Ha.
    inversion Ha as [| x l H5 Hrest]; subst.
    inversion Hrest as [| y l' H0 _]; subst. lia.
Qed.

(** [sync_last_known_leader] raises the leader term without touching the
    history, so a vote cast in the term in which a leader is then learnt
    stays in the map, at the leader term, until the next
    [set_voted_for]. *)
Example sync_last_known_leader_leaves_history :
  let c :=
    CMetaExamples.run_with 3
      [CMeta.OpSetCurrentTerm 5; CMeta.OpSetVotedFor "a";
       CMeta.OpSetLeaderUuid "b";
       CMeta.OpSyncLastKnownLeader CMetaExamples.fs_ok None] in
  CMeta.last_known_leader c = CMeta.mkLastKnownLeaderPB "b" 5 /\
  CMeta.keys (CMeta.previous_vote_history c) = [5].
Proof. intros c. split; reflexivity. Qed.

(** Scenario S3, on a map that happens to iterate over the keys 3, 4, 5,
    6 in this order: with a last known leader of term 5, a vote in term 7
    prunes the keys up to 5. *)
Example known_leader_prune :
  let vote (t : Z) := (t, CMeta.mkPreviousVotePB "a" t) in
  let p :=
    CMeta.mkConsensusMetadataPB (Some 7) None None
      [vote 3; vote 4; vote 5; vote 6]
      (CMeta.mkLastKnownLeaderPB "b" 5) (-1) in
  let p' :=
    CMeta.pb_populate_previous_vote_history 3 (CMetaExamples.hashed_insert 0)
      (CMeta.mkPreviousVotePB "c" 7) p in
  CMeta.keys (CMeta.pb_previous_vote_history p') = [6; 7] /\
  CMeta.pb_last_pruned_term p' = 5.
Proof. intros vote p p'. split; reflexivity. Qed.

(** The same map iterating over its keys as 6, 3, 4, 5: the walk stops at
    key 6, nothing at or below the leader term is pruned, and step 2
    erases the entry of term 6, the only one above the leader term. *)
Example known_leader_prune_other_order :
  let vote (t : Z) := (t, CMeta.mkPreviousVotePB "a" t) in
  let p :=
    CMeta.mkConsensusMetadataPB (Some 7) None None
      [vote 6; vote 3; vote 4; vote 5]
      (CMeta.mkLastKnownLeaderPB "b" 5) (-1) in
  let p' :=
    CMeta.pb_populate_previous_vote_history 4 (CMetaExamples.hashed_insert 0)
      (CMeta.mkPreviousVotePB "c" 7) p in
  CMeta.keys (CMeta.pb_previous_vote_history p') = [3; 4; 5; 7] /\
  CMeta.pb_last_pruned_term p' = 6.
Proof. intros vote p p'. split; reflexivity. Qed.

(* ================================================================== *)
(** ** Pruning to capacity *)

(** C4.  Scenario S2 fails on the code.  Step 2 erases the entry at
    [begin()], the one the iteration of the map visits first, and that
    need not be the one with the smallest key.  With
    [VOTE_HISTORY_MAX_SIZE = 3] and votes for a, b, c, d in terms 5, 6, 7,
    8 on a fresh object, in a table of eight buckets the entry of term 8
    comes first in the iteration (8, 5, 6, 7): the fourth vote's own
    entry is erased, the keys left are 5, 6, 7 and [last_pruned_term] is
    8.  Were the iteration ascending in the key, the result would be the
    keys 6, 7, 8 and [last_pruned_term = 5]. *)
Theorem capacity_prune_erases_first_in_iteration :
  let ops :=
    [CMeta.OpSetCurrentTerm 5; CMeta.OpSetVotedFor "a";
     CMeta.OpSetCurrentTerm 6; CMeta.OpSetVotedFor "b";
     CMeta.OpSetCurrentTerm 7; CMeta.OpSetVotedFor "c";
     CMeta.OpSetCurrentTerm 8] in
  let before := CMetaExamples.run_on (CMetaExamples.hashed_insert 0) 3 ops in
  let c := CMeta.set_voted_for 3 (CMetaExamples.hashed_insert 0) "d" before in
  let c_ascending :=
    CMetaExamples.run_on CMetaExamples.ascending_insert 3
      (ops ++ [CMeta.OpSetVotedFor "d"]) in
  CMeta.keys (CMeta.previous_vote_history before) = [5; 6; 7] /\
  CMeta.keys
    (CMeta.InsertIfNotPresent (CMetaExamples.hashed_insert 0) 8
       (CMeta.mkPreviousVotePB "d" 8) (CMeta.previous_vote_history before))
    = [8; 5; 6; 7] /\
  CMeta.keys (CMeta.previous_vote_history c) = [5; 6; 7] /\
  CMeta.last_pruned_term c = 8 /\
  CMeta.current_term c = 8 /\
  CMeta.voted_for c = "d"%string /\
  CMeta.find 8 (CMeta.previous_vote_history c) = None /\
  CMeta.keys (CMeta.previous_vote_history c_ascending) = [6; 7; 8] /\
  CMeta.last_pruned_term c_ascending = 5.
Proof.
  intros ops before c c_ascending. repeat split; reflexivity.
Qed.

(* ================================================================== *)
(** ** The vote of the current term is on record *)

Section VoteRecorded.

Import KStatus CMeta CMetaInv VoteHistoryFacts PruneFacts CMetaFacts.

Variable GetConsensusRole : string -> string -> RaftConfigPB -> Role.
Variable VerifyRaftConfig : RaftConfigPB -> Status.
Variable Flush_default_mode : FlushMode.
Variable initial_active_role : Role.
Variable VOTE_HISTORY_MAX_SIZE : nat.
Variable map_insert : MapInsert.
Hypothesis insert_ok : map_insert_ok map_insert.

Let step :=
  step GetConsensusRole VerifyRaftConfig Flush_default_mode
    VOTE_HISTORY_MAX_SIZE map_insert.
Let run :=
  run GetConsensusRole VerifyRaftConfig Flush_default_mode
    VOTE_HISTORY_MAX_SIZE map_insert.
Let vote_call_ok :=
  vote_call_ok GetConsensusRole VerifyRaftConfig Flush_default_mode
    VOTE_HISTORY_MAX_SIZE map_insert.
Let vote_discipline :=
  vote_discipline GetConsensusRole VerifyRaftConfig Flush_default_mode
    VOTE_HISTORY_MAX_SIZE map_insert.





End VoteRecorded.



(** Each condition of the calling discipline is needed. *)

(** A vote in term 0 is pruned at once: 0 is not above the leader term of
    a fresh object. *)
Example vote_in_term_zero_is_pruned :
  let c :=
    CMetaExamples.run_with 3
      [CMeta.OpSetCurrentTerm 0; CMeta.OpSetVotedFor "a"] in
  CMeta.set_current_term_pre 0 /\
  CMeta.has_voted_for c = true /\
  CMeta.previous_vote_history c = [] /\
  CMeta.last_pruned_term c = 0.
Proof.
  intros c. repeat split; try reflexivity.
  unfold CMeta.set_current_term_pre, CMeta.kMinimumTerm. lia.
Qed.

(** A second vote in the same term for somebody else is not recorded:
    [InsertIfNotPresent] keeps the first entry. *)
Example second_vote_in_term_is_not_recorded :
  let c :=
    CMetaExamples.run_with 3
      [CMeta.OpSetCurrentTerm 5; CMeta.OpSetVotedFor "a";
       CMeta.OpClearVotedFor; CMeta.OpSetVotedFor "b"] in
  CMeta.voted_for c = "b"%string /\
  CMeta.find (CMeta.current_term c) (CMeta.previous_vote_history c) =
    Some (CMeta.mkPreviousVotePB "a" 5).
Proof. intros c. split; reflexivity. Qed.

(** The prune to capacity can evict the entry of the vote being granted,
    and then [last_pruned_term] is the term voted in.  With a capacity of
    0 it always does. *)
Example vote_with_zero_capacity_is_pruned :
  let c :=
    CMetaExamples.run_with 0
      [CMeta.OpSetCurrentTerm 5; CMeta.OpSetVotedFor "a"] in
  CMeta.has_voted_for c = true /\
  CMeta.previous_vote_history c = [] /\
  CMeta.last_pruned_term c = 5.
Proof. intros c. repeat split; reflexivity. Qed.

(** With room for one entry it does when the new entry comes first in
    the iteration, here in a term below the one voted in before. *)
Example vote_in_lowered_term_is_pruned :
  let c :=
    CMetaExamples.run_with 1
      [CMeta.OpSetCurrentTerm 5; CMeta.OpSetVotedFor "a";
       CMeta.OpClearVotedFor; CMeta.OpSetCurrentTerm 3;
       CMeta.OpSetVotedFor "b"] in
  CMeta.voted_for c = "b"%string /\
  CMeta.current_term c = 3 /\
  CMeta.keys (CMeta.previous_vote_history c) = [5] /\
  CMeta.last_pruned_term c = 3.
Proof. intros c. repeat split; reflexivity. Qed.

(** And with terms that only go up it does when the table puts the new
    entry first: the fourth vote of scenario S2 is not on record. *)
Example vote_in_raised_term_is_pruned :
  let c :=
    CMetaExamples.run_with 3
      [CMeta.OpSetCurrentTerm 5; CMeta.OpSetVotedFor "a";
       CMeta.OpClearVotedFor;
       CMeta.OpSetCurrentTerm 6; CMeta.OpSetVotedFor "b";
       CMeta.OpClearVotedFor;
       CMeta.OpSetCurrentTerm 7; CMeta.OpSetVotedFor "c";
       CMeta.OpClearVotedFor;
       CMeta.OpSetCurrentTerm 8; CMeta.OpSetVotedFor "d"] in
  CMeta.voted_for c = "d"%string /\
  CMeta.current_term c = 8 /\
  CMeta.keys (CMeta.previous_vote_history c) = [5; 6; 7] /\
  CMeta.last_pruned_term c = 8.
Proof. intros c. repeat split; reflexivity. Qed.

(* ================================================================== *)
(** ** The current term along call sequences *)

Section CurrentTerm.

Import KStatus CMeta CMetaInv CMetaFacts.

Variable GetConsensusRole : string -> string -> RaftConfigPB -> Role.
Variable VerifyRaftConfig : RaftConfigPB -> Status.
Variable Flush_default_mode : FlushMode.
Variable VOTE_HISTORY_MAX_SIZE : nat.
Variable map_insert : MapInsert.

Let step :=
  step GetConsensusRole VerifyRaftConfig Flush_default_mode
    VOTE_HISTORY_MAX_SIZE map_insert.
Let run :=
  run GetConsensusRole VerifyRaftConfig Flush_default_mode
    VOTE_HISTORY_MAX_SIZE map_insert.
Let term_respecting :=
  term_respecting GetConsensusRole VerifyRaftConfig Flush_default_mode
    VOTE_HISTORY_MAX_SIZE map_insert.

Lemma current_term_of_pb (c c' : ConsensusMetadata) :
  pb_current_term (pb_ c') = pb_current_term (pb_ c) ->
  current_term c' = current_term c.
Proof. unfold current_term. intros ->. reflexivity. Qed.

(** What one call does to the observable term. *)
Lemma step_current_term (c : ConsensusMetadata) (op : Op) :
  current_term (step c op) =
  match op with
  | OpSetCurrentTerm t => t
  | OpMergeCommittedConsensusStatePB cs =>
      Z.max (current_term c) (cstate_current_term cs)
  | _ => current_term c
  end.
Proof.
  destruct op.
  - reflexivity.
  - apply current_term_of_pb.
    change (step c (OpSetVotedFor uuid))
      with (set_voted_for VOTE_HISTORY_MAX_SIZE map_insert uuid c).
    rewrite set_voted_for_pb.
    exact (proj1 (pb_populate_frame VOTE_HISTORY_MAX_SIZE map_insert
                    (mkPreviousVotePB uuid (current_term c))
                    (pb_set_voted_for (Some uuid) (pb_ c)))).
  - reflexivity.
  - apply current_term_of_pb.
    change (step c (OpSetCommittedConfig config))
      with (set_committed_config GetConsensusRole config c).
    rewrite set_committed_config_pb. reflexivity.
  - reflexivity.
  - reflexivity.
  - reflexivity.
  - apply current_term_of_pb.
    change (step c (OpSetActiveConfig config))
      with (set_active_config GetConsensusRole config c).
    rewrite set_active_config_pb.
    destruct (has_pending_config_ c); reflexivity.
  - reflexivity.
  - apply current_term_of_pb.
    change (step c (OpSyncLastKnownLeader fs cas_term))
      with (snd (sync_last_known_leader VerifyRaftConfig
                   Flush_default_mode fs cas_term c)).
    destruct (sync_last_known_leader_pb VerifyRaftConfig
                Flush_default_mode fs cas_term c) as [-> | ->];
      reflexivity.
  - change (step c (OpMergeCommittedConsensusStatePB cstate))
      with (MergeCommittedConsensusStatePB GetConsensusRole cstate c).
    unfold current_term at 1.
    rewrite MergeCommittedConsensusStatePB_pb.
    destruct (cstate_current_term cstate >? current_term c) eqn:E; simpl.
    + apply Z.gtb_lt in E. lia.
    + fold (current_term c).
      assert (cstate_current_term cstate <= current_term c)
        by (destruct (Z.gtb_spec (cstate_current_term cstate)
                        (current_term c)); [discriminate | lia]).
      lia.
  - apply current_term_of_pb.
    change (step c (OpFlush fs flush_mode))
      with (snd (Flush VerifyRaftConfig fs flush_mode c)).
    rewrite Flush_pb. reflexivity.
Qed.

Lemma term_respecting_app (ops1 ops2 : list Op) (c : ConsensusMetadata) :
  term_respecting c (ops1 ++ ops2) ->
  term_respecting c ops1 /\ term_respecting (run ops1 c) ops2.
Proof.
  revert c. induction ops1 as [| op ops1 IH]; intros c H.
  - split; [exact I | exact H].
  - destruct H as [Hop H]. destruct (IH _ H) as [H1 H2].
    split; [split; assumption | exact H2].
Qed.

Lemma run_current_term_le (ops : list Op) (c : ConsensusMetadata) :
  term_respecting c ops -> current_term c <= current_term (run ops c).
Proof.
  revert c. induction ops as [| op ops IH]; intros c H.
  - simpl. lia.
  - destruct H as [Hop H]. specialize (IH _ H).
    change (run (op :: ops) c) with (run ops (step c op)).
    pose proof (step_current_term c op) as Hs.
    destruct op; cbv beta iota in Hs, Hop; unfold step in *; lia.
Qed.

(** C3, as the code has it.  [set_current_term(t)] makes the observable
    term [t] whatever it was before; [MergeCommittedConsensusStatePB]
    makes it the larger of the local and the remote term; every other
    call leaves it alone.  Hence along a sequence of calls in which no
    [set_current_term] passes a term below the one current at the time,
    the term observed after any prefix is at most the term observed at
    the end. *)
Theorem current_term_monotone_when_respected :
  (forall (c : ConsensusMetadata) (op : Op),
      current_term (step c op) =
      match op with
      | OpSetCurrentTerm t => t
      | OpMergeCommittedConsensusStatePB cs =>
          Z.max (current_term c) (cstate_current_term cs)
      | _ => current_term c
      end) /\
  (forall (c : ConsensusMetadata) (ops1 ops2 : list Op),
      term_respecting c (ops1 ++ ops2) ->
      current_term c <= current_term (run ops1 c) /\
      current_term (run ops1 c) <= current_term (run (ops1 ++ ops2) c)).
Proof.
  split; [exact step_current_term |].
  intros c ops1 ops2 H.
  destruct (term_respecting_app ops1 ops2 c H) as [H1 H2].
  split; [apply run_current_term_le; exact H1 |].
  unfold run, CMeta.run. rewrite fold_left_app.
  apply (run_current_term_le ops2 (run ops1 c) H2).
Qed.

End CurrentTerm.

Lemma current_term_monotone_when_respected_witness :
  let ops1 := [CMeta.OpSetCurrentTerm 3; CMeta.OpSetVotedFor "a"] in
  let ops2 :=
    [CMeta.OpMergeCommittedConsensusStatePB
       (CMeta.mkConsensusStatePB (Some 5) None None None);
     CMeta.OpSetCurrentTerm 5] in
  CMetaInv.term_respecting CMetaExamples.role_of
    CMetaExamples.verify_ok CMeta.OVERWRITE 3 (CMetaExamples.hashed_insert 0)
    CMetaExamples.fresh (ops1 ++ ops2) /\
  CMeta.current_term CMetaExamples.fresh
    <= CMeta.current_term (CMetaExamples.run_with 3 ops1) /\
  CMeta.current_term (CMetaExamples.run_with 3 ops1)
    <= CMeta.current_term (CMetaExamples.run_with 3 (ops1 ++ ops2)).
Proof.
  intros ops1 ops2.
  assert (H : CMetaInv.term_respecting CMetaExamples.role_of
                CMetaExamples.verify_ok CMeta.OVERWRITE 3
                (CMetaExamples.hashed_insert 0)
                CMetaExamples.fresh (ops1 ++ ops2))
    by (cbv; repeat split; discriminate).
  split; [exact H |].
  exact (proj2 (current_term_monotone_when_respected
                  CMetaExamples.role_of CMetaExamples.verify_ok
                  CMeta.OVERWRITE 3 (CMetaExamples.hashed_insert 0))
           CMetaExamples.fresh ops1 ops2 H).
Defined.

(** C3 as stated fails: [set_current_term] has no comparison with the
    present term.  After [set_current_term(5)] the term reads 5; a further
    [set_current_term(3)], which meets the [DCHECK] against
    [kMinimumTerm], makes it read 3. *)
Lemma set_current_term_lowers_term :
  let c5 := CMeta.set_current_term 5 CMetaExamples.fresh in
  let c3 := CMeta.set_current_term 3 c5 in
  CMeta.set_current_term_pre 5 /\
  CMeta.set_current_term_pre 3 /\
  CMeta.current_term c5 = 5 /\
  CMeta.current_term c3 = 3 /\
  CMeta.current_term c3 < CMeta.current_term c5.
Proof.
  intros c5 c3.
  unfold CMeta.set_current_term_pre, CMeta.kMinimumTerm.
  repeat split; try reflexivity; lia.
Qed.

(* ================================================================== *)
(** ** Merging a committed consensus state *)

Section Merge.

Import KStatus CMeta CMetaFacts.

Variable GetConsensusRole : string -> string -> RaftConfigPB -> Role.

Let Merge := MergeCommittedConsensusStatePB GetConsensusRole.

Lemma Merge_leader_uuid (cs : ConsensusStatePB) (c : ConsensusMetadata) :
  leader_uuid (Merge cs c) = EmptyString.
Proof.
  unfold Merge, MergeCommittedConsensusStatePB, leader_uuid,
    clear_pending_config, set_committed_config.
  simpl. destruct (negb _); reflexivity.
Qed.

Lemma Merge_pending (cs : ConsensusStatePB) (c : ConsensusMetadata) :
  has_pending_config (Merge cs c) = false /\
  PendingConfig (Merge cs c) = None /\
  pending_config_ (Merge cs c) = RaftConfigPB_default.
Proof. repeat split. Qed.

Lemma Merge_committed_config (cs : ConsensusStatePB)
    (c : ConsensusMetadata) :
  CommittedConfig (Merge cs c) = cstate_committed_config cs /\
  ActiveConfig (Merge cs c) = cstate_committed_config cs.
Proof.
  unfold CommittedConfig, ActiveConfig, pb_committed, Merge.
  rewrite MergeCommittedConsensusStatePB_pb. split; reflexivity.
Qed.

Lemma Merge_raises (cs : ConsensusStatePB) (c : ConsensusMetadata) :
  cstate_current_term cs > current_term c ->
  pb_current_term (pb_ (Merge cs c)) = Some (cstate_current_term cs) /\
  pb_voted_for (pb_ (Merge cs c)) = None.
Proof.
  intros H. unfold Merge. rewrite MergeCommittedConsensusStatePB_pb.
  replace (_ >? _) with true by (symmetry; apply Z.gtb_lt; lia).
  split; reflexivity.
Qed.

Lemma Merge_keeps (cs : ConsensusStatePB) (c : ConsensusMetadata) :
  cstate_current_term cs <= current_term c ->
  pb_current_term (pb_ (Merge cs c)) = pb_current_term (pb_ c) /\
  pb_voted_for (pb_ (Merge cs c)) = pb_voted_for (pb_ c).
Proof.
  intros H. unfold Merge. rewrite MergeCommittedConsensusStatePB_pb.
  replace (_ >? _) with false; [split; reflexivity |].
  symmetry. destruct (Z.gtb_spec (cstate_current_term cs) (current_term c));
    [lia | reflexivity].
Qed.

(** C5.  [MergeCommittedConsensusStatePB(cstate)] sets the local term to
    [cstate]'s and clears the vote when [cstate]'s term is strictly
    greater than the local one, and leaves both as they are otherwise;
    in every case it empties [leader_uuid], installs [cstate]'s committed
    configuration and drops the pending one.  From term 3 with a vote
    for x, merging term 5 with configuration C' gives term 5, no vote,
    committed configuration C', no leader, nothing pending. *)
Theorem MergeCommittedConsensusStatePB_spec :
  (forall (cs : ConsensusStatePB) (c : ConsensusMetadata),
      let c' := Merge cs c in
      (cstate_current_term cs > current_term c ->
       current_term c' = cstate_current_term cs /\
       has_voted_for c' = false) /\
      (cstate_current_term cs <= current_term c ->
       current_term c' = current_term c /\
       has_voted_for c' = has_voted_for c /\
       voted_for c' = voted_for c) /\
      leader_uuid c' = EmptyString /\
      CommittedConfig c' = cstate_committed_config cs /\
      has_pending_config c' = false /\
      PendingConfig c' = None) /\
  (forall (c : ConsensusMetadata) (C' : RaftConfigPB),
      pb_current_term (pb_ c) = Some 3 ->
      pb_voted_for (pb_ c) = Some "x"%string ->
      let c' := Merge (mkConsensusStatePB (Some 5) None (Some C') None) c in
      current_term c' = 5 /\
      has_voted_for c' = false /\
      CommittedConfig c' = C' /\
      leader_uuid c' = EmptyString /\
      has_pending_config c' = false).
Proof.
  split.
  - intros cs c c'. subst c'.
    split; [| split; [| split; [| split; [| split]]]].
    + intros H. destruct (Merge_raises cs c H) as [Ht Hv].
      unfold current_term at 1. unfold has_voted_for.
      rewrite Ht, Hv. auto.
    + intros H. destruct (Merge_keeps cs c H) as [Ht Hv].
      unfold current_term, has_voted_for, voted_for.
      rewrite Ht, Hv. auto.
    + apply Merge_leader_uuid.
    + apply Merge_committed_config.
    + reflexivity.
    + reflexivity.
  - intros c C' Ht Hv c'. subst c'.
    set (cs := mkConsensusStatePB (Some 5) None (Some C') None).
    assert (H : cstate_current_term cs > current_term c)
      by (unfold cs, cstate_current_term, current_term; rewrite Ht;
          simpl; lia).
    destruct (Merge_raises cs c H) as [Ht' Hv'].
    unfold current_term at 1. unfold has_voted_for.
    rewrite Ht', Hv'.
    repeat split.
    + apply (Merge_committed_config cs c).
    + apply Merge_leader_uuid.
Qed.

(** C10.  When the remote term is at most the local [current_term],
    [MergeCommittedConsensusStatePB] leaves [current_term] and
    [voted_for] exactly as they were (a vote that is held stays held),
    while it still empties [leader_uuid], installs the remote committed
    configuration and drops the pending one. *)
Theorem MergeCommittedConsensusStatePB_stale_term
    (cs : ConsensusStatePB) (c : ConsensusMetadata) :
  cstate_current_term cs <= current_term c ->
  let c' := Merge cs c in
  pb_current_term (pb_ c') = pb_current_term (pb_ c) /\
  current_term c' = current_term c /\
  pb_voted_for (pb_ c') = pb_voted_for (pb_ c) /\
  has_voted_for c' = has_voted_for c /\
  voted_for c' = voted_for c /\
  leader_uuid c' = EmptyString /\
  CommittedConfig c' = cstate_committed_config cs /\
  has_pending_config c' = false /\
  PendingConfig c' = None.
Proof.
  intros H c'. subst c'.
  destruct (Merge_keeps cs c H) as [Ht Hv].
  unfold current_term, has_voted_for, voted_for.
  rewrite Ht, Hv.
  repeat split.
  - apply Merge_leader_uuid.
  - apply Merge_committed_config.
Qed.

End Merge.

Lemma MergeCommittedConsensusStatePB_spec_witness :
  let c :=
    CMeta.upd_pb (CMeta.pb_set_voted_for (Some "x"%string))
      (CMeta.set_current_term 3 CMetaExamples.fresh) in
  let C' := CMeta.mkRaftConfigPB (Some 7) [] [] in
  let c' :=
    CMeta.MergeCommittedConsensusStatePB CMetaExamples.role_of
      (CMeta.mkConsensusStatePB (Some 5) None (Some C') None) c in
  CMeta.pb_current_term (CMeta.pb_ c) = Some 3 /\
  CMeta.pb_voted_for (CMeta.pb_ c) = Some "x"%string /\
  CMeta.current_term c' = 5 /\
  CMeta.has_voted_for c' = false /\
  CMeta.CommittedConfig c' = C' /\
  CMeta.leader_uuid c' = EmptyString /\
  CMeta.has_pending_config c' = false.
Proof.
  intros c C' c'.
  split; [reflexivity |]. split; [reflexivity |].
  apply (proj2 (MergeCommittedConsensusStatePB_spec
                  CMetaExamples.role_of) c C');
    reflexivity.
Defined.

Lemma MergeCommittedConsensusStatePB_stale_term_witness :
  let c :=
    CMeta.upd_pending true (CMeta.mkRaftConfigPB (Some 9) [] [])
      (CMeta.upd_leader_uuid "leader"
         (CMeta.upd_pb (CMeta.pb_set_voted_for (Some "x"%string))
            (CMeta.set_current_term 5 CMetaExamples.fresh))) in
  let cs :=
    CMeta.mkConsensusStatePB (Some 4) None
      (Some (CMeta.mkRaftConfigPB (Some 7) [] [])) None in
  let c' :=
    CMeta.MergeCommittedConsensusStatePB CMetaExamples.role_of cs c in
  CMeta.cstate_current_term cs <= CMeta.current_term c /\
  CMeta.pb_current_term (CMeta.pb_ c') = Some 5 /\
  CMeta.current_term c' = CMeta.current_term c /\
  CMeta.pb_voted_for (CMeta.pb_ c') = Some "x"%string /\
  CMeta.has_voted_for c' = CMeta.has_voted_for c /\
  CMeta.voted_for c' = CMeta.voted_for c /\
  CMeta.leader_uuid c' = EmptyString /\
  CMeta.CommittedConfig c' = CMeta.cstate_committed_config cs /\
  CMeta.has_pending_config c' = false /\
  CMeta.PendingConfig c' = None.
Proof.
  intros c cs c'.
  assert (H : CMeta.cstate_current_term cs <= CMeta.current_term c)
    by (vm_compute; discriminate).
  split; [exact H |].
  exact (MergeCommittedConsensusStatePB_stale_term
           CMetaExamples.role_of cs c H).
Defined.

(* ================================================================== *)
(** ** Making the leader durable *)

Section SyncLastKnownLeader.

Import KStatus CMeta CMetaFacts.

Variable VerifyRaftConfig : RaftConfigPB -> Status.
Variable Flush_default_mode : FlushMode.

Let Flush := Flush VerifyRaftConfig.
Let sync_last_known_leader :=
  sync_last_known_leader VerifyRaftConfig Flush_default_mode.

(** C6.  [sync_last_known_leader(cas_term)] returns OK and leaves the
    object as it is (no flush is counted, [last_known_leader] is what it
    was) when [leader_uuid] is empty, and also when a [cas_term] is given
    that differs from [current_term].  In the remaining case it is
    [Flush()] run on the object with [last_known_leader] set to
    [{leader_uuid, current_term}]: the status returned is that of the
    flush, one flush is counted and [last_known_leader] holds the new
    pair afterwards. *)
Theorem sync_last_known_leader_spec (fs : FsManager) (cas_term : option Z)
    (c : ConsensusMetadata) :
  let r := sync_last_known_leader fs cas_term c in
  (leader_uuid c = EmptyString -> r = (OK, c)) /\
  (forall t, cas_term = Some t -> t <> current_term c -> r = (OK, c)) /\
  (leader_uuid c <> EmptyString ->
   (forall t, cas_term = Some t -> t = current_term c) ->
   let lkl := mkLastKnownLeaderPB (leader_uuid c) (current_term c) in
   r = Flush fs Flush_default_mode
         (upd_pb (pb_set_last_known_leader lkl) c) /\
   last_known_leader (snd r) = lkl /\
   flush_count_for_tests_ (snd r) = flush_count_for_tests_ c + 1).
Proof.
  intros r. subst r.
  unfold sync_last_known_leader, CMeta.sync_last_known_leader, leader_uuid.
  split; [| split].
  - intros He. rewrite He. reflexivity.
  - intros t Hc Hne. subst cas_term.
    destruct (String.eqb _ _); [reflexivity |].
    unfold cas_term_mismatch.
    replace (current_term c =? t) with false
      by (symmetry; apply Z.eqb_neq; congruence).
    reflexivity.
  - intros Hl Hcas.
    replace (String.eqb (leader_uuid_ c) EmptyString) with false
      by (symmetry; apply String.eqb_neq; exact Hl).
    assert (Hm : cas_term_mismatch cas_term (current_term c) = false).
    { unfold cas_term_mismatch. destruct cas_term as [t |]; [| reflexivity].
      rewrite (Hcas t eq_refl), Z.eqb_refl. reflexivity. }
    rewrite Hm. split; [reflexivity |]. split.
    + unfold last_known_leader. rewrite Flush_pb. reflexivity.
    + rewrite Flush_flush_count. reflexivity.
Qed.

End SyncLastKnownLeader.

Lemma sync_last_known_leader_spec_witness :
  let c :=
    CMeta.upd_leader_uuid "leader"
      (CMeta.set_current_term 5 CMetaExamples.fresh) in
  let r :=
    CMeta.sync_last_known_leader CMetaExamples.verify_ok CMeta.OVERWRITE
      CMetaExamples.fs_ok (Some 5) c in
  CMeta.leader_uuid c <> EmptyString /\
  (forall t, Some 5 = Some t -> t = CMeta.current_term c) /\
  fst r = KStatus.OK /\
  CMeta.last_known_leader (snd r) = CMeta.mkLastKnownLeaderPB "leader" 5 /\
  CMeta.flush_count_for_tests_ (snd r) = 1.
Proof.
  intros c r.
  assert (Hl : CMeta.leader_uuid c <> EmptyString) by (simpl; discriminate).
  assert (Hc : forall t, Some 5 = Some t -> t = CMeta.current_term c)
    by (intros t Ht; injection Ht as <-; reflexivity).
  split; [exact Hl |]. split; [exact Hc |].
  destruct (sync_last_known_leader_spec CMetaExamples.verify_ok
              CMeta.OVERWRITE CMetaExamples.fs_ok (Some 5) c)
    as [_ [_ H]].
  destruct (H Hl Hc) as [_ [Hlkl Hcount]].
  split; [reflexivity |]. split; [exact Hlkl | exact Hcount].
Defined.

(* ================================================================== *)
(** ** Appending to the buffer *)

Section AppendMessage.

Import KStatus PeerBuffer.

(** C7.  For every buffer: [appendMessage] of a null reference returns
    InvalidArgument, and of a message whose index is not
    [last_buffered + 1] returns IllegalState; in both cases the buffer is
    returned as it was, field for field.  Of a message whose index is
    [last_buffered + 1] it returns OK, [last_buffered] becomes that index
    and the message is at the back of the buffer.  [last_buffered + 1] is
    the 64-bit sum of the code; it is the integer successor unless
    [last_buffered] is the largest [int64_t]. *)
Theorem appendMessage_spec (b : BufferData) :
  appendMessage None b = (InvalidArgument "Null new message", b) /\
  (forall m : ReplicateMsg,
      index (id m) <> Int64.add (last_buffered b) 1 ->
      appendMessage (Some m) b =
        (IllegalState "New message does not match buffer", b)) /\
  (forall m : ReplicateMsg,
      index (id m) = Int64.add (last_buffered b) 1 ->
      fst (appendMessage (Some m) b) = OK /\
      last_buffered (snd (appendMessage (Some m) b)) = index (id m) /\
      msg_buffer_refs (snd (appendMessage (Some m) b)) =
        msg_buffer_refs b ++ [m] /\
      buffered_for_proxying (snd (appendMessage (Some m) b)) =
        buffered_for_proxying b /\
      bytes_buffered (snd (appendMessage (Some m) b)) = bytes_buffered b) /\
  (Int64.min_signed <= last_buffered b < Int64.max_signed ->
   Int64.add (last_buffered b) 1 = last_buffered b + 1).
Proof.
  split; [reflexivity |]. split; [| split].
  - intros m Hne. unfold appendMessage.
    replace (index (id m) =? Int64.add (last_buffered b) 1) with false
      by (symmetry; apply Z.eqb_neq; exact Hne).
    reflexivity.
  - intros m He. unfold appendMessage.
    replace (index (id m) =? Int64.add (last_buffered b) 1) with true
      by (symmetry; apply Z.eqb_eq; exact He).
    simpl. repeat split.
  - apply Int64Facts.succ_no_overflow.
Qed.

End AppendMessage.

(** Scenario S5: with [last_buffered = 10], a message at 11 is accepted and
    one at 13 is then refused with the buffer unchanged. *)
Lemma appendMessage_spec_witness :
  let b10 := PeerBufferExamples.anchored_at_10 in
  let r11 :=
    PeerBuffer.appendMessage (Some (PeerBufferExamples.msg_at 1 11)) b10 in
  let r13 :=
    PeerBuffer.appendMessage (Some (PeerBufferExamples.msg_at 1 13))
      (snd r11) in
  fst r11 = KStatus.OK /\
  PeerBuffer.last_buffered (snd r11) = 11 /\
  r13 = (KStatus.IllegalState "New message does not match buffer", snd r11).
Proof.
  intros b10 r11 r13.
  destruct (appendMessage_spec b10) as [_ [_ [Hok _]]].
  assert (H11 : PeerBuffer.index
                  (PeerBuffer.id (PeerBufferExamples.msg_at 1 11)) =
                Int64.add (PeerBuffer.last_buffered b10) 1)
    by (vm_compute; reflexivity).
  destruct (Hok _ H11) as [Hs [Hl _]].
  destruct (appendMessage_spec (snd r11)) as [_ [Hgap _]].
  split; [exact Hs |]. split; [exact Hl |].
  apply Hgap. vm_compute. discriminate.
Defined.

(* ================================================================== *)
(** ** Filling the buffer from the log cache *)

Section ReadFromCache.

Import KStatus PeerBuffer.

Variable FLAGS_max_buffer_fill_size_bytes : Z.
Variable FLAGS_consensus_max_batch_size_bytes : Z.
Variable resetBuffer_default_for_proxy : bool.
Variable resetBuffer_default_last_index : Z.
Variable LogCache : Type.

Let fill_size :=
  fill_size FLAGS_max_buffer_fill_size_bytes
    FLAGS_consensus_max_batch_size_bytes.
Let readFromCache :=
  readFromCache FLAGS_max_buffer_fill_size_bytes
    FLAGS_consensus_max_batch_size_bytes resetBuffer_default_for_proxy
    resetBuffer_default_last_index LogCache.

(** C8.  [readFromCache] calls [ReadOps] once, at [last_buffered], with a
    byte limit of
    [min(max_buffer_fill_size_bytes,
         max(consensus_max_batch_size_bytes - bytes_buffered, 0))]
    (so at most [max_buffer_fill_size_bytes]), on the buffer's own
    vector: its result depends on the cache only through that one
    answer.  If the answer's status is neither OK nor Incomplete, the
    buffer is reset (to the default arguments of [resetBuffer]) and the
    status is returned.  If it is Incomplete, the status is returned and
    no field is reset: the vector is as the cache left it, the other
    fields are as before.  If it is OK and the cache stopped early, a
    Continue status is returned. *)
Theorem readFromCache_spec
    (ReadOps :
       LogCache -> Z -> Z -> ReadContext -> list ReplicateMsg ->
       ReadOpsStatus * list ReplicateMsg)
    (read_context : ReadContext) (log_cache : LogCache) (b : BufferData) :
  let answer :=
    ReadOps log_cache (last_buffered b) (fill_size b) read_context
      (msg_buffer_refs b) in
  let s := fst answer in
  let r := readFromCache ReadOps read_context log_cache b in
  (fill_size b =
     Z.min FLAGS_max_buffer_fill_size_bytes
       (Z.max (Int64.sub FLAGS_consensus_max_batch_size_bytes
                 (bytes_buffered b)) 0) /\
   fill_size b <= FLAGS_max_buffer_fill_size_bytes /\
   (Int64.in_range
      (FLAGS_consensus_max_batch_size_bytes - bytes_buffered b) ->
    fill_size b =
      Z.min FLAGS_max_buffer_fill_size_bytes
        (Z.max (FLAGS_consensus_max_batch_size_bytes - bytes_buffered b)
           0))) /\
  (forall ReadOps',
      ReadOps' log_cache (last_buffered b) (fill_size b) read_context
        (msg_buffer_refs b) = answer ->
      readFromCache ReadOps' read_context log_cache b = r) /\
  (ok (status s) = false -> IsIncomplete (status s) = false ->
   r = (status s,
        resetBuffer resetBuffer_default_for_proxy
          resetBuffer_default_last_index b) /\
   msg_buffer_refs (snd r) = [] /\
   preceding_opid (snd r) = OpId_default /\
   bytes_buffered (snd r) = 0) /\
  (IsIncomplete (status s) = true ->
   fst r = status s /\
   msg_buffer_refs (snd r) = snd answer /\
   last_buffered (snd r) = last_buffered b /\
   preceding_opid (snd r) = preceding_opid b /\
   buffered_for_proxying (snd r) = buffered_for_proxying b /\
   bytes_buffered (snd r) = bytes_buffered b) /\
  (ok (status s) = true -> stopped_early s = true ->
   code (fst r) = kContinue /\
   fst r = Continue "Stopped before reading all ops from LogCache") /\
  (ok (status s) = true -> stopped_early s = false -> fst r = status s).
Proof.
  intros answer s r.
  split; [| split; [| split; [| split; [| split]]]].
  - split; [reflexivity |]. split.
    + unfold fill_size, PeerBuffer.fill_size. apply Z.le_min_l.
    + intros Hr. unfold fill_size, PeerBuffer.fill_size.
      rewrite Int64Facts.sub_no_overflow by exact Hr. reflexivity.
  - intros ReadOps' He. subst r.
    unfold readFromCache, PeerBuffer.readFromCache.
    fold fill_size. rewrite He. reflexivity.
  - intros Hok Hinc. subst r.
    unfold readFromCache, PeerBuffer.readFromCache. fold fill_size.
    fold answer. destruct answer as [s0 refs] eqn:Ea. simpl in s. subst s.
    rewrite Hok, Hinc. simpl. repeat split.
  - intros Hinc. subst r.
    unfold readFromCache, PeerBuffer.readFromCache. fold fill_size.
    fold answer. destruct answer as [s0 refs] eqn:Ea. simpl in s. subst s.
    assert (Hok : ok (status s0) = false).
    { unfold ok, IsIncomplete in *.
      apply KStatusFacts.Code_eqb_eq in Hinc. rewrite Hinc. reflexivity. }
    rewrite Hok, Hinc. simpl. repeat split.
  - intros Hok Hse. subst r.
    unfold readFromCache, PeerBuffer.readFromCache. fold fill_size.
    fold answer. destruct answer as [s0 refs] eqn:Ea. simpl in s. subst s.
    rewrite Hok. destruct (rev refs) as [| back rest];
      rewrite Hse; split; reflexivity.
  - intros Hok Hse. subst r.
    unfold readFromCache, PeerBuffer.readFromCache. fold fill_size.
    fold answer. destruct answer as [s0 refs] eqn:Ea. simpl in s. subst s.
    rewrite Hok. destruct (rev refs) as [| back rest];
      rewrite Hse; reflexivity.
Qed.

End ReadFromCache.

Lemma readFromCache_spec_witness :
  let b := PeerBufferExamples.holding_11 in
  let r_err :=
    PeerBufferExamples.read_canned PeerBufferExamples.cache_io_error b in
  let r_inc :=
    PeerBufferExamples.read_canned PeerBufferExamples.cache_incomplete b in
  let r_early :=
    PeerBufferExamples.read_canned PeerBufferExamples.cache_stopped_early b in
  (r_err = (KStatus.IOError "disk", PeerBuffer.resetBuffer false (-1) b) /\
   PeerBuffer.msg_buffer_refs (snd r_err) = []) /\
  (fst r_inc = KStatus.Incomplete "op pending append" /\
   PeerBuffer.msg_buffer_refs (snd r_inc) = [PeerBufferExamples.msg_at 1 11]
   /\ PeerBuffer.last_buffered (snd r_inc) = 11 /\
   PeerBuffer.preceding_opid (snd r_inc) = PeerBuffer.mkOpId 1 10) /\
  KStatus.code (fst r_early) = KStatus.kContinue.
Proof.
  intros b r_err r_inc r_early.
  pose proof (readFromCache_spec
                PeerBufferExamples.default_max_buffer_fill_size_bytes
                PeerBufferExamples.default_consensus_max_batch_size_bytes
                false (-1) PeerBufferExamples.CannedCache
                PeerBufferExamples.canned_ReadOps PeerBufferExamples.ctx)
    as spec.
  destruct (spec PeerBufferExamples.cache_io_error b) as [_ [_ [Herr _]]].
  destruct (spec PeerBufferExamples.cache_incomplete b)
    as [_ [_ [_ [Hinc _]]]].
  destruct (spec PeerBufferExamples.cache_stopped_early b)
    as [_ [_ [_ [_ [Hearly _]]]]].
  destruct (Herr eq_refl eq_refl) as [He1 [He2 _]].
  destruct (Hinc eq_refl) as [Hi1 [Hi2 [Hi3 [Hi4 _]]]].
  destruct (Hearly eq_refl eq_refl) as [Hc _].
  split; [split; [exact He1 | exact He2] |].
  split; [| exact Hc].
  split; [exact Hi1 |]. split; [exact Hi2 |]. split; [exact Hi3 | exact Hi4].
Defined.

(* ================================================================== *)
(** ** Contiguity of the buffer *)

Module ContiguityFacts.

Import KStatus PeerBuffer.

Lemma length_range_from (lo : Z) (n : nat) :
  List.length (range_from lo n) = n.
Proof.
  revert lo. induction n as [| n IH]; intros lo; simpl; [reflexivity |].
  rewrite IH. reflexivity.
Qed.

Lemma range_from_app (lo : Z) (n m : nat) :
  range_from lo (n + m) =
  range_from lo n ++ range_from (lo + Z.of_nat n) m.
Proof.
  revert lo. induction n as [| n IH]; intros lo.
  - simpl. f_equal. lia.
  - change (lo :: range_from (lo + 1) (n + m) =
            lo :: (range_from (lo + 1) n
                   ++ range_from (lo + Z.of_nat (S n)) m)).
    rewrite IH. do 3 f_equal. lia.
Qed.

Lemma range_empty (lo hi : Z) : hi < lo -> range lo hi = [].
Proof.
  intros H. unfold range.
  replace (Z.to_nat (hi - lo + 1)) with O by lia. reflexivity.
Qed.

Lemma range_as_range_from (lo : Z) (n : nat) :
  range lo (lo + Z.of_nat n - 1) = range_from lo n.
Proof.
  unfold range. f_equal. lia.
Qed.

Lemma back_of_rev {A : Type} (l rest : list A) (back : A) :
  rev l = back :: rest -> l = rev rest ++ [back].
Proof.
  intros H. rewrite <- (rev_involutive l), H. reflexivity.
Qed.

(** The index at the back of a run of consecutive indices. *)
Lemma back_index (l rest : list ReplicateMsg) (back : ReplicateMsg)
    (lo : Z) :
  rev l = back :: rest ->
  map (fun m => index (id m)) l = range_from lo (List.length l) ->
  index (id back) = lo + Z.of_nat (List.length l) - 1.
Proof.
  intros Hrev Hidx. apply back_of_rev in Hrev. subst l.
  rewrite map_app, length_app in Hidx. simpl in Hidx.
  rewrite range_from_app in Hidx. simpl in Hidx.
  apply app_inj_tail in Hidx. destruct Hidx as [_ Hb].
  rewrite length_app. simpl. lia.
Qed.

(** [anchored] is the property of the claim, plus the fact that the
    indices are consecutive up to [last_buffered]. *)
Lemma anchored_contiguous (b : BufferData) :
  anchored b -> contiguous_after_preceding b.
Proof.
  intros [Hidx Hprec] Hne. rewrite Hidx, (Hprec Hne).
  rewrite <- range_as_range_from. f_equal; lia.
Qed.

Lemma resetBuffer_anchored (for_proxy : bool) (last_index : Z)
    (b : BufferData) :
  anchored (resetBuffer for_proxy last_index b).
Proof.
  split; [reflexivity |]. intros H. exfalso. apply H. reflexivity.
Qed.

(** Appending to a buffer that already holds a message keeps it
    anchored. *)
Lemma appendMessage_nonempty_anchored (b : BufferData) (m : ReplicateMsg) :
  msg_buffer_refs b <> [] ->
  Int64.min_signed <= last_buffered b < Int64.max_signed ->
  anchored b ->
  anchored (snd (appendMessage (Some m) b)).
Proof.
  intros Hne Hrange [Hidx Hprec]. unfold appendMessage.
  rewrite Int64Facts.succ_no_overflow by exact Hrange.
  destruct (index (id m) =? last_buffered b + 1) eqn:He; simpl.
  - apply Z.eqb_eq in He.
    assert (Hcase : match msg_buffer_refs b with
                    | [] => id m
                    | _ :: _ => preceding_opid b
                    end = preceding_opid b)
      by (destruct (msg_buffer_refs b); [congruence | reflexivity]).
    unfold anchored, indices in *.
    cbn [msg_buffer_refs last_buffered preceding_opid].
    rewrite Hcase, map_app, length_app, Hidx, range_from_app.
    cbn [List.length map range_from]. split.
    + rewrite He. f_equal; [f_equal; lia |]. f_equal. lia.
    + intros _. rewrite (Hprec Hne), He. lia.
  - split; assumption.
Qed.

(** The first append into an empty buffer stores the message's own id as
    [preceding_opid], so the property of the claim fails right after
    it, whatever the buffer and the message. *)
Lemma appendMessage_empty_not_contiguous (b : BufferData)
    (m : ReplicateMsg) :
  msg_buffer_refs b = [] ->
  fst (appendMessage (Some m) b) = OK ->
  index (preceding_opid (snd (appendMessage (Some m) b))) =
    last_buffered (snd (appendMessage (Some m) b)) /\
  ~ contiguous_after_preceding (snd (appendMessage (Some m) b)).
Proof.
  intros Hb Hok. unfold appendMessage in *.
  destruct (index (id m) =? Int64.add (last_buffered b) 1) eqn:He;
    simpl in Hok; [| discriminate].
  simpl. rewrite Hb. simpl. split; [reflexivity |].
  intros Hc. unfold contiguous_after_preceding, indices in Hc. simpl in Hc.
  assert (Hne : [m] <> []) by discriminate.
  specialize (Hc Hne). rewrite range_empty in Hc by lia. discriminate.
Qed.

Section WithLogCache.

Variable FLAGS_max_buffer_fill_size_bytes : Z.
Variable FLAGS_consensus_max_batch_size_bytes : Z.
Variable resetBuffer_default_for_proxy : bool.
Variable resetBuffer_default_last_index : Z.
Variable LogCache : Type.
Variable ReadOps :
  LogCache -> Z -> Z -> ReadContext -> list ReplicateMsg ->
  ReadOpsStatus * list ReplicateMsg.
Hypothesis ReadOps_ok : ReadOps_contract LogCache ReadOps.

(** The cache path keeps the buffer anchored: on an empty buffer it
    takes [preceding_opid] from the cache, which reports the op before
    the first message read. *)
Lemma readFromCache_anchored (read_context : ReadContext)
    (log_cache : LogCache) (b : BufferData) :
  anchored b ->
  anchored
    (snd (readFromCache FLAGS_max_buffer_fill_size_bytes
            FLAGS_consensus_max_batch_size_bytes
            resetBuffer_default_for_proxy resetBuffer_default_last_index
            LogCache ReadOps read_context log_cache b)).
Proof.
  intros [Hidx Hprec]. unfold readFromCache.
  pose proof (ReadOps_ok log_cache (last_buffered b)
                (fill_size FLAGS_max_buffer_fill_size_bytes
                   FLAGS_consensus_max_batch_size_bytes b)
                read_context (msg_buffer_refs b)) as Hc.
  cbv zeta in Hc.
  destruct (ReadOps log_cache _ _ _ _) as [s refs]. simpl in Hc.
  destruct (ok (status s)) eqn:Hok.
  - destruct Hc as [new [-> [Hnew Hpre]]].
    set (len := List.length (msg_buffer_refs b)) in *.
    set (ln := List.length new).
    assert (Hall : map (fun m => index (id m)) (msg_buffer_refs b ++ new)
                   = range_from (last_buffered b - Z.of_nat len + 1)
                       (len + ln)).
    { rewrite map_app. unfold indices in Hidx. rewrite Hidx, Hnew.
      rewrite range_from_app. do 2 f_equal. lia. }
    destruct (rev (msg_buffer_refs b ++ new)) as [| back rest] eqn:Er.
    + assert (He : msg_buffer_refs b ++ new = [])
        by (rewrite <- (rev_involutive (_ ++ _)), Er; reflexivity).
      assert (R : forall st, anchored
                    (snd (A:=Status) (st,
                       mkBufferData (msg_buffer_refs b ++ new)
                         (last_buffered b)
                         (if empty (msg_buffer_refs b)
                          then preceding_op s else preceding_opid b)
                         (buffered_for_proxying b) (bytes_buffered b)))).
      { intros st. simpl. rewrite He. split; [reflexivity |].
        intros H. exfalso. apply H. reflexivity. }
      destruct (stopped_early s); apply R.
    + assert (Hlen : List.length (msg_buffer_refs b ++ new)
                     = (len + ln)%nat) by apply length_app.
      assert (Hback : index (id back) = last_buffered b + Z.of_nat ln).
      { rewrite (back_index _ _ _
                     (last_buffered b - Z.of_nat len + 1) Er);
          [rewrite Hlen; lia |].
        rewrite Hlen. exact Hall. }
      assert (R : forall st, anchored
                    (snd (A:=Status) (st,
                       mkBufferData (msg_buffer_refs b ++ new)
                         (index (id back))
                         (if empty (msg_buffer_refs b)
                          then preceding_op s else preceding_opid b)
                         (route_via_proxy read_context)
                         (bytes_buffered b)))).
      { intros st. unfold anchored, indices. simpl.
        rewrite Hlen, Hall, Hback, Nat2Z.inj_add.
        split; [f_equal; lia |].
        intros _. destruct (msg_buffer_refs b) as [| m0 l0] eqn:Eb.
        - cbn [empty]. rewrite Hpre. change (Z.of_nat len) with 0. lia.
        - cbn [empty]. rewrite Hprec by discriminate. lia. }
      destruct (stopped_early s); apply R.
  - subst refs.
    destruct (negb (IsIncomplete (status s))).
    + apply resetBuffer_anchored.
    + split; assumption.
Qed.

End WithLogCache.

End ContiguityFacts.

(** The contract asked of the cache can be met. *)
Example next_op_ReadOps_contract :
  PeerBuffer.ReadOps_contract Z PeerBufferExamples.next_op_ReadOps.
Proof.
  intros cache after_op_index max_size_bytes context messages. simpl.
  exists [PeerBufferExamples.msg_at cache (after_op_index + 1)].
  repeat split.
Qed.

(** C2 at its failing input.  On the empty buffer anchored at index 10,
    [appendMessage] of the message with id (1, 11) succeeds and leaves the
    buffer holding exactly index 11 with [last_buffered = 11] and
    [preceding_opid = (1, 11)], the message's own id: the range from
    [preceding_opid.index + 1 = 12] to [last_buffered = 11] is empty and
    misses the message.  The id of the preceding entry would have index
    10. *)
Theorem appendMessage_into_empty_buffer_preceding_opid :
  let r :=
    PeerBuffer.appendMessage (Some (PeerBufferExamples.msg_at 1 11))
      PeerBufferExamples.anchored_at_10 in
  fst r = KStatus.OK /\
  PeerBuffer.indices (snd r) = [11] /\
  PeerBuffer.last_buffered (snd r) = 11 /\
  PeerBuffer.preceding_opid (snd r) = PeerBuffer.mkOpId 1 11 /\
  PeerBuffer.range (PeerBuffer.index (PeerBuffer.preceding_opid (snd r)) + 1)
    (PeerBuffer.last_buffered (snd r)) = [] /\
  ~ PeerBuffer.contiguous_after_preceding (snd r).
Proof.
  intros r. repeat split; try reflexivity.
  intros H. assert (Hne : PeerBuffer.msg_buffer_refs (snd r) <> [])
    by (vm_compute; discriminate).
  specialize (H Hne). vm_compute in H. discriminate H.
Qed.

(** The same buffer filled through [readFromCache] from a cache that
    answers [ReadOps(10)] with message 11 and the preceding id (1, 10) does
    have the property. *)
Example readFromCache_into_empty_buffer_preceding_opid :
  let cache : PeerBufferExamples.CannedCache :=
    (PeerBuffer.mkReadOpsStatus KStatus.OK false (PeerBuffer.mkOpId 1 10),
     [PeerBufferExamples.msg_at 1 11]) in
  let r :=
    PeerBufferExamples.read_canned cache PeerBufferExamples.anchored_at_10 in
  fst r = KStatus.OK /\
  PeerBuffer.indices (snd r) = [11] /\
  PeerBuffer.last_buffered (snd r) = 11 /\
  PeerBuffer.preceding_opid (snd r) = PeerBuffer.mkOpId 1 10 /\
  PeerBuffer.contiguous_after_preceding (snd r).
Proof.
  intros cache r. repeat split; try reflexivity.
Qed.

(* ================================================================== *)
(** ** Further facts about the mutators *)

Module CMetaFrameFacts.

Import KStatus CMeta CMetaInv CMetaMore VoteHistoryFacts PruneFacts CMetaFacts.

Section WithCollaborators.

Variable GetConsensusRole : string -> string -> RaftConfigPB -> Role.
Variable VerifyRaftConfig : RaftConfigPB -> Status.
Variable Flush_default_mode : FlushMode.
Variable VOTE_HISTORY_MAX_SIZE : nat.
Variable map_insert : MapInsert.

Let step :=
  step GetConsensusRole VerifyRaftConfig Flush_default_mode
    VOTE_HISTORY_MAX_SIZE map_insert.

Lemma UpdateOnDiskSize_volatile (fs : FsManager) (c : ConsensusMetadata) :
  same_volatile c (snd (UpdateOnDiskSize fs c)).
Proof.
  unfold UpdateOnDiskSize, same_volatile.
  destruct (GetFileSize fs _) as [s sz]. destruct (ok s); simpl; auto 10.
Qed.

Lemma Flush_volatile (fs : FsManager) (mode : FlushMode)
    (c : ConsensusMetadata) :
  same_volatile c (snd (Flush VerifyRaftConfig fs mode c)).
Proof.
  unfold Flush. destruct (Flush_write _ _ _ _) as [e | []].
  - unfold same_volatile. simpl. auto 10.
  - apply (UpdateOnDiskSize_volatile fs
             (upd_flush_count (flush_count_for_tests_ c + 1) c)).
Qed.

Lemma sync_last_known_leader_volatile (fs : FsManager) (cas : option Z)
    (c : ConsensusMetadata) :
  same_volatile c
    (snd (sync_last_known_leader VerifyRaftConfig Flush_default_mode
            fs cas c)).
Proof.
  unfold sync_last_known_leader.
  destruct (String.eqb _ _); [unfold same_volatile; auto 10 |].
  destruct (cas_term_mismatch _ _); [unfold same_volatile; auto 10 |].
  apply (Flush_volatile fs Flush_default_mode
           (upd_pb (pb_set_last_known_leader
                      (mkLastKnownLeaderPB (leader_uuid_ c) (current_term c)))
              c)).
Qed.

(** The protobuf after each call. *)
Lemma step_pb (c : ConsensusMetadata) (op : Op) :
  pb_ (step c op) =
  match op with
  | OpSetCurrentTerm t => pb_set_current_term t (pb_ c)
  | OpSetVotedFor uuid =>
      pb_populate_previous_vote_history VOTE_HISTORY_MAX_SIZE map_insert
        (mkPreviousVotePB uuid (current_term c))
        (pb_set_voted_for (Some uuid) (pb_ c))
  | OpClearVotedFor => pb_set_voted_for None (pb_ c)
  | OpSetCommittedConfig cfg | OpSetCommittedConfigRaw cfg =>
      pb_set_committed_config cfg (pb_ c)
  | OpSetActiveConfig cfg =>
      if has_pending_config_ c then pb_ c
      else pb_set_committed_config cfg (pb_ c)
  | OpSyncLastKnownLeader fs cas =>
      pb_ (snd (sync_last_known_leader VerifyRaftConfig Flush_default_mode
                  fs cas c))
  | OpMergeCommittedConsensusStatePB cs =>
      pb_set_committed_config (cstate_committed_config cs)
        (if cstate_current_term cs >? current_term c then
           pb_set_voted_for None
             (pb_set_current_term (cstate_current_term cs) (pb_ c))
         else pb_ c)
  | OpSetPendingConfig _ | OpClearPendingConfig | OpSetLeaderUuid _
  | OpFlush _ _ => pb_ c
  end.
Proof.
  destruct op; try reflexivity.
  - apply set_committed_config_pb.
  - apply set_active_config_pb.
  - apply MergeCommittedConsensusStatePB_pb.
  - apply Flush_pb.
Qed.

(** Only [set_voted_for] writes the history and [last_pruned_term]; only
    [sync_last_known_leader] writes [last_known_leader]. *)
Lemma step_history_frame (c : ConsensusMetadata) (op : Op) :
  is_set_voted_for op = false ->
  previous_vote_history (step c op) = previous_vote_history c /\
  last_pruned_term (step c op) = last_pruned_term c.
Proof.
  intros Hop. unfold previous_vote_history, last_pruned_term.
  rewrite step_pb. destruct op; try discriminate Hop; try (split; reflexivity).
  - destruct (has_pending_config_ c); split; reflexivity.
  - destruct (sync_last_known_leader_pb VerifyRaftConfig Flush_default_mode
                fs cas_term c) as [-> | ->]; split; reflexivity.
  - destruct (_ >? _); split; reflexivity.
Qed.

Lemma step_last_known_leader_frame (c : ConsensusMetadata) (op : Op) :
  is_sync_last_known_leader op = false ->
  last_known_leader (step c op) = last_known_leader c.
Proof.
  intros Hop. unfold last_known_leader.
  rewrite step_pb. destruct op; try discriminate Hop; try reflexivity.
  - exact (proj2 (proj2 (proj2 (pb_populate_frame VOTE_HISTORY_MAX_SIZE map_insert
             (mkPreviousVotePB uuid (current_term c))
             (pb_set_voted_for (Some uuid) (pb_ c)))))).
  - destruct (has_pending_config_ c); reflexivity.
  - destruct (_ >? _); reflexivity.
Qed.

End WithCollaborators.

End CMetaFrameFacts.

(* ================================================================== *)
(** ** The vote history under all mutators *)

Section VoteHistoryAllCalls.

Import KStatus CMeta CMetaInv CMetaMore VoteHistoryFacts PruneFacts CMetaFacts
  CMetaFrameFacts.

Variable GetConsensusRole : string -> string -> RaftConfigPB -> Role.
Variable VerifyRaftConfig : RaftConfigPB -> Status.
Variable Flush_default_mode : FlushMode.
Variable initial_active_role : Role.
Variable VOTE_HISTORY_MAX_SIZE : nat.
Variable map_insert : MapInsert.
Hypothesis insert_ok : map_insert_ok map_insert.

Let step :=
  step GetConsensusRole VerifyRaftConfig Flush_default_mode
    VOTE_HISTORY_MAX_SIZE map_insert.
Let run :=
  run GetConsensusRole VerifyRaftConfig Flush_default_mode
    VOTE_HISTORY_MAX_SIZE map_insert.

Lemma step_history_fits (c : ConsensusMetadata) (op : Op) :
  distinct_keys (previous_vote_history c) /\
  (size (previous_vote_history c) <= VOTE_HISTORY_MAX_SIZE)%nat ->
  distinct_keys (previous_vote_history (step c op)) /\
  (size (previous_vote_history (step c op)) <= VOTE_HISTORY_MAX_SIZE)%nat.
Proof.
  intros [Hd Hsz]. unfold step.
  destruct (is_set_voted_for op) eqn:Hop.
  - destruct op; try discriminate Hop.
    change (CMeta.step GetConsensusRole VerifyRaftConfig Flush_default_mode
              VOTE_HISTORY_MAX_SIZE map_insert c (OpSetVotedFor uuid))
      with (set_voted_for VOTE_HISTORY_MAX_SIZE map_insert uuid c).
    unfold previous_vote_history in *. rewrite set_voted_for_pb.
    split.
    + apply pb_populate_distinct; assumption.
    + pose proof (pb_populate_size VOTE_HISTORY_MAX_SIZE map_insert insert_ok
                    (mkPreviousVotePB uuid (current_term c))
                    (pb_set_voted_for (Some uuid) (pb_ c))) as H.
      simpl in H. lia.
  - destruct (step_history_frame GetConsensusRole VerifyRaftConfig
                Flush_default_mode VOTE_HISTORY_MAX_SIZE map_insert c op Hop)
      as [-> _].
    split; assumption.
Qed.

Lemma run_history_fits (ops : list Op) (c : ConsensusMetadata) :
  distinct_keys (previous_vote_history c) /\
  (size (previous_vote_history c) <= VOTE_HISTORY_MAX_SIZE)%nat ->
  distinct_keys (previous_vote_history (run ops c)) /\
  (size (previous_vote_history (run ops c)) <= VOTE_HISTORY_MAX_SIZE)%nat.
Proof.
  revert c. induction ops as [| op ops IH]; intros c H; [exact H |].
  apply (IH (step c op)). apply step_history_fits. exact H.
Qed.

(** X1.  Whatever mutators are called on a fresh object, in whatever
    order, and whatever the order in which the map iterates, the history
    holds no term twice and at most [VOTE_HISTORY_MAX_SIZE] entries. *)
Theorem vote_history_fits_under_all_calls (tablet_id peer_uuid : string)
    (ops : list Op) :
  let c :=
    run ops (ConsensusMetadata_new initial_active_role tablet_id peer_uuid)
  in
  NoDup (keys (previous_vote_history c)) /\
  (size (previous_vote_history c) <= VOTE_HISTORY_MAX_SIZE)%nat.
Proof.
  intros c. apply run_history_fits.
  split; [constructor | simpl; lia].
Qed.


End VoteHistoryAllCalls.

(* ================================================================== *)
(** ** What [set_voted_for] evicts *)

Section PrunedTerm.

Import KStatus CMeta CMetaInv CMetaMore VoteHistoryFacts PruneFacts CMetaFacts
  CMetaFrameFacts.

Variable VOTE_HISTORY_MAX_SIZE : nat.
Variable map_insert : MapInsert.
Hypothesis insert_ok : map_insert_ok map_insert.

(** X3.  Whatever the order of iteration, [set_voted_for] adds no key but
    the current term; a term above the leader term that was in the
    history or is voted in now is still in the history afterwards or is
    the [last_pruned_term] afterwards (so at most one such entry is lost,
    and [last_pruned_term] names it); and [last_pruned_term] is either
    what it was or the key of an entry that the call erased. *)
Theorem set_voted_for_last_pruned_term (uuid : string)
    (c : ConsensusMetadata) :
  NoDup (keys (previous_vote_history c)) ->
  let c' := set_voted_for VOTE_HISTORY_MAX_SIZE map_insert uuid c in
  (forall k,
      In k (keys (previous_vote_history c')) ->
      k = current_term c \/ In k (keys (previous_vote_history c))) /\
  (forall k,
      lkl_election_term (last_known_leader c) < k ->
      k = current_term c \/ In k (keys (previous_vote_history c)) ->
      In k (keys (previous_vote_history c')) \/ last_pruned_term c' = k) /\
  (last_pruned_term c' = last_pruned_term c \/
   ((last_pruned_term c' = current_term c \/
     In (last_pruned_term c') (keys (previous_vote_history c))) /\
    ~ In (last_pruned_term c') (keys (previous_vote_history c')))).
Proof.
  intros Hd c'. subst c'.
  unfold previous_vote_history, last_pruned_term, last_known_leader in *.
  rewrite set_voted_for_pb.
  set (pv := mkPreviousVotePB uuid (current_term c)).
  set (p0 := pb_set_voted_for (Some uuid) (pb_ c)).
  split; [| split].
  - intros k.
    exact (pb_populate_keys VOTE_HISTORY_MAX_SIZE map_insert insert_ok
             pv p0 k).
  - intros k.
    exact (pb_populate_evicts VOTE_HISTORY_MAX_SIZE map_insert insert_ok
             pv p0 k).
  - exact (pb_populate_last_pruned VOTE_HISTORY_MAX_SIZE map_insert
             insert_ok pv p0 Hd).
Qed.

(** X20.  Whatever the order of iteration, a vote granted while the
    history has room (fewer than [VOTE_HISTORY_MAX_SIZE] entries), in a
    term above the leader term and with no entry of that term naming
    somebody else, is on record afterwards, and the call loses no entry
    above the leader term. *)
Theorem set_voted_for_records_when_room (uuid : string)
    (c : ConsensusMetadata) :
  (size (previous_vote_history c) < VOTE_HISTORY_MAX_SIZE)%nat ->
  lkl_election_term (last_known_leader c) < current_term c ->
  no_other_vote_recorded uuid c ->
  let c' := set_voted_for VOTE_HISTORY_MAX_SIZE map_insert uuid c in
  has_voted_for c' = true /\
  voted_for c' = uuid /\
  current_term c' = current_term c /\
  (exists pv,
      find (current_term c') (previous_vote_history c') = Some pv /\
      candidate_uuid pv = voted_for c') /\
  (forall k,
      lkl_election_term (last_known_leader c) < k ->
      In k (keys (previous_vote_history c)) ->
      In k (keys (previous_vote_history c'))).
Proof.
  intros Hroom Hlt Hno c'.
  set (pv := mkPreviousVotePB uuid (current_term c)).
  set (p0 := pb_set_voted_for (Some uuid) (pb_ c)).
  assert (Hpb : pb_ c' =
                pb_populate_previous_vote_history VOTE_HISTORY_MAX_SIZE
                  map_insert pv p0) by apply set_voted_for_pb.
  clearbody c'.
  destruct (pb_populate_frame VOTE_HISTORY_MAX_SIZE map_insert pv p0)
    as [Hterm [Hvote _]].
  assert (Hv : has_voted_for c' = true)
    by (unfold has_voted_for; rewrite Hpb, Hvote; reflexivity).
  assert (Hu : voted_for c' = uuid)
    by (unfold voted_for; rewrite Hpb, Hvote; reflexivity).
  assert (Ht : current_term c' = current_term c)
    by (unfold current_term; rewrite Hpb, Hterm; reflexivity).
  split; [exact Hv |]. split; [exact Hu |]. split; [exact Ht |].
  rewrite Ht, Hu.
  unfold no_other_vote_recorded in Hno.
  unfold previous_vote_history, last_known_leader in *.
  rewrite Hpb.
  pose proof (InsertIfNotPresent_size map_insert insert_ok
                (election_term pv) pv (pb_previous_vote_history p0)) as Hsz1.
  pose proof (pb_populate_stages VOTE_HISTORY_MAX_SIZE map_insert pv p0)
    as Hst.
  cbv beta zeta in Hst.
  pose proof (erase_prefix_size
                (fst (walk_to_leader_term
                        (lkl_election_term (pb_last_known_leader p0))
                        (pb_last_pruned_term p0)
                        (InsertIfNotPresent map_insert (election_term pv) pv
                           (pb_previous_vote_history p0))))
                (InsertIfNotPresent map_insert (election_term pv) pv
                   (pb_previous_vote_history p0))) as Hsz2.
  change (pb_previous_vote_history (pb_ c))
    with (pb_previous_vote_history p0) in *.
  destruct Hst as [[_ [Hh _]] | [Hcap _]]; [| lia].
  rewrite Hh.
  split.
  - rewrite (walk_find (lkl_election_term (pb_last_known_leader p0))
               (pb_last_pruned_term p0) (current_term c) _ Hlt).
    pose proof (find_InsertIfNotPresent_same map_insert insert_ok
                  (election_term pv) pv (pb_previous_vote_history p0)) as Hf.
    change (election_term pv) with (current_term c) in Hf.
    change (election_term pv) with (current_term c).
    rewrite Hf.
    destruct (find (current_term c) (pb_previous_vote_history p0))
      as [pv0 |].
    + exists pv0. auto.
    + exists pv. auto.
  - intros k Hk Hin.
    apply (walk_keeps_above _ (pb_last_pruned_term p0) k _ Hk).
    apply (proj2 (InsertIfNotPresent_keys map_insert insert_ok
                    (election_term pv) pv (pb_previous_vote_history p0) k)).
    right. exact Hin.
Qed.

End PrunedTerm.

Section LeaderTerm.

Import KStatus CMeta CMetaInv CMetaMore CMetaFacts CMetaFrameFacts.

Variable GetConsensusRole : string -> string -> RaftConfigPB -> Role.
Variable VerifyRaftConfig : RaftConfigPB -> Status.
Variable Flush_default_mode : FlushMode.
Variable VOTE_HISTORY_MAX_SIZE : nat.
Variable map_insert : MapInsert.

Let step :=
  step GetConsensusRole VerifyRaftConfig Flush_default_mode
    VOTE_HISTORY_MAX_SIZE map_insert.
Let run :=
  run GetConsensusRole VerifyRaftConfig Flush_default_mode
    VOTE_HISTORY_MAX_SIZE map_insert.
Let term_respecting :=
  term_respecting GetConsensusRole VerifyRaftConfig Flush_default_mode
    VOTE_HISTORY_MAX_SIZE map_insert.

Lemma step_leader_term (c : ConsensusMetadata) (op : Op) :
  lkl_election_term (last_known_leader (step c op)) =
    lkl_election_term (last_known_leader c) \/
  lkl_election_term (last_known_leader (step c op)) = current_term c.
Proof.
  destruct (is_sync_last_known_leader op) eqn:Hop.
  - destruct op; try discriminate Hop.
    change (step c (OpSyncLastKnownLeader fs cas_term))
      with (snd (sync_last_known_leader VerifyRaftConfig Flush_default_mode
                   fs cas_term c)).
    unfold last_known_leader.
    destruct (sync_last_known_leader_pb VerifyRaftConfig Flush_default_mode
                fs cas_term c) as [-> | ->]; [left | right]; reflexivity.
  - left. unfold step.
    rewrite (step_last_known_leader_frame GetConsensusRole VerifyRaftConfig
               Flush_default_mode VOTE_HISTORY_MAX_SIZE map_insert c op Hop).
    reflexivity.
Qed.

(** X4.  From a state in which the leader term on record is not beyond
    the current term (a fresh object is one), along any sequence of calls
    in which no [set_current_term] lowers the term, the election term of
    [last_known_leader] never exceeds [current_term]. *)
Theorem leader_term_never_ahead (ops : list Op) (c : ConsensusMetadata) :
  leader_term_bounded c ->
  term_respecting c ops ->
  lkl_election_term (last_known_leader (run ops c))
    <= current_term (run ops c).
Proof.
  revert c. induction ops as [| op ops IH]; intros c Hb Hr.
  - exact Hb.
  - destruct Hr as [Hop Hr].
    change (run (op :: ops) c) with (run ops (step c op)).
    apply IH; [| exact Hr].
    unfold leader_term_bounded in *.
    pose proof (step_current_term GetConsensusRole VerifyRaftConfig
                  Flush_default_mode VOTE_HISTORY_MAX_SIZE map_insert c op) as Hs.
    destruct (step_leader_term c op) as [Hl | Hl]; rewrite Hl;
      unfold step in *;
      destruct op; cbv beta iota in Hs, Hop; lia.
Qed.

End LeaderTerm.

(* ================================================================== *)
(** ** Configurations and the cached role *)

Section RoleAndConfig.

Import KStatus CMeta CMetaInv CMetaMore CMetaFacts CMetaFrameFacts.

Variable GetConsensusRole : string -> string -> RaftConfigPB -> Role.
Variable VerifyRaftConfig : RaftConfigPB -> Status.
Variable Flush_default_mode : FlushMode.
Variable VOTE_HISTORY_MAX_SIZE : nat.
Variable map_insert : MapInsert.

Let step :=
  step GetConsensusRole VerifyRaftConfig Flush_default_mode
    VOTE_HISTORY_MAX_SIZE map_insert.
Let run :=
  run GetConsensusRole VerifyRaftConfig Flush_default_mode
    VOTE_HISTORY_MAX_SIZE map_insert.
Let role_current := role_current GetConsensusRole.

Lemma UpdateActiveRole_role_current (c : ConsensusMetadata) :
  role_current (UpdateActiveRole GetConsensusRole c).
Proof. reflexivity. Qed.

(** The role stays current when neither it nor what it is computed from
    changes. *)
Lemma role_current_transfer (c c' : ConsensusMetadata) :
  same_volatile c c' ->
  pb_committed_config (pb_ c') = pb_committed_config (pb_ c) ->
  role_current c -> role_current c'.
Proof.
  intros [_ [Hp [Hh [Hpc [Hl Hr]]]]] Hcc Hrc.
  unfold role_current, CMetaMore.role_current, active_role, ActiveConfig,
    pb_committed in *.
  rewrite Hr, Hp, Hl, Hh, Hpc, Hcc. exact Hrc.
Qed.


Lemma same_volatile_upd_pb (f : ConsensusMetadataPB -> ConsensusMetadataPB)
    (c : ConsensusMetadata) :
  same_volatile c (upd_pb f c).
Proof. unfold same_volatile. simpl. auto 10. Qed.

Lemma step_role_current (c : ConsensusMetadata) (op : Op) :
  is_set_committed_config_raw op = false ->
  role_current c -> role_current (step c op).
Proof.
  intros Hop Hrc. destruct op; try discriminate Hop.
  - (* set_current_term *)
    apply (role_current_transfer c); [apply same_volatile_upd_pb | | exact Hrc].
    reflexivity.
  - (* set_voted_for *)
    apply (role_current_transfer c); [| | exact Hrc].
    + unfold same_volatile. simpl. auto 10.
    + change (step c (OpSetVotedFor uuid))
        with (set_voted_for VOTE_HISTORY_MAX_SIZE map_insert uuid c).
      rewrite set_voted_for_pb.
      exact (proj1 (proj2 (proj2 (pb_populate_frame VOTE_HISTORY_MAX_SIZE map_insert
               (mkPreviousVotePB uuid (current_term c))
               (pb_set_voted_for (Some uuid) (pb_ c)))))).
  - (* clear_voted_for *)
    apply (role_current_transfer c); [apply same_volatile_upd_pb | | exact Hrc].
    reflexivity.
  - (* set_committed_config *)
    change (step c (OpSetCommittedConfig config))
      with (set_committed_config GetConsensusRole config c).
    unfold set_committed_config. simpl.
    destruct (has_pending_config_ c) eqn:Hp; simpl.
    + unfold role_current, CMetaMore.role_current, active_role, ActiveConfig
        in *. simpl. rewrite Hp in *. exact Hrc.
    + apply UpdateActiveRole_role_current.
  - apply UpdateActiveRole_role_current.
  - apply UpdateActiveRole_role_current.
  - (* set_active_config *)
    change (step c (OpSetActiveConfig config))
      with (set_active_config GetConsensusRole config c).
    unfold set_active_config, set_committed_config. simpl.
    destruct (has_pending_config_ c) eqn:Hp; simpl;
      apply UpdateActiveRole_role_current.
  - apply UpdateActiveRole_role_current.
  - (* sync_last_known_leader *)
    change (step c (OpSyncLastKnownLeader fs cas_term))
      with (snd (sync_last_known_leader VerifyRaftConfig Flush_default_mode
                   fs cas_term c)).
    apply (role_current_transfer c);
      [apply sync_last_known_leader_volatile | | exact Hrc].
    destruct (sync_last_known_leader_pb VerifyRaftConfig Flush_default_mode
                fs cas_term c) as [-> | ->]; reflexivity.
  - apply UpdateActiveRole_role_current.
  - (* Flush *)
    change (step c (OpFlush fs flush_mode))
      with (snd (Flush VerifyRaftConfig fs flush_mode c)).
    apply (role_current_transfer c); [apply Flush_volatile | | exact Hrc].
    rewrite Flush_pb. reflexivity.
Qed.

(** X5.  Once [active_role_] is what [GetConsensusRole] gives for the
    object's own uuid, its leader and its active configuration, it stays
    so under every sequence of mutators that does not contain
    [set_committed_config_raw]. *)
Theorem active_role_stays_current (ops : list Op) (c : ConsensusMetadata) :
  forallb (fun op => negb (is_set_committed_config_raw op)) ops = true ->
  active_role c =
    GetConsensusRole (peer_uuid_ c) (leader_uuid_ c) (ActiveConfig c) ->
  active_role (run ops c) =
    GetConsensusRole (peer_uuid_ (run ops c)) (leader_uuid_ (run ops c))
      (ActiveConfig (run ops c)).
Proof.
  revert c. induction ops as [| op ops IH]; intros c Hops Hrc.
  - exact Hrc.
  - simpl in Hops. apply andb_true_iff in Hops. destruct Hops as [Hop Hops].
    apply negb_true_iff in Hop.
    change (run (op :: ops) c) with (run ops (step c op)).
    apply IH; [exact Hops |]. apply step_role_current; assumption.
Qed.

(** X6.  [set_active_config] writes the slot that is active: afterwards
    the active configuration is the argument and the role is current; with
    a pending configuration the committed one is left as it was, without
    one the committed configuration is replaced and none becomes
    pending. *)
Theorem set_active_config_overlay (config : RaftConfigPB)
    (c : ConsensusMetadata) :
  let c' := set_active_config GetConsensusRole config c in
  ActiveConfig c' = config /\
  has_pending_config c' = has_pending_config c /\
  (if has_pending_config c then
     PendingConfig c' = Some config /\ pb_ c' = pb_ c
   else CommittedConfig c' = config /\ PendingConfig c' = None) /\
  active_role c' =
    GetConsensusRole (peer_uuid_ c) (leader_uuid_ c) config.
Proof.
  intros c'. subst c'.
  unfold set_active_config, set_committed_config, set_pending_config,
    has_pending_config, PendingConfig, CommittedConfig, GetConfig,
    ActiveConfig, active_role.
  destruct (has_pending_config_ c) eqn:Hp; simpl; rewrite ?Hp; simpl;
    unfold ActiveConfig; simpl; rewrite ?Hp; repeat split.
Qed.

Let Merge := MergeCommittedConsensusStatePB GetConsensusRole.

(** [MergeCommittedConsensusStatePB], field by field. *)
Lemma Merge_fields (cs : ConsensusStatePB) (c : ConsensusMetadata) :
  Merge cs c =
  mkConsensusMetadata (tablet_id_ c) (peer_uuid_ c) false
    RaftConfigPB_default EmptyString
    (GetConsensusRole (peer_uuid_ c) EmptyString
       (cstate_committed_config cs))
    (flush_count_for_tests_ c) (on_disk_size_ c)
    (pb_set_committed_config (cstate_committed_config cs)
       (if cstate_current_term cs >? current_term c then
          pb_set_voted_for None
            (pb_set_current_term (cstate_current_term cs) (pb_ c))
        else pb_ c)).
Proof.
  destruct c as [tid pid hp pc lu ar fc ods p].
  unfold Merge, MergeCommittedConsensusStatePB.
  destruct (_ >? _); destruct hp; reflexivity.
Qed.

(** X7.  Merging the same consensus state a second time changes nothing,
    and the state exported after a merge carries the larger of the two
    terms, the merged committed configuration, no leader and no pending
    configuration. *)
Theorem MergeCommittedConsensusStatePB_idempotent (cs : ConsensusStatePB)
    (c : ConsensusMetadata) :
  Merge cs (Merge cs c) = Merge cs c /\
  ToConsensusStatePB (Merge cs c) =
    mkConsensusStatePB
      (Some (Z.max (current_term c) (cstate_current_term cs))) None
      (Some (cstate_committed_config cs)) None.
Proof.
  rewrite (Merge_fields cs (Merge cs c)).
  rewrite (Merge_fields cs c).
  set (t := cstate_current_term cs).
  set (gt := t >? current_term c).
  assert (Ht : current_term c <= t /\ gt = true \/
               t <= current_term c /\ gt = false).
  { unfold gt. destruct (Z.gtb_spec t (current_term c)); [left | right];
      split; try reflexivity; lia. }
  cbn [tablet_id_ peer_uuid_ flush_count_for_tests_ on_disk_size_ pb_].
  split.
  - f_equal.
    assert (Hc : (t >?
                  current_term
                    (mkConsensusMetadata (tablet_id_ c) (peer_uuid_ c) false
                       RaftConfigPB_default EmptyString
                       (GetConsensusRole (peer_uuid_ c) EmptyString
                          (cstate_committed_config cs))
                       (flush_count_for_tests_ c) (on_disk_size_ c)
                       (pb_set_committed_config (cstate_committed_config cs)
                          (if gt
                           then pb_set_voted_for None
                                  (pb_set_current_term t (pb_ c))
                           else pb_ c)))) = false).
    { unfold current_term at 1. cbn [pb_].
      destruct Ht as [[Hle ->] | [Hle ->]]; cbn [pb_set_committed_config
        pb_set_voted_for pb_set_current_term pb_current_term].
      - destruct (Z.gtb_spec t t); [lia | reflexivity].
      - fold (current_term c).
        destruct (Z.gtb_spec t (current_term c)); [lia | reflexivity]. }
    rewrite Hc. reflexivity.
  - unfold ToConsensusStatePB, CommittedConfig, pb_committed.
    cbn [leader_uuid_ has_pending_config_ pb_ String.eqb].
    f_equal.
    + f_equal. unfold current_term at 1. cbn [pb_].
      destruct Ht as [[Hle ->] | [Hle ->]]; cbn [pb_set_committed_config
        pb_set_voted_for pb_set_current_term pb_current_term].
      * lia.
      * fold (current_term c). lia.
Qed.

End RoleAndConfig.

(* ================================================================== *)
(** ** Flush, Create and Load *)

Section FlushCreateLoad.

Import KStatus CMeta CMetaInv CMetaMore CMetaFacts CMetaFrameFacts.

Variable GetConsensusRole : string -> string -> RaftConfigPB -> Role.
Variable VerifyRaftConfig : RaftConfigPB -> Status.
Variable initial_active_role : Role.

Let Flush := Flush VerifyRaftConfig.

Lemma ok_CloneAndPrepend (m : string) (s : Status) :
  ok (CloneAndPrepend m s) = ok s.
Proof.
  unfold CloneAndPrepend. destruct (ok s) eqn:E; [exact E |].
  destruct (message s); exact E.
Qed.

Lemma code_CloneAndPrepend (m : string) (s : Status) :
  code (CloneAndPrepend m s) = code s.
Proof.
  unfold CloneAndPrepend. destruct (ok s); [reflexivity |].
  destruct (message s); reflexivity.
Qed.

(** X8.  [Flush] checks the committed configuration before it goes to the
    file system: when [VerifyRaftConfig] rejects the configuration, the
    result is that status with the message prefixed, whatever the file
    system would answer, and the object only has its flush counter
    raised. *)
Theorem Flush_rejects_invalid_config (fs : FsManager) (mode : FlushMode)
    (c : ConsensusMetadata) :
  ok (VerifyRaftConfig (pb_committed c)) = false ->
  Flush fs mode c =
    (CloneAndPrepend
       "Invalid config in ConsensusMetadata, cannot flush to disk"
       (VerifyRaftConfig (pb_committed c)),
     upd_flush_count (flush_count_for_tests_ c + 1) c) /\
  code (fst (Flush fs mode c)) = code (VerifyRaftConfig (pb_committed c)) /\
  on_disk_size_ (snd (Flush fs mode c)) = on_disk_size_ c.
Proof.
  intros Hv.
  assert (H : Flush fs mode c =
              (CloneAndPrepend
                 "Invalid config in ConsensusMetadata, cannot flush to disk"
                 (VerifyRaftConfig (pb_committed c)),
               upd_flush_count (flush_count_for_tests_ c + 1) c)).
  { unfold Flush, CMeta.Flush, Flush_write, check_prepend, bind.
    change (pb_committed (upd_flush_count (flush_count_for_tests_ c + 1) c))
      with (pb_committed c).
    rewrite Hv. reflexivity. }
  rewrite H. split; [reflexivity |]. split; [| reflexivity].
  apply code_CloneAndPrepend.
Qed.

(** The outcomes of [Flush], case by case. *)
Lemma Flush_cases (fs : FsManager) (mode : FlushMode)
    (c : ConsensusMetadata) :
  let r := Flush fs mode c in
  let path := GetConsensusMetadataPath fs (tablet_id_ c) in
  ok (fst r) = flush_steps_ok VerifyRaftConfig fs mode c /\
  (ok (fst r) = true ->
   fst r = OK /\ on_disk_size_ (snd r) = snd (GetFileSize fs path)) /\
  (ok (fst r) = false -> on_disk_size_ (snd r) = on_disk_size_ c) /\
  pb_ (snd r) = pb_ c /\
  same_volatile c (snd r) /\
  flush_count_for_tests_ (snd r) = flush_count_for_tests_ c + 1.
Proof.
  intros r path.
  assert (Hframe : pb_ (snd r) = pb_ c /\ same_volatile c (snd r) /\
                   flush_count_for_tests_ (snd r)
                   = flush_count_for_tests_ c + 1).
  { split; [apply Flush_pb |]. split; [apply Flush_volatile |].
    apply Flush_flush_count. }
  assert (Hmain :
    ok (fst r) = flush_steps_ok VerifyRaftConfig fs mode c /\
    (ok (fst r) = true ->
     fst r = OK /\ on_disk_size_ (snd r) = snd (GetFileSize fs path)) /\
    (ok (fst r) = false -> on_disk_size_ (snd r) = on_disk_size_ c)).
  { subst r path.
    unfold Flush, CMeta.Flush, Flush_write, flush_steps_ok, UpdateOnDiskSize,
      check_prepend, bind, ret.
    change (pb_committed (upd_flush_count (flush_count_for_tests_ c + 1) c))
      with (pb_committed c).
    change (tablet_id_ (upd_flush_count (flush_count_for_tests_ c + 1) c))
      with (tablet_id_ c).
    change (pb_ (upd_flush_count (flush_count_for_tests_ c + 1) c))
      with (pb_ c).
    destruct (ok (VerifyRaftConfig (pb_committed c))) eqn:Hv;
      [| simpl; rewrite ok_CloneAndPrepend, Hv;
         repeat split; intros; discriminate].
    destruct (CreateDirIfMissing fs (GetConsensusMetadataDir fs))
      as [s1 created]. cbn [fst snd andb].
    destruct (ok s1) eqn:H1;
      [| simpl; rewrite ok_CloneAndPrepend, H1;
         repeat split; intros; discriminate].
    cbn [andb].
    assert (Hrest :
      forall pre : bool,
        let r :=
          match
            (if ok (WritePBContainerToPath fs
                      (GetConsensusMetadataPath fs (tablet_id_ c)) (pb_ c)
                      mode)
             then inr tt
             else inl (CloneAndPrepend
                    ("Unable to write consensus meta file for tablet "
                     ++ tablet_id_ c ++ " to path "
                     ++ GetConsensusMetadataPath fs (tablet_id_ c))%string
                    (WritePBContainerToPath fs
                       (GetConsensusMetadataPath fs (tablet_id_ c)) (pb_ c)
                       mode)))
          with
          | inl e => (e, upd_flush_count (flush_count_for_tests_ c + 1) c)
          | inr _ =>
              let '(s, on_disk_size) :=
                GetFileSize fs (GetConsensusMetadataPath fs (tablet_id_ c)) in
              if ok s
              then (OK, upd_on_disk_size on_disk_size
                          (upd_flush_count (flush_count_for_tests_ c + 1) c))
              else (s, upd_flush_count (flush_count_for_tests_ c + 1) c)
          end in
        ok (fst r) =
          ok (WritePBContainerToPath fs
                (GetConsensusMetadataPath fs (tablet_id_ c)) (pb_ c) mode) &&
          ok (fst (GetFileSize fs
                     (GetConsensusMetadataPath fs (tablet_id_ c)))) /\
        (ok (fst r) = true ->
         fst r = OK /\
         on_disk_size_ (snd r) =
           snd (GetFileSize fs (GetConsensusMetadataPath fs (tablet_id_ c))))
        /\
        (ok (fst r) = false -> on_disk_size_ (snd r) = on_disk_size_ c)).
    { intros _.
      destruct (ok (WritePBContainerToPath fs _ (pb_ c) mode)) eqn:Hw.
      - destruct (GetFileSize fs _) as [s4 sz]. cbn [fst snd andb].
        destruct (ok s4) eqn:H4; cbn [fst snd].
        + repeat split. intros; discriminate.
        + rewrite H4. repeat split; intros; discriminate.
      - cbn [fst snd andb]. rewrite ok_CloneAndPrepend, Hw.
        repeat split; intros; discriminate. }
    destruct created.
    - destruct (ok (SyncDir fs (DirName fs (GetConsensusMetadataDir fs))))
        eqn:H2.
      + cbn [andb]. apply (Hrest true).
      + simpl. rewrite ok_CloneAndPrepend, H2.
        repeat split; intros; discriminate.
    - cbn [andb]. apply (Hrest true). }
  destruct Hmain as [A [B C]]. destruct Hframe as [D [E F]].
  exact (conj A (conj B (conj C (conj D (conj E F))))).
Qed.

(** X9.  [Flush] returns OK exactly when every step it reaches succeeds
    (the configuration check, the directory creation, the parent fsync if
    the directory was created, the write and the size query), and then
    [on_disk_size_] is the size the file system reports; on any failure
    [on_disk_size_] is left as it was.  In every case the flush counter
    goes up by one and nothing else in the object changes. *)
Theorem Flush_outcome (fs : FsManager) (mode : FlushMode)
    (c : ConsensusMetadata) :
  let r := Flush fs mode c in
  let path := GetConsensusMetadataPath fs (tablet_id_ c) in
  ok (fst r) = flush_steps_ok VerifyRaftConfig fs mode c /\
  (ok (fst r) = true ->
   fst r = OK /\ on_disk_size_ (snd r) = snd (GetFileSize fs path)) /\
  (ok (fst r) = false -> on_disk_size_ (snd r) = on_disk_size_ c) /\
  pb_ (snd r) = pb_ c /\
  same_volatile c (snd r) /\
  flush_count_for_tests_ (snd r) = flush_count_for_tests_ c + 1.
Proof. exact (Flush_cases fs mode c). Qed.


Variable ReadPBContainerFromPath : string -> Status * ConsensusMetadataPB.


End FlushCreateLoad.

(* ================================================================== *)
(** ** Lookups in the active configuration *)

Section ConfigLookups.

Import KStatus CMeta CMetaMore.

Lemma first_addr_of_sound (uuid : string) (ps : list RaftPeerPB)
    (hp : HostPortPB) :
  first_addr_of uuid ps = Some hp ->
  exists peer,
    In peer ps /\ permanent_uuid peer = uuid /\
    last_known_addr peer = Some hp.
Proof.
  induction ps as [| p rest IH]; simpl; [discriminate |].
  destruct (String.eqb (permanent_uuid p) uuid) eqn:He.
  - destruct (last_known_addr p) as [a |] eqn:Ha.
    + intros H. injection H as <-. exists p.
      apply String.eqb_eq in He. auto.
    + intros H. destruct (IH H) as [q [Hq1 Hq2]]. exists q. auto.
  - intros H. destruct (IH H) as [q [Hq1 Hq2]]. exists q. auto.
Qed.

Lemma first_addr_of_first (uuid : string) (pre post : list RaftPeerPB)
    (peer : RaftPeerPB) (hp : HostPortPB) :
  (forall q, In q pre ->
     permanent_uuid q <> uuid \/ last_known_addr q = None) ->
  permanent_uuid peer = uuid ->
  last_known_addr peer = Some hp ->
  first_addr_of uuid (pre ++ peer :: post) = Some hp.
Proof.
  intros Hpre Hu Ha. induction pre as [| q pre IH]; simpl.
  - rewrite Hu, String.eqb_refl, Ha. reflexivity.
  - assert (IH' := IH (fun x Hx => Hpre x (or_intror Hx))).
    destruct (Hpre q (or_introl eq_refl)) as [Hq | Hq].
    + apply String.eqb_neq in Hq. rewrite Hq. exact IH'.
    + rewrite Hq. destruct (String.eqb _ _); exact IH'.
Qed.

Lemma first_addr_of_none (uuid : string) (ps : list RaftPeerPB) :
  first_addr_of uuid ps = None <->
  (forall q, In q ps -> permanent_uuid q = uuid -> last_known_addr q = None).
Proof.
  induction ps as [| p rest IH]; simpl.
  - split; [intros _ q [] | reflexivity].
  - destruct (String.eqb (permanent_uuid p) uuid) eqn:He.
    + destruct (last_known_addr p) as [a |] eqn:Ha.
      * split; [discriminate |]. intros H.
        apply String.eqb_eq in He.
        specialize (H p (or_introl eq_refl) He). congruence.
      * rewrite IH. split.
        -- intros H q [<- | Hq] Hu; [exact Ha | auto].
        -- intros H q Hq. apply H. right. exact Hq.
    + apply String.eqb_neq in He. rewrite IH. split.
      * intros H q [<- | Hq] Hu; [contradiction | auto].
      * intros H q Hq. apply H. right. exact Hq.
Qed.

(** X12.  [leader_hostport] returns the address of the first peer of the
    active configuration that carries [leader_uuid] and has a last known
    address (a peer with that uuid and no address is passed over), and
    the pair of the empty host and port 0 exactly when there is no such
    peer. *)
Theorem leader_hostport_spec (c : ConsensusMetadata) :
  (forall pre peer post hp,
      peers (ActiveConfig c) = pre ++ peer :: post ->
      (forall q, In q pre ->
         permanent_uuid q <> leader_uuid c \/ last_known_addr q = None) ->
      permanent_uuid peer = leader_uuid c ->
      last_known_addr peer = Some hp ->
      leader_hostport c = (host hp, port hp)) /\
  ((forall q, In q (peers (ActiveConfig c)) ->
      permanent_uuid q = leader_uuid c -> last_known_addr q = None) ->
   leader_hostport c = (EmptyString, 0)) /\
  (leader_hostport c <> (EmptyString, 0) ->
   exists peer hp,
     In peer (peers (ActiveConfig c)) /\
     permanent_uuid peer = leader_uuid c /\
     last_known_addr peer = Some hp /\
     leader_hostport c = (host hp, port hp)).
Proof.
  unfold leader_hostport, leader_uuid. split; [| split].
  - intros pre peer post hp Hp Hpre Hu Ha.
    rewrite Hp, (first_addr_of_first _ pre post peer hp Hpre Hu Ha).
    reflexivity.
  - intros H. apply first_addr_of_none in H. rewrite H. reflexivity.
  - destruct (first_addr_of (leader_uuid_ c) (peers (ActiveConfig c)))
      as [hp |] eqn:E.
    + intros _. destruct (first_addr_of_sound _ _ _ E) as [p [H1 [H2 H3]]].
      exists p, hp. auto.
    + intros H. exfalso. apply H. reflexivity.
Qed.

Lemma first_peer_with_sound (uuid : string) (ps : list RaftPeerPB)
    (peer : RaftPeerPB) :
  first_peer_with uuid ps = Some peer ->
  In peer ps /\ permanent_uuid peer = uuid.
Proof.
  induction ps as [| p rest IH]; simpl; [discriminate |].
  destruct (String.eqb (permanent_uuid p) uuid) eqn:He.
  - intros H. injection H as <-. apply String.eqb_eq in He. auto.
  - intros H. destruct (IH H). auto.
Qed.

Lemma first_peer_with_none (uuid : string) (ps : list RaftPeerPB) :
  first_peer_with uuid ps = None ->
  forall q, In q ps -> permanent_uuid q <> uuid.
Proof.
  induction ps as [| p rest IH]; simpl; [intros _ q [] |].
  destruct (String.eqb (permanent_uuid p) uuid) eqn:He; [discriminate |].
  intros H q [<- | Hq]; [apply String.eqb_neq; exact He | auto].
Qed.

Lemma first_peer_with_first (uuid : string) (pre post : list RaftPeerPB)
    (peer : RaftPeerPB) :
  (forall q, In q pre -> permanent_uuid q <> uuid) ->
  permanent_uuid peer = uuid ->
  first_peer_with uuid (pre ++ peer :: post) = Some peer.
Proof.
  intros Hpre Hu. induction pre as [| q pre IH]; simpl.
  - rewrite Hu, String.eqb_refl. reflexivity.
  - replace (String.eqb (permanent_uuid q) uuid) with false
      by (symmetry; apply String.eqb_neq; apply Hpre; left; reflexivity).
    apply IH. intros x Hx. apply Hpre. right. exact Hx.
Qed.

(** X13.  [GetConfigMemberCopy] returns OK with a copy of the first peer
    of the active configuration that carries the uuid, and NotFound,
    writing nothing, exactly when no peer of the active configuration
    carries it. *)
Theorem GetConfigMemberCopy_spec (uuid : string) (c : ConsensusMetadata) :
  (forall pre peer post,
      peers (ActiveConfig c) = pre ++ peer :: post ->
      (forall q, In q pre -> permanent_uuid q <> uuid) ->
      permanent_uuid peer = uuid ->
      GetConfigMemberCopy uuid c = (OK, Some peer)) /\
  (forall peer, snd (GetConfigMemberCopy uuid c) = Some peer ->
     fst (GetConfigMemberCopy uuid c) = OK /\
     In peer (peers (ActiveConfig c)) /\ permanent_uuid peer = uuid) /\
  ((forall q, In q (peers (ActiveConfig c)) -> permanent_uuid q <> uuid) <->
   (code (fst (GetConfigMemberCopy uuid c)) = kNotFound /\
    snd (GetConfigMemberCopy uuid c) = None)).
Proof.
  unfold GetConfigMemberCopy. split; [| split].
  - intros pre peer post Hp Hpre Hu.
    rewrite Hp, (first_peer_with_first _ pre post peer Hpre Hu). reflexivity.
  - intros peer.
    destruct (first_peer_with uuid (peers (ActiveConfig c))) as [p |] eqn:E;
      simpl; [| discriminate].
    intros H. injection H as <-.
    destruct (first_peer_with_sound _ _ _ E). auto.
  - destruct (first_peer_with uuid (peers (ActiveConfig c))) as [p |] eqn:E;
      simpl.
    + destruct (first_peer_with_sound _ _ _ E) as [Hin Hu]. split.
      * intros H. exfalso. apply (H p Hin Hu).
      * intros [H _]. discriminate H.
    + split; [auto |]. intros _. apply first_peer_with_none. exact E.
Qed.

End ConfigLookups.

(* ================================================================== *)
(** ** The removed-peers list *)

Section RemovedPeersFacts.

Import KStatus CMeta CMetaMore.

Lemma lastn_all {A : Type} (n : nat) (l : list A) :
  (List.length l <= n)%nat -> lastn n l = l.
Proof.
  intros H. unfold lastn.
  replace (List.length l - n)%nat with O by lia. reflexivity.
Qed.

Lemma length_lastn {A : Type} (n : nat) (l : list A) :
  List.length (lastn n l) = Nat.min n (List.length l).
Proof. unfold lastn. rewrite length_skipn. lia. Qed.

Lemma lastn_app {A : Type} (n : nat) (l1 l2 : list A) :
  lastn n (l1 ++ l2) =
  skipn (List.length l1 + List.length l2 - n) l1 ++ lastn n l2.
Proof.
  unfold lastn. rewrite length_app, skipn_app. f_equal. f_equal. lia.
Qed.

Lemma lastn_lastn_app {A : Type} (n : nat) (l1 l2 : list A) :
  lastn n (lastn n l1 ++ l2) = lastn n (l1 ++ l2).
Proof.
  rewrite !lastn_app. f_equal. unfold lastn.
  rewrite skipn_skipn, length_skipn. f_equal. lia.
Qed.

Lemma lastn_snoc_full {A : Type} (n : nat) (x y : A) (l : list A) :
  List.length (x :: l) = n -> l ++ [y] = lastn n ((x :: l) ++ [y]).
Proof.
  intros H. unfold lastn. rewrite length_app. simpl List.length.
  replace (S (List.length l) + 1 - n)%nat with 1%nat by (simpl in H; lia).
  reflexivity.
Qed.

Variable IsRaftConfigMember : string -> RaftConfigPB -> bool.
Variable max_removed_peers : nat.
Hypothesis capacity_positive : (1 <= max_removed_peers)%nat.

Let Insert := InsertIntoRemovedPeersList IsRaftConfigMember max_removed_peers.
Let IsPeerRemoved := IsPeerRemoved IsRaftConfigMember.

(** The uuids of a list that are not members of the active
    configuration. *)
Let outsiders (c : ConsensusMetadata) (l : list string) : list string :=
  filter (fun u => negb (IsRaftConfigMember u (ActiveConfig c))) l.

Lemma Insert_closed_form (c : ConsensusMetadata) (input q : list string) :
  (List.length q <= max_removed_peers)%nat ->
  Insert c input q = Some (lastn max_removed_peers (q ++ outsiders c input)).
Proof.
  unfold Insert, outsiders.
  revert q. induction input as [| u rest IH]; intros q Hq.
  - simpl. rewrite app_nil_r, lastn_all by exact Hq. reflexivity.
  - cbn [InsertIntoRemovedPeersList filter].
    destruct (IsRaftConfigMember u (ActiveConfig c)) eqn:Hm; cbn [negb].
    + apply IH. exact Hq.
    + destruct (Nat.eqb (List.length q) max_removed_peers) eqn:Hfull.
      * apply Nat.eqb_eq in Hfull.
        destruct q as [| x q']; [simpl in Hfull; lia |].
        cbn [pop_front].
        rewrite IH by (rewrite length_app; simpl in *; lia).
        f_equal. rewrite (lastn_snoc_full max_removed_peers x u q' Hfull).
        rewrite lastn_lastn_app, <- app_assoc. reflexivity.
      * apply Nat.eqb_neq in Hfull.
        rewrite IH by (rewrite length_app; simpl; lia).
        rewrite <- app_assoc. reflexivity.
Qed.

Lemma In_lastn {A : Type} (n : nat) (l : list A) (x : A) :
  In x (lastn n l) -> In x l.
Proof.
  unfold lastn. intros H. rewrite <- (firstn_skipn (List.length l - n) l).
  apply in_or_app. right. exact H.
Qed.

(** X14.  With room for at least one uuid and a list within its capacity,
    [InsertIntoRemovedPeersList] leaves the last [max_removed_peers] uuids
    of the old list followed by those inserted uuids that are not members
    of the active configuration: the capacity is kept, the oldest entries
    go first, no member of the active configuration is added.  Afterwards
    [IsPeerRemoved] holds of each of the last [max_removed_peers]
    non-members inserted, and it only ever holds of a uuid that is in the
    list and not a member of the active configuration. *)
Theorem InsertIntoRemovedPeersList_spec (c : ConsensusMetadata)
    (input q : list string) :
  (List.length q <= max_removed_peers)%nat ->
  exists q',
    Insert c input q = Some q' /\
    q' = lastn max_removed_peers (q ++ outsiders c input) /\
    (List.length q' <= max_removed_peers)%nat /\
    (forall u, In u q' ->
       In u q \/
       (In u input /\ IsRaftConfigMember u (ActiveConfig c) = false)) /\
    (forall u, In u (lastn max_removed_peers (outsiders c input)) ->
       IsPeerRemoved u c q' = true) /\
    (forall u, IsPeerRemoved u c q' = true ->
       In u q' /\ IsRaftConfigMember u (ActiveConfig c) = false).
Proof.
  intros Hq. eexists. split; [apply Insert_closed_form; exact Hq |].
  split; [reflexivity |].
  set (q' := lastn max_removed_peers (q ++ outsiders c input)).
  assert (Hremoved : forall u, IsPeerRemoved u c q' = true ->
            In u q' /\ IsRaftConfigMember u (ActiveConfig c) = false).
  { intros u H. unfold IsPeerRemoved, CMetaMore.IsPeerRemoved in H.
    destruct (IsRaftConfigMember u (ActiveConfig c)); [discriminate |].
    apply existsb_exists in H. destruct H as [x [Hx He]].
    apply String.eqb_eq in He. subst x. auto. }
  split; [unfold q'; rewrite length_lastn; lia |].
  split; [| split; [| exact Hremoved]].
  - intros u Hu. apply In_lastn in Hu. apply in_app_or in Hu.
    destruct Hu as [Hu | Hu]; [left; exact Hu |]. right.
    unfold outsiders in Hu. apply filter_In in Hu. destruct Hu as [Hi Hm].
    apply negb_true_iff in Hm. auto.
  - intros u Hu. unfold IsPeerRemoved, CMetaMore.IsPeerRemoved.
    assert (Hm : IsRaftConfigMember u (ActiveConfig c) = false).
    { apply In_lastn in Hu. unfold outsiders in Hu.
      apply filter_In in Hu. destruct Hu as [_ Hm].
      apply negb_true_iff in Hm. exact Hm. }
    rewrite Hm. apply existsb_exists. exists u.
    split; [| apply String.eqb_refl].
    unfold q'. rewrite lastn_app. apply in_or_app. right. exact Hu.
Qed.

End RemovedPeersFacts.

(* ================================================================== *)
(** ** The buffer across calls *)

Section BufferSequences.

Import KStatus PeerBuffer PeerBufferMore ContiguityFacts.

Variable FLAGS_max_buffer_fill_size_bytes : Z.
Variable FLAGS_consensus_max_batch_size_bytes : Z.
Variable resetBuffer_default_for_proxy : bool.
Variable resetBuffer_default_last_index : Z.
Variable BufferData_default_bytes_buffered : Z.
Variable LogCache : Type.
Variable ReadOps :
  LogCache -> Z -> Z -> ReadContext -> list ReplicateMsg ->
  ReadOpsStatus * list ReplicateMsg.

Let readFromCache :=
  readFromCache FLAGS_max_buffer_fill_size_bytes
    FLAGS_consensus_max_batch_size_bytes resetBuffer_default_for_proxy
    resetBuffer_default_last_index LogCache ReadOps.
Let fill_size :=
  fill_size FLAGS_max_buffer_fill_size_bytes
    FLAGS_consensus_max_batch_size_bytes.
Let moveDataAndReset := moveDataAndReset BufferData_default_bytes_buffered.
Let step :=
  step FLAGS_max_buffer_fill_size_bytes FLAGS_consensus_max_batch_size_bytes
    resetBuffer_default_for_proxy resetBuffer_default_last_index
    BufferData_default_bytes_buffered LogCache ReadOps.
Let run :=
  run FLAGS_max_buffer_fill_size_bytes FLAGS_consensus_max_batch_size_bytes
    resetBuffer_default_for_proxy resetBuffer_default_last_index
    BufferData_default_bytes_buffered LogCache ReadOps.

(** X15.  [moveDataAndReset] returns the buffered messages with their
    [preceding_opid] and leaves an empty buffer that keeps [last_buffered]
    and the proxy flag: [appendMessage] answers every message after the
    hand-off as it would have before it.  A second hand-off right away
    returns no message and the default [preceding_opid]. *)
Theorem moveDataAndReset_keeps_position (b : BufferData) :
  let out := fst (moveDataAndReset b) in
  let b' := snd (moveDataAndReset b) in
  getData (OK, out) = (msg_buffer_refs b, preceding_opid b) /\
  last_buffered out = last_buffered b /\
  buffered_for_proxying out = buffered_for_proxying b /\
  msg_buffer_refs b' = [] /\
  last_buffered b' = last_buffered b /\
  buffered_for_proxying b' = buffered_for_proxying b /\
  bytes_buffered b' = 0 /\
  (forall m, fst (appendMessage m b') = fst (appendMessage m b)) /\
  getData (OK, fst (moveDataAndReset b')) = ([], OpId_default) /\
  snd (moveDataAndReset b') = b'.
Proof.
  intros out b'. subst out b'.
  unfold moveDataAndReset, PeerBufferMore.moveDataAndReset, getData,
    resetBuffer.
  cbn [fst snd msg_buffer_refs last_buffered preceding_opid
       buffered_for_proxying bytes_buffered].
  repeat split.
  intros [m |]; [| reflexivity]. unfold appendMessage.
  cbn [last_buffered]. destruct (negb _); reflexivity.
Qed.

Lemma step_bytes_buffered (b : BufferData) (op : Op LogCache) :
  bytes_buffered (step b op) = bytes_buffered b \/
  bytes_buffered (step b op) = 0.
Proof.
  destruct op as [m | ctx cache | for_proxy last_index |].
  - change (step b (OpAppendMessage LogCache m))
      with (snd (appendMessage m b)).
    unfold appendMessage. destruct m as [m |]; [| left; reflexivity].
    destruct (negb _); left; reflexivity.
  - change (step b (OpReadFromCache LogCache ctx cache))
      with (snd (readFromCache ctx cache b)).
    unfold readFromCache, PeerBuffer.readFromCache.
    destruct (ReadOps cache _ _ ctx _) as [s refs].
    destruct (ok (status s)).
    + destruct (rev refs); destruct (stopped_early s); left; reflexivity.
    + destruct (negb _); [right | left]; reflexivity.
  - right. reflexivity.
  - right. reflexivity.
Qed.

(** X16.  No call on the buffer ever adds to [bytes_buffered]: after any
    sequence of [appendMessage], [readFromCache], [resetBuffer] and
    [moveDataAndReset] it is what it was at the start or 0.  So once it is
    0 it stays 0, and the byte limit passed to the log cache stays the same,
    however much is buffered. *)
Theorem bytes_buffered_never_grows (ops : list (Op LogCache))
    (b : BufferData) :
  (bytes_buffered (run ops b) = bytes_buffered b \/
   bytes_buffered (run ops b) = 0) /\
  (bytes_buffered b = 0 ->
   bytes_buffered (run ops b) = 0 /\
   fill_size (run ops b) = fill_size b).
Proof.
  assert (H : forall ops b,
             bytes_buffered (run ops b) = bytes_buffered b \/
             bytes_buffered (run ops b) = 0).
  { clear ops b. induction ops as [| op ops IH]; intros b.
    - left. reflexivity.
    - change (run (op :: ops) b) with (run ops (step b op)).
      destruct (IH (step b op)) as [H | H]; [| right; exact H].
      rewrite H. apply step_bytes_buffered. }
  split; [apply H |]. intros H0.
  assert (Hz : bytes_buffered (run ops b) = 0)
    by (destruct (H ops b) as [Hb | Hb]; [rewrite Hb; exact H0 | exact Hb]).
  split; [exact Hz |].
  unfold fill_size, PeerBuffer.fill_size. rewrite Hz, H0. reflexivity.
Qed.

Lemma run_appends (ops : list (Op LogCache)) (b : BufferData) :
  forallb (is_append LogCache) ops = true ->
  Int64.min_signed <= last_buffered b ->
  last_buffered b + Z.of_nat (List.length ops) <= Int64.max_signed ->
  exists accepted,
    msg_buffer_refs (run ops b) = msg_buffer_refs b ++ accepted /\
    map (fun m => index (id m)) accepted =
      range_from (last_buffered b + 1) (List.length accepted) /\
    last_buffered (run ops b) =
      last_buffered b + Z.of_nat (List.length accepted) /\
    (List.length accepted <= List.length ops)%nat /\
    (forall m, In m accepted -> In (OpAppendMessage LogCache (Some m)) ops).
Proof.
  revert b. induction ops as [| op ops IH]; intros b Hops Hlo Hhi.
  - exists []. simpl. rewrite app_nil_r. repeat split; [lia | lia |].
    intros m [].
  - simpl in Hops. apply andb_true_iff in Hops. destruct Hops as [Hop Hops].
    destruct op as [m | | |]; try discriminate Hop.
    change (run (OpAppendMessage LogCache m :: ops) b)
      with (run ops (snd (appendMessage m b))).
    assert (Hlen : Z.of_nat (List.length (OpAppendMessage LogCache m :: ops))
                   = Z.of_nat (List.length ops) + 1)
      by (simpl List.length; lia).
    rewrite Hlen in Hhi.
    assert (Hsame : forall b0, b0 = b ->
              exists accepted,
                msg_buffer_refs (run ops b0) = msg_buffer_refs b ++ accepted /\
                map (fun m => index (id m)) accepted =
                  range_from (last_buffered b + 1) (List.length accepted) /\
                last_buffered (run ops b0) =
                  last_buffered b + Z.of_nat (List.length accepted) /\
                (List.length accepted
                 <= List.length (OpAppendMessage LogCache m :: ops))%nat /\
                (forall m', In m' accepted ->
                   In (OpAppendMessage LogCache (Some m'))
                     (OpAppendMessage LogCache m :: ops))).
    { intros b0 ->. destruct (IH b Hops Hlo) as [acc [A [B [C [D E]]]]];
        [lia |].
      exists acc. repeat split; try assumption.
      - simpl List.length. lia.
      - intros m' Hm'. right. apply E. exact Hm'. }
    unfold appendMessage. destruct m as [m |]; [| apply Hsame; reflexivity].
    rewrite Int64Facts.succ_no_overflow by (unfold Int64.max_signed in *; lia).
    destruct (index (id m) =? last_buffered b + 1) eqn:He;
      [| apply Hsame; reflexivity].
    apply Z.eqb_eq in He. cbn [negb snd].
    set (b1 := mkBufferData _ _ _ _ _).
    destruct (IH b1 Hops) as [acc [A [B [C [D E]]]]].
    + unfold b1. cbn [last_buffered]. lia.
    + unfold b1. cbn [last_buffered]. lia.
    + exists (m :: acc).
      assert (Hr : msg_buffer_refs b1 = msg_buffer_refs b ++ [m])
        by reflexivity.
      assert (Hl : last_buffered b1 = index (id m)) by reflexivity.
      rewrite Hr in A. rewrite Hl in B, C.
      repeat split.
      * rewrite A, <- app_assoc. reflexivity.
      * simpl. rewrite He, B. do 2 f_equal. lia.
      * rewrite C. simpl List.length. lia.
      * simpl List.length. lia.
      * intros m' [<- | Hm']; [left; reflexivity | right; apply E; exact Hm'].
Qed.

(** X17.  Whatever messages are offered to [appendMessage], in whatever
    order and with whatever outcomes, the buffer grows by exactly the
    messages that were accepted and their indices are
    [last_buffered + 1, last_buffered + 2, ...] without a gap;
    [last_buffered] advances by their number.  (The bounds keep
    [last_buffered + 1] inside [int64_t].) *)
Theorem appendMessage_accepts_consecutive (ops : list (Op LogCache))
    (b : BufferData) :
  forallb (is_append LogCache) ops = true ->
  Int64.min_signed <= last_buffered b ->
  last_buffered b + Z.of_nat (List.length ops) <= Int64.max_signed ->
  exists accepted,
    msg_buffer_refs (run ops b) = msg_buffer_refs b ++ accepted /\
    map (fun m => index (id m)) accepted =
      range_from (last_buffered b + 1) (List.length accepted) /\
    last_buffered (run ops b) =
      last_buffered b + Z.of_nat (List.length accepted) /\
    (forall m, In m accepted -> In (OpAppendMessage LogCache (Some m)) ops).
Proof.
  intros Hops Hlo Hhi.
  destruct (run_appends ops b Hops Hlo Hhi) as [acc [A [B [C [_ E]]]]].
  exists acc. auto.
Qed.

Hypothesis ReadOps_ok : ReadOps_contract LogCache ReadOps.

(** X18.  If the log cache appends, to the vector it is given, the ops
    that follow the index it is asked for, in order and without gaps, and
    reports the id of the op at that index, then a buffer that is only
    filled through [readFromCache] and emptied through [resetBuffer] and
    [moveDataAndReset] always holds consecutive indices ending at
    [last_buffered], with [preceding_opid] carrying the index before the
    first: whenever it is non-empty its indices are exactly
    [preceding_opid.index + 1 .. last_buffered]. *)
Theorem cache_filled_buffer_contiguous (ops : list (Op LogCache))
    (b : BufferData) :
  forallb (fun op => negb (is_append LogCache op)) ops = true ->
  anchored b ->
  anchored (run ops b) /\ contiguous_after_preceding (run ops b).
Proof.
  intros Hops Hb.
  assert (H : anchored (run ops b)).
  { revert b Hb. induction ops as [| op ops IH]; intros b Hb; [exact Hb |].
    simpl in Hops. apply andb_true_iff in Hops. destruct Hops as [Hop Hops].
    change (run (op :: ops) b) with (run ops (step b op)).
    apply (IH Hops).
    destruct op as [m | ctx cache | for_proxy last_index |];
      try discriminate Hop.
    - apply (readFromCache_anchored FLAGS_max_buffer_fill_size_bytes
               FLAGS_consensus_max_batch_size_bytes
               resetBuffer_default_for_proxy resetBuffer_default_last_index
               LogCache ReadOps ReadOps_ok ctx cache b Hb).
    - apply resetBuffer_anchored.
    - apply resetBuffer_anchored. }
  split; [exact H | apply anchored_contiguous; exact H].
Qed.

End BufferSequences.

(* ================================================================== *)
(** ** The hand-off slot *)

Section Handoff.

Import KStatus PeerBuffer PeerBufferMore.

Variable BufferData_default_bytes_buffered : Z.

Let fulfill := fulfillPromiseWithBuffer BufferData_default_bytes_buffered.

(** X19.  After [requestHandoff(index, proxy)], the first
    [getIndexForHandoff] returns [index] (nothing if [index] is the
    sentinel -1) and empties the slot, so a second one returns nothing;
    [getProxyOpsNeeded] is [proxy].  The promise is fresh:
    [fulfillPromiseWithBuffer(s)] succeeds, puts [s] with the buffered
    messages and their [preceding_opid] into it and leaves the buffer
    empty at the same [last_buffered]; a second fulfil without a new
    request throws. *)
Theorem handoff_slot (index : Z) (proxy : bool) (s s' : Status)
    (m : PeerMessageBuffer) :
  let m1 := requestHandoff index proxy m in
  let m2 := snd (getIndexForHandoff m1) in
  fst (getIndexForHandoff m1) =
    (if index =? -1 then None else Some index) /\
  handoff_initial_index_ m2 = -1 /\
  fst (getIndexForHandoff m2) = None /\
  getProxyOpsNeeded m2 = proxy /\
  exists m3,
    fulfill s m2 = Some m3 /\
    option_map fst (handoff_promise_ m3) = Some s /\
    option_map getData (handoff_promise_ m3) =
      Some (msg_buffer_refs (data_ m), preceding_opid (data_ m)) /\
    msg_buffer_refs (data_ m3) = [] /\
    last_buffered (data_ m3) = last_buffered (data_ m) /\
    fulfill s' m3 = None.
Proof.
  intros m1 m2. subst m1 m2.
  unfold getIndexForHandoff, requestHandoff, getProxyOpsNeeded.
  cbn [handoff_initial_index_ data_ handoff_promise_ proxy_ops_needed_].
  split; [destruct (index =? -1); reflexivity |].
  split; [destruct (index =? -1); reflexivity |].
  split; [destruct (index =? -1); reflexivity |].
  split; [destruct (index =? -1); reflexivity |].
  eexists. split.
  - unfold fulfill, fulfillPromiseWithBuffer, moveDataAndReset.
    destruct (index =? -1); reflexivity.
  - repeat split.
Qed.

End Handoff.

(* ================================================================== *)
(** ** The further theorems at concrete inputs *)

Lemma vote_history_fits_under_all_calls_witness :
  let ops :=
    [CMeta.OpSetCurrentTerm 5; CMeta.OpSetVotedFor "a";
     CMeta.OpSetCurrentTerm 6; CMeta.OpSetVotedFor "b";
     CMeta.OpSetLeaderUuid "b";
     CMeta.OpSyncLastKnownLeader CMetaExamples.fs_ok None;
     CMeta.OpSetCurrentTerm 7; CMeta.OpSetVotedFor "c";
     CMeta.OpSetCurrentTerm 8; CMeta.OpSetVotedFor "d";
     CMeta.OpSetCurrentTerm 9; CMeta.OpSetVotedFor "e"] in
  let c := CMetaExamples.run_with 2 ops in
  CMeta.lkl_election_term (CMeta.last_known_leader c) = 6 /\
  NoDup (CMeta.keys (CMeta.previous_vote_history c)) /\
  (CMeta.size (CMeta.previous_vote_history c) <= 2)%nat.
Proof.
  intros ops c. split; [reflexivity |].
  exact (vote_history_fits_under_all_calls CMetaExamples.role_of
           CMetaExamples.verify_ok CMeta.OVERWRITE CMeta.FOLLOWER 2
           (CMetaExamples.hashed_insert 0) (insert_before_ok _)
           "tablet" "peer" ops).
Defined.


Lemma set_voted_for_last_pruned_term_witness :
  let c := MoreExamples.four_votes in
  let c' := CMeta.set_voted_for 2 (CMetaExamples.hashed_insert 0) "c" c in
  NoDup (CMeta.keys (CMeta.previous_vote_history c)) /\
  CMeta.current_term c = 9 /\
  CMeta.keys (CMeta.previous_vote_history c') = [1; 2; 3; 4] /\
  CMeta.last_pruned_term c' = 9 /\
  (forall k,
      CMeta.lkl_election_term (CMeta.last_known_leader c) < k ->
      k = CMeta.current_term c \/
      In k (CMeta.keys (CMeta.previous_vote_history c)) ->
      In k (CMeta.keys (CMeta.previous_vote_history c')) \/
      CMeta.last_pruned_term c' = k).
Proof.
  intros c c'.
  assert (Hd : NoDup (CMeta.keys (CMeta.previous_vote_history c)))
    by (simpl; repeat (constructor; [simpl; intuition discriminate |]);
        constructor).
  split; [exact Hd |]. split; [reflexivity |]. split; [reflexivity |].
  split; [reflexivity |].
  exact (proj1 (proj2 (set_voted_for_last_pruned_term 2
                         (CMetaExamples.hashed_insert 0)
                         (insert_before_ok _) "c" c Hd))).
Defined.

Lemma set_voted_for_records_when_room_witness :
  let c :=
    CMetaExamples.run_with 3
      [CMeta.OpSetCurrentTerm 5; CMeta.OpSetVotedFor "a";
       CMeta.OpClearVotedFor; CMeta.OpSetCurrentTerm 6] in
  let c' := CMeta.set_voted_for 3 (CMetaExamples.hashed_insert 0) "b" c in
  (CMeta.size (CMeta.previous_vote_history c) < 3)%nat /\
  CMeta.keys (CMeta.previous_vote_history c') = [5; 6] /\
  exists pv,
    CMeta.find (CMeta.current_term c') (CMeta.previous_vote_history c')
      = Some pv /\
    CMeta.candidate_uuid pv = CMeta.voted_for c'.
Proof.
  intros c c'.
  assert (Hr : (CMeta.size (CMeta.previous_vote_history c) < 3)%nat)
    by (simpl; lia).
  assert (Hl : CMeta.lkl_election_term (CMeta.last_known_leader c)
               < CMeta.current_term c) by reflexivity.
  assert (Hn : CMetaInv.no_other_vote_recorded "b" c) by exact I.
  split; [exact Hr |]. split; [reflexivity |].
  exact (proj1 (proj2 (proj2 (proj2
           (set_voted_for_records_when_room 3 (CMetaExamples.hashed_insert 0)
              (insert_before_ok _) "b" c Hr Hl Hn))))).
Defined.

Lemma leader_term_never_ahead_witness :
  let ops :=
    [CMeta.OpSetCurrentTerm 5; CMeta.OpSetLeaderUuid "b";
     CMeta.OpSyncLastKnownLeader CMetaExamples.fs_ok (Some 5);
     CMeta.OpMergeCommittedConsensusStatePB
       (CMeta.mkConsensusStatePB (Some 8) None None None)] in
  let c := CMetaExamples.run_with 3 ops in
  CMeta.lkl_election_term (CMeta.last_known_leader c) = 5 /\
  CMeta.lkl_election_term (CMeta.last_known_leader c)
    <= CMeta.current_term c.
Proof.
  intros ops c. split; [reflexivity |].
  apply (leader_term_never_ahead CMetaExamples.role_of
           CMetaExamples.verify_ok CMeta.OVERWRITE 3
           (CMetaExamples.hashed_insert 0) ops CMetaExamples.fresh).
  - vm_compute. discriminate.
  - cbv. repeat split; discriminate.
Defined.

Lemma active_role_stays_current_witness :
  let ops :=
    [CMeta.OpSetCurrentTerm 3; CMeta.OpSetLeaderUuid "peer";
     CMeta.OpFlush CMetaExamples.fs_ok CMeta.OVERWRITE;
     CMeta.OpSetPendingConfig MoreExamples.three_peers] in
  let c :=
    CMeta.run MoreExamples.role_by_leader CMetaExamples.verify_ok
      CMeta.OVERWRITE 3 (CMetaExamples.hashed_insert 0) ops
      MoreExamples.led_by_b in
  CMeta.active_role MoreExamples.led_by_b = CMeta.FOLLOWER /\
  CMeta.active_role c = CMeta.LEADER /\
  CMeta.active_role c =
    MoreExamples.role_by_leader (CMeta.peer_uuid_ c) (CMeta.leader_uuid_ c)
      (CMeta.ActiveConfig c).
Proof.
  intros ops c. split; [reflexivity |]. split; [reflexivity |].
  apply (active_role_stays_current MoreExamples.role_by_leader
           CMetaExamples.verify_ok CMeta.OVERWRITE 3
           (CMetaExamples.hashed_insert 0) ops
           MoreExamples.led_by_b); reflexivity.
Defined.

Lemma Flush_rejects_invalid_config_witness :
  let r :=
    CMeta.Flush MoreExamples.verify_bad CMetaExamples.fs_ok CMeta.OVERWRITE
      CMetaExamples.fresh in
  KStatus.code (fst r) = KStatus.kInvalidArgument /\
  CMeta.on_disk_size_ (snd r) = 0 /\
  CMeta.flush_count_for_tests_ (snd r) = 1.
Proof.
  intros r.
  destruct (Flush_rejects_invalid_config MoreExamples.verify_bad
              CMetaExamples.fs_ok CMeta.OVERWRITE CMetaExamples.fresh
              eq_refl) as [_ [Hc Hs]].
  split; [exact Hc |]. split; [exact Hs | reflexivity].
Defined.

Lemma Flush_outcome_witness :
  let r :=
    CMeta.Flush CMetaExamples.verify_ok CMetaExamples.fs_ok CMeta.OVERWRITE
      CMetaExamples.fresh in
  fst r = KStatus.OK /\ CMeta.on_disk_size_ (snd r) = 64.
Proof.
  intros r.
  destruct (Flush_outcome CMetaExamples.verify_ok CMetaExamples.fs_ok
              CMeta.OVERWRITE CMetaExamples.fresh) as [_ [H _]].
  exact (H eq_refl).
Defined.



Lemma leader_hostport_spec_witness :
  CMetaMore.leader_hostport MoreExamples.led_by_b
    = ("host-b"%string, 7051) /\
  CMetaMore.leader_hostport
    (CMeta.set_leader_uuid MoreExamples.role_by_leader "c"
       MoreExamples.led_by_b) = (EmptyString, 0).
Proof.
  destruct (leader_hostport_spec MoreExamples.led_by_b) as [Hfirst _].
  destruct (leader_hostport_spec
              (CMeta.set_leader_uuid MoreExamples.role_by_leader "c"
                 MoreExamples.led_by_b)) as [_ [Hnone _]].
  split.
  - apply (Hfirst
             [CMeta.mkRaftPeerPB "a"
                (Some (CMeta.mkHostPortPB "host-a" 7050));
              CMeta.mkRaftPeerPB "b" None]
             (CMeta.mkRaftPeerPB "b"
                (Some (CMeta.mkHostPortPB "host-b" 7051)))
             [] (CMeta.mkHostPortPB "host-b" 7051)).
    + reflexivity.
    + intros q [<- | [<- | []]]; [left; discriminate | right; reflexivity].
    + reflexivity.
    + reflexivity.
  - apply Hnone.
    intros q [<- | [<- | [<- | []]]] H; discriminate H.
Defined.

Lemma GetConfigMemberCopy_spec_witness :
  CMetaMore.GetConfigMemberCopy "b" MoreExamples.led_by_b
    = (KStatus.OK, Some (CMeta.mkRaftPeerPB "b" None)) /\
  KStatus.code (fst (CMetaMore.GetConfigMemberCopy "c" MoreExamples.led_by_b))
    = KStatus.kNotFound.
Proof.
  destruct (GetConfigMemberCopy_spec "b" MoreExamples.led_by_b)
    as [Hfirst _].
  destruct (GetConfigMemberCopy_spec "c" MoreExamples.led_by_b)
    as [_ [_ Hnone]].
  split.
  - apply (Hfirst
             [CMeta.mkRaftPeerPB "a"
                (Some (CMeta.mkHostPortPB "host-a" 7050))]
             (CMeta.mkRaftPeerPB "b" None)
             [CMeta.mkRaftPeerPB "b"
                (Some (CMeta.mkHostPortPB "host-b" 7051))]).
    + reflexivity.
    + intros q [<- | []]. discriminate.
    + reflexivity.
  - apply Hnone.
    intros q [<- | [<- | [<- | []]]]; discriminate.
Defined.

Lemma InsertIntoRemovedPeersList_spec_witness :
  exists q',
    CMetaMore.InsertIntoRemovedPeersList MoreExamples.member_by_uuid 2
      MoreExamples.led_by_b ["a"; "y"; "z"]%string ["x"%string] = Some q' /\
    q' = ["y"; "z"]%string /\
    CMetaMore.IsPeerRemoved MoreExamples.member_by_uuid "z"
      MoreExamples.led_by_b q' = true.
Proof.
  destruct (InsertIntoRemovedPeersList_spec MoreExamples.member_by_uuid 2
              (le_S 1 1 (le_n 1)) MoreExamples.led_by_b
              ["a"; "y"; "z"]%string ["x"%string])
    as [q' [H1 [H2 [_ [_ [H5 _]]]]]].
  - simpl. lia.
  - exists q'. split; [exact H1 |]. split; [rewrite H2; reflexivity |].
    apply H5. right. left. reflexivity.
Defined.

Lemma bytes_buffered_never_grows_witness :
  let ops :=
    [PeerBufferMore.OpAppendMessage Z
       (Some (PeerBufferExamples.msg_at 1 11));
     PeerBufferMore.OpReadFromCache Z PeerBufferExamples.ctx 1;
     PeerBufferMore.OpMoveDataAndReset Z;
     PeerBufferMore.OpReadFromCache Z PeerBufferExamples.ctx 1] in
  let b := MoreExamples.run_buffer ops PeerBufferExamples.anchored_at_10 in
  PeerBuffer.last_buffered b = 13 /\
  PeerBuffer.bytes_buffered b = 0 /\
  PeerBuffer.fill_size
    PeerBufferExamples.default_max_buffer_fill_size_bytes
    PeerBufferExamples.default_consensus_max_batch_size_bytes b
    = 1024 * 1024.
Proof.
  intros ops b. split; [reflexivity |].
  destruct (bytes_buffered_never_grows
              PeerBufferExamples.default_max_buffer_fill_size_bytes
              PeerBufferExamples.default_consensus_max_batch_size_bytes
              false (-1) 0 Z PeerBufferExamples.next_op_ReadOps ops
              PeerBufferExamples.anchored_at_10) as [_ H].
  destruct (H eq_refl) as [Hz Hf].
  split; [exact Hz |]. unfold b, MoreExamples.run_buffer.
  rewrite Hf. reflexivity.
Defined.

Lemma appendMessage_accepts_consecutive_witness :
  let ops :=
    [PeerBufferMore.OpAppendMessage Z
       (Some (PeerBufferExamples.msg_at 1 11));
     PeerBufferMore.OpAppendMessage Z
       (Some (PeerBufferExamples.msg_at 1 13));
     PeerBufferMore.OpAppendMessage Z None;
     PeerBufferMore.OpAppendMessage Z
       (Some (PeerBufferExamples.msg_at 1 12))] in
  let b := MoreExamples.run_buffer ops PeerBufferExamples.anchored_at_10 in
  PeerBuffer.indices b = [11; 12] /\
  exists accepted,
    PeerBuffer.msg_buffer_refs b = [] ++ accepted /\
    PeerBuffer.last_buffered b = 10 + Z.of_nat (List.length accepted).
Proof.
  intros ops b. split; [reflexivity |].
  destruct (appendMessage_accepts_consecutive
              PeerBufferExamples.default_max_buffer_fill_size_bytes
              PeerBufferExamples.default_consensus_max_batch_size_bytes
              false (-1) 0 Z PeerBufferExamples.next_op_ReadOps ops
              PeerBufferExamples.anchored_at_10)
    as [acc [A [_ [C _]]]].
  - reflexivity.
  - vm_compute. discriminate.
  - vm_compute. discriminate.
  - exists acc. split; [exact A | exact C].
Defined.

Lemma cache_filled_buffer_contiguous_witness :
  let ops :=
    [PeerBufferMore.OpReadFromCache Z PeerBufferExamples.ctx 1;
     PeerBufferMore.OpReadFromCache Z PeerBufferExamples.ctx 1;
     PeerBufferMore.OpMoveDataAndReset Z;
     PeerBufferMore.OpReadFromCache Z PeerBufferExamples.ctx 2] in
  let b := MoreExamples.run_buffer ops PeerBufferExamples.anchored_at_10 in
  PeerBuffer.indices b = [13] /\
  PeerBuffer.preceding_opid b = PeerBuffer.mkOpId 2 12 /\
  PeerBuffer.contiguous_after_preceding b.
Proof.
  intros ops b. split; [reflexivity |]. split; [reflexivity |].
  apply (cache_filled_buffer_contiguous
           PeerBufferExamples.default_max_buffer_fill_size_bytes
           PeerBufferExamples.default_consensus_max_batch_size_bytes
           false (-1) 0 Z PeerBufferExamples.next_op_ReadOps
           next_op_ReadOps_contract ops PeerBufferExamples.anchored_at_10).
  - reflexivity.
  - apply (ContiguityFacts.resetBuffer_anchored false 10
             PeerBufferExamples.anchored_at_10).
Defined.
